(** * The crop-review editor of cookie-voting-ai-studio

    A shallow embedding of [src/components/CropReview.tsx]: the geometry of
    normalized bounding boxes, the pointer handlers that select, move and
    resize them, the box collection operations and the export of padded
    crops.

    Conventions of the embedding.
    - Numbers.  The component is embedded with a JavaScript [number] as an
      exact rational ([Q]): equality of numbers is [==] ([Qeq]), and the
      strict equality test [===] of the source is [Qeq_bool].  This is the
      arithmetic the geometry is meant in, and it carries the properties
      that are bounds, orders and structure.  Rounding, [NaN] and the
      infinities are outside it.  The pointer handlers are embedded a
      second time in module [Double], with a [number] as the IEEE 754
      binary64 value it is: that embedding carries every statement on the
      exact value of a coordinate, that is what a move and a resize store
      and which box a pointer-down hits.
    - A React event handler reads the state of the render it was created in
      and queues updates through the setters.  A handler is therefore a
      function from that snapshot to the list of effects it issues, and
      [commit] applies the queued updates afterwards.
    - [Throw] stands for an execution that leaves the model because
      [boxes[i]] is read at an [i] that is not an index of the array: a
      [TypeError] on reading a field of [undefined], or a box of [NaN]
      coordinates in the resize branch. *)

From Stdlib Require Import QArith Qminmax Qabs Lqa Lia List String Ascii Bool.
From Stdlib Require Import Decimal DecimalString DecimalNat DecimalN NArith.
From Stdlib Require Floats.
From stdpp Require Import base list.
Import ListNotations.
Local Open Scope Q_scope.

(** ** Numbers *)

Module Num.

(** [a < b] on numbers, as a test. *)
Definition ltb (a b : Q) : bool := negb (Qle_bool b a).

(** [a <= b] and [a >= b] on numbers, as tests. *)
Definition leb (a b : Q) : bool := Qle_bool a b.
Definition geb (a b : Q) : bool := Qle_bool b a.

(** [a === b] on numbers. *)
Definition seq (a b : Q) : bool := Qeq_bool a b.

End Num.

(** [Math.max] and [Math.min] are [Qmax] and [Qmin], [Math.abs] is [Qabs].
    The tactic below hands their defining cases to [lra]. *)
Ltac minmax_cases :=
  repeat match goal with
  | |- context [Qmax ?a ?b] =>
      let H := fresh "Hmax" in
      pose proof (Q.max_spec a b) as H;
      generalize dependent (Qmax a b); intros
  | |- context [Qmin ?a ?b] =>
      let H := fresh "Hmin" in
      pose proof (Q.min_spec a b) as H;
      generalize dependent (Qmin a b); intros
  | _ : context [Qmax ?a ?b] |- _ =>
      let H := fresh "Hmax" in
      pose proof (Q.max_spec a b) as H;
      generalize dependent (Qmax a b); intros
  | _ : context [Qmin ?a ?b] |- _ =>
      let H := fresh "Hmin" in
      pose proof (Q.min_spec a b) as H;
      generalize dependent (Qmin a b); intros
  end.

(** ** Data *)

(** [BoundingBox] of the type declarations: normalized coordinates. *)
Record BoundingBox : Type := mkBox {
  ymin : Q;
  xmin : Q;
  ymax : Q;
  xmax : Q
}.

Definition set_xmin (b : BoundingBox) (v : Q) : BoundingBox :=
  mkBox (ymin b) v (ymax b) (xmax b).
Definition set_xmax (b : BoundingBox) (v : Q) : BoundingBox :=
  mkBox (ymin b) (xmin b) (ymax b) v.
Definition set_ymin (b : BoundingBox) (v : Q) : BoundingBox :=
  mkBox v (xmin b) (ymax b) (xmax b).
Definition set_ymax (b : BoundingBox) (v : Q) : BoundingBox :=
  mkBox (ymin b) (xmin b) v (xmax b).

Inductive DragMode : Type := mode_none | mode_move | mode_resize.

Inductive HandlePosition : Type := nw | ne | sw | se.

(** The string a handle is in the source, and [String.prototype.includes]
    for a one-character needle. *)
Definition handle_name (h : HandlePosition) : string :=
  match h with
  | nw => "nw" | ne => "ne" | sw => "sw" | se => "se"
  end%string.

Fixpoint includes (s : string) (c : ascii) : bool :=
  match s with
  | EmptyString => false
  | String a rest => if Ascii.eqb a c then true else includes rest c
  end.

Record Point : Type := mkPoint { px : Q; py : Q }.

(** The part of an [HTMLCanvasElement] the handlers read: its raster size
    and its bounding client rectangle. *)
Record Canvas : Type := mkCanvas {
  canvas_width : Q;
  canvas_height : Q;
  rect_left : Q;
  rect_top : Q;
  rect_width : Q;
  rect_height : Q
}.

Record Image : Type := mkImage {
  naturalWidth : Q;
  naturalHeight : Q
}.

(** What the component holds in refs and reaches in the document:
    [canvasRef.current], [imgRef.current], and whether a fresh canvas
    hands out a 2d context. *)
Record Refs : Type := mkRefs {
  canvasRef : option Canvas;
  imgRef : option Image;
  context2d : bool
}.

(** [clientX] and [clientY] of a mouse event, or of the first touch. *)
Record PointerEvent : Type := mkEvent {
  clientX : Q;
  clientY : Q
}.

(** The component state, one field per [useState]. *)
Record EditorState : Type := mkState {
  boxes : list BoundingBox;
  selectedIndex : option nat;
  selectedCategoryId : string;
  dragMode : DragMode;
  dragHandle : option HandlePosition;
  isDragging : bool;
  dragStart : Point
}.

(** The source rectangle of one [drawImage] call of the export: the region
    of the image a crop shows. *)
Record Crop : Type := mkCrop {
  crop_sx : Q;
  crop_sy : Q;
  crop_sw : Q;
  crop_sh : Q
}.

(** ** Effects *)

Inductive Effect : Type :=
| setBoxes (v : list BoundingBox)
| setSelectedIndex (v : option nat)
| setSelectedCategoryId (v : string)
| setDragMode (v : DragMode)
| setDragHandle (v : option HandlePosition)
| setIsDragging (v : bool)
| setDragStart (v : Point)
| onConfirm (croppedImages : list Crop) (defaultCategoryId : option string).

Inductive Result (A : Type) : Type :=
| Ok (a : A)
| Throw.
Arguments Ok {A} a.
Arguments Throw {A}.

Definition reduce (s : EditorState) (e : Effect) : EditorState :=
  match e with
  | setBoxes v =>
      mkState v (selectedIndex s) (selectedCategoryId s) (dragMode s)
              (dragHandle s) (isDragging s) (dragStart s)
  | setSelectedIndex v =>
      mkState (boxes s) v (selectedCategoryId s) (dragMode s)
              (dragHandle s) (isDragging s) (dragStart s)
  | setSelectedCategoryId v =>
      mkState (boxes s) (selectedIndex s) v (dragMode s)
              (dragHandle s) (isDragging s) (dragStart s)
  | setDragMode v =>
      mkState (boxes s) (selectedIndex s) (selectedCategoryId s) v
              (dragHandle s) (isDragging s) (dragStart s)
  | setDragHandle v =>
      mkState (boxes s) (selectedIndex s) (selectedCategoryId s) (dragMode s)
              v (isDragging s) (dragStart s)
  | setIsDragging v =>
      mkState (boxes s) (selectedIndex s) (selectedCategoryId s) (dragMode s)
              (dragHandle s) v (dragStart s)
  | setDragStart v =>
      mkState (boxes s) (selectedIndex s) (selectedCategoryId s) (dragMode s)
              (dragHandle s) (isDragging s) v
  | onConfirm _ _ => s
  end.

(** The state of the next render. *)
Definition commit (s : EditorState) (effs : list Effect) : EditorState :=
  fold_left reduce effs s.

(** What reaches the host: the arguments of each [onConfirm] call. *)
Fixpoint hostCalls (effs : list Effect)
  : list (list Crop * option string) :=
  match effs with
  | [] => []
  | onConfirm c d :: rest => (c, d) :: hostCalls rest
  | _ :: rest => hostCalls rest
  end.

(** A handler run on a snapshot, followed by the commit of its updates. *)
Definition dispatch (h : EditorState -> Result (list Effect))
    (s : EditorState) : Result EditorState :=
  match h s with
  | Ok effs => Ok (commit s effs)
  | Throw => Throw
  end.

(** ** Geometry *)

(** The two conversions in exact arithmetic, where they are inverse to
    each other; [Double.normToPixel] and [Double.pixelToNorm] are the
    rounded ones. *)
Definition normToPixel (val max : Q) : Q := (val / 1000) * max.
Definition pixelToNorm (val max : Q) : Q := (val / max) * 1000.

(** For an empty bounding rectangle the scale has no exact value and the
    division of [Q] answers 0; such a canvas receives no pointer event.
    [Double.getCanvasCoordinates] has the infinity or [NaN] of the
    source. *)
Definition getCanvasCoordinates (r : Refs) (e : PointerEvent) : Point :=
  match canvasRef r with
  | None => mkPoint 0 0
  | Some canvas =>
      let scaleX := canvas_width canvas / rect_width canvas in
      let scaleY := canvas_height canvas / rect_height canvas in
      mkPoint ((clientX e - rect_left canvas) * scaleX)
              ((clientY e - rect_top canvas) * scaleY)
  end.

(** ** Hit testing *)

(** Whether the pointer is within [tol] of a corner on both axes. *)
Definition nearCorner (x y cx cy tol : Q) : bool :=
  Num.ltb (Qabs (x - cx)) tol && Num.ltb (Qabs (y - cy)) tol.

Definition getHandleHit (r : Refs) (s : EditorState) (x y : Q)
    (boxIdx : nat) : Result (option HandlePosition) :=
  match canvasRef r with
  | None => Ok None
  | Some canvas =>
      match boxes s !! boxIdx with
      | None => Throw
      | Some box =>
          let bx := normToPixel (xmin box) (canvas_width canvas) in
          let by_ := normToPixel (ymin box) (canvas_height canvas) in
          let bw := normToPixel (xmax box - xmin box) (canvas_width canvas) in
          let bh := normToPixel (ymax box - ymin box) (canvas_height canvas) in
          let tol := (canvas_width canvas / 1000) * 40 in
          if nearCorner x y bx by_ tol then Ok (Some nw)
          else if nearCorner x y (bx + bw) by_ tol then Ok (Some ne)
          else if nearCorner x y bx (by_ + bh) tol then Ok (Some sw)
          else if nearCorner x y (bx + bw) (by_ + bh) tol then Ok (Some se)
          else Ok None
      end
  end.

(** The test of the body loop: the pointer is inside the pixel rectangle
    of the box, bounds included.  The edges are the exact ones here and
    the rounded ones in [Double.insideBox]. *)
Definition insideBox (canvas : Canvas) (box : BoundingBox) (x y : Q) : bool :=
  let bx := normToPixel (xmin box) (canvas_width canvas) in
  let by_ := normToPixel (ymin box) (canvas_height canvas) in
  let bw := normToPixel (xmax box - xmin box) (canvas_width canvas) in
  let bh := normToPixel (ymax box - ymin box) (canvas_height canvas) in
  Num.geb x bx && Num.leb x (bx + bw) && Num.geb y by_ && Num.leb y (by_ + bh).

(** The loop [for (let i = boxes.length - 1; i >= 0; i--)] with its
    [break]: [n] is [i + 1], the number of boxes still to visit. *)
Fixpoint clickedIndex (canvas : Canvas) (bs : list BoundingBox) (x y : Q)
    (n : nat) : option nat :=
  match n with
  | O => None
  | S i =>
      match bs !! i with
      | Some box =>
          if insideBox canvas box x y then Some i
          else clickedIndex canvas bs x y i
      | None => clickedIndex canvas bs x y i
      end
  end.

(** Step 2 of [handleMouseDown]: select the clicked box, or nothing. *)
Definition selectBody (canvas : Canvas) (s : EditorState) (x y : Q)
  : list Effect :=
  match clickedIndex canvas (boxes s) x y (length (boxes s)) with
  | Some i =>
      [setSelectedIndex (Some i); setDragMode mode_move;
       setIsDragging true; setDragStart (mkPoint x y)]
  | None => [setSelectedIndex None]
  end.

Definition handleMouseDown (r : Refs) (e : PointerEvent) (s : EditorState)
  : Result (list Effect) :=
  let p := getCanvasCoordinates r e in
  let x := px p in
  let y := py p in
  match canvasRef r with
  | None => Ok []
  | Some canvas =>
      match selectedIndex s with
      | Some sel =>
          match getHandleHit r s x y sel with
          | Throw => Throw
          | Ok (Some handle) =>
              Ok [setDragMode mode_resize; setDragHandle (Some handle);
                  setIsDragging true]
          | Ok None => Ok (selectBody canvas s x y)
          end
      | None => Ok (selectBody canvas s x y)
      end
  end.

(** ** Dragging *)

Definition clamp1000 (v : Q) : Q := Qmax 0 (Qmin 1000 v).

(** The move branch of [handleMouseMove]: the translated box, each
    coordinate clamped, then the four boundary corrections in order.  The
    sums and differences are exact here; [Double.moveBox] rounds each of
    them as the source does. *)
Definition moveBox (currentBox : BoundingBox) (dx dy : Q) : BoundingBox :=
  let newBox :=
    mkBox (clamp1000 (ymin currentBox + dy))
          (clamp1000 (xmin currentBox + dx))
          (clamp1000 (ymax currentBox + dy))
          (clamp1000 (xmax currentBox + dx)) in
  let w := xmax currentBox - xmin currentBox in
  let h := ymax currentBox - ymin currentBox in
  let newBox := if Num.seq (xmin newBox) 0 then set_xmax newBox w else newBox in
  let newBox :=
    if Num.seq (xmax newBox) 1000 then set_xmin newBox (1000 - w) else newBox in
  let newBox := if Num.seq (ymin newBox) 0 then set_ymax newBox h else newBox in
  let newBox :=
    if Num.seq (ymax newBox) 1000 then set_ymin newBox (1000 - h) else newBox in
  newBox.

(** The resize branch: the edges named by the handle follow the clamped
    pointer, each limited by the opposite edge. *)
Definition resizeBox (currentBox : BoundingBox) (dragHandle : HandlePosition)
    (normX normY : Q) : BoundingBox :=
  let name := handle_name dragHandle in
  let box := currentBox in
  let box :=
    if includes name "w" then set_xmin box (Qmin normX (xmax box - 50))
    else box in
  let box :=
    if includes name "e" then set_xmax box (Qmax normX (xmin box + 50))
    else box in
  let box :=
    if includes name "n" then set_ymin box (Qmin normY (ymax box - 50))
    else box in
  let box :=
    if includes name "s" then set_ymax box (Qmax normY (ymin box + 50))
    else box in
  box.

Definition handleMouseMove (r : Refs) (e : PointerEvent) (s : EditorState)
  : Result (list Effect) :=
  match isDragging s, selectedIndex s with
  | false, _ => Ok []
  | true, None => Ok []
  | true, Some sel =>
      let p := getCanvasCoordinates r e in
      let x := px p in
      let y := py p in
      match canvasRef r with
      | None => Ok []
      | Some canvas =>
          let pxToNormX := fun val => pixelToNorm val (canvas_width canvas) in
          let pxToNormY := fun val => pixelToNorm val (canvas_height canvas) in
          match boxes s !! sel with
          | None =>
              match dragMode s, dragHandle s with
              | mode_move, _ => Throw
              | mode_resize, Some _ => Throw
              | _, _ => Ok [setBoxes (boxes s)]
              end
          | Some currentBox =>
              match dragMode s, dragHandle s with
              | mode_move, _ =>
                  let dx := pxToNormX (x - px (dragStart s)) in
                  let dy := pxToNormY (y - py (dragStart s)) in
                  let newBox := moveBox currentBox dx dy in
                  Ok [setDragStart (mkPoint x y);
                      setBoxes (<[sel := newBox]> (boxes s))]
              | mode_resize, Some handle =>
                  let normX := clamp1000 (pxToNormX x) in
                  let normY := clamp1000 (pxToNormY y) in
                  let box := resizeBox currentBox handle normX normY in
                  Ok [setBoxes (<[sel := box]> (boxes s))]
              | _, _ => Ok [setBoxes (boxes s)]
              end
          end
      end
  end.

Definition handleMouseUp (s : EditorState) : Result (list Effect) :=
  Ok [setIsDragging false; setDragMode mode_none; setDragHandle None].

(** ** The box collection *)

Definition handleAddBox (s : EditorState) : Result (list Effect) :=
  let newBox := mkBox 400 400 600 600 in
  Ok [setBoxes (boxes s ++ [newBox]);
      setSelectedIndex (Some (length (boxes s)))].

(** [boxes.filter((_, i) => i !== selectedIndex)], the index counted from
    [i]. *)
Fixpoint filterIndexNe {A : Type} (sel : nat) (i : nat) (l : list A) : list A :=
  match l with
  | [] => []
  | a :: rest =>
      if Nat.eqb i sel then filterIndexNe sel (S i) rest
      else a :: filterIndexNe sel (S i) rest
  end.

Definition handleDeleteBox (s : EditorState) : Result (list Effect) :=
  match selectedIndex s with
  | None => Ok []
  | Some sel =>
      Ok [setBoxes (filterIndexNe sel 0 (boxes s)); setSelectedIndex None]
  end.

(** The seed: [useState(detectedBoxes)] and the defaults of the other
    fields, then the effect that runs on mount and whenever the
    [detectedBoxes] prop changes. *)
Definition initialState (detectedBoxes : list BoundingBox) : EditorState :=
  mkState detectedBoxes None "" mode_none None false (mkPoint 0 0).

Definition detectedBoxesEffect (detectedBoxes : list BoundingBox)
    (s : EditorState) : Result (list Effect) :=
  Ok [setBoxes detectedBoxes].

(** The category selector's [onChange]. *)
Definition handleSelectCategory (value : string) (s : EditorState)
  : Result (list Effect) :=
  Ok [setSelectedCategoryId value].

(** ** Export *)

(** The body of the [forEach] of [handleProcess] for one box. *)
Definition cropOf (img : Image) (box : BoundingBox) : Crop :=
  let w := ((xmax box - xmin box) / 1000) * naturalWidth img in
  let h := ((ymax box - ymin box) / 1000) * naturalHeight img in
  let x := (xmin box / 1000) * naturalWidth img in
  let y := (ymin box / 1000) * naturalHeight img in
  let padding := Qmax 20 (naturalWidth img / 100) in
  let sx := Qmax 0 (x - padding) in
  let sy := Qmax 0 (y - padding) in
  let sw := Qmin (naturalWidth img - sx) (w + padding * 2) in
  let sh := Qmin (naturalHeight img - sy) (h + padding * 2) in
  mkCrop sx sy sw sh.

(** [selectedCategoryId || null]: the empty string is falsy. *)
Definition orNull (id : string) : option string :=
  if String.eqb id "" then None else Some id.

Definition handleProcess (r : Refs) (s : EditorState) : Result (list Effect) :=
  match imgRef r with
  | None => Ok []
  | Some img =>
      if negb (context2d r) then Ok []
      else
        let cropped :=
          fold_left (fun cropped box => cropped ++ [cropOf img box])
                    (boxes s) [] in
        Ok [onConfirm cropped (orNull (selectedCategoryId s))]
  end.

(** ** Scenes

    Concrete canvases, images and states the examples below run on. *)

(** A 1000 by 1000 canvas shown at its own size at the page origin, so
    that client coordinates are canvas pixels. *)
Definition canvas1000 : Canvas := mkCanvas 1000 1000 0 0 1000 1000.

Definition image1000 : Image := mkImage 1000 1000.

Definition refs1000 : Refs := mkRefs (Some canvas1000) (Some image1000) true.

(** ** Clamping in the words of the specification *)

(** A value clamped to the normalized space: the value itself inside the
    space, 0 for a value below and 1000 for a value above. *)
Definition clamped_of (v raw : Q) : Prop :=
  0 <= v <= 1000 /\
  (0 <= raw <= 1000 -> v == raw) /\
  (raw <= 0 -> v == 0) /\
  (1000 <= raw -> v == 1000).

(** ** Hit testing in the words of the specification *)

(** The tolerance of a handle, in canvas pixels. *)
Definition handleTolerance (canvas : Canvas) : Q :=
  (canvas_width canvas / 1000) * 40.

(** The pixel position of the corner a handle sits on. *)
Definition handleCorner (canvas : Canvas) (box : BoundingBox)
    (h : HandlePosition) : Point :=
  let left := normToPixel (xmin box) (canvas_width canvas) in
  let right := normToPixel (xmax box) (canvas_width canvas) in
  let top := normToPixel (ymin box) (canvas_height canvas) in
  let bottom := normToPixel (ymax box) (canvas_height canvas) in
  match h with
  | nw => mkPoint left top
  | ne => mkPoint right top
  | sw => mkPoint left bottom
  | se => mkPoint right bottom
  end.

(** The pointer is strictly within the tolerance of the corner of [h] on
    both axes. *)
Definition withinTolerance (canvas : Canvas) (box : BoundingBox) (x y : Q)
    (h : HandlePosition) : bool :=
  Num.ltb (Qabs (x - px (handleCorner canvas box h))) (handleTolerance canvas)
  && Num.ltb (Qabs (y - py (handleCorner canvas box h)))
             (handleTolerance canvas).

(** The order in which the handles are tried. *)
Definition handleOrder : list HandlePosition := [nw; ne; sw; se].

Definition handleRank (h : HandlePosition) : nat :=
  match h with
  | nw => 0 | ne => 1 | sw => 2 | se => 3
  end.

Definition firstHandleWithin (canvas : Canvas) (box : BoundingBox) (x y : Q)
  : option HandlePosition :=
  List.find (withinTolerance canvas box x y) handleOrder.

(** The pointer is in the pixel rectangle of the box, bounds included. *)
Definition inPixelRect (canvas : Canvas) (box : BoundingBox) (x y : Q) : Prop :=
  normToPixel (xmin box) (canvas_width canvas) <= x /\
  x <= normToPixel (xmax box) (canvas_width canvas) /\
  normToPixel (ymin box) (canvas_height canvas) <= y /\
  y <= normToPixel (ymax box) (canvas_height canvas).

(** A selected box of the minimum size, 50 by 50 units: every point of it
    is within 40 units of all four corners on both axes. *)
Definition smallBox : BoundingBox := mkBox 400 400 450 450.

Definition smallBoxState : EditorState :=
  mkState [smallBox] (Some 0%nat) "" mode_none None false (mkPoint 0 0).

(** Two overlapping boxes, A added before B, nothing selected. *)
Definition boxA : BoundingBox := mkBox 100 100 500 500.
Definition boxB : BoundingBox := mkBox 300 300 700 700.

Definition twoBoxesState : EditorState :=
  mkState [boxA; boxB] None "" mode_none None false (mkPoint 0 0).

(** The same two boxes with A selected: the [se] handle of A lies inside
    the body of B. *)
Definition twoBoxesSelectedA : EditorState :=
  mkState [boxA; boxB] (Some 0%nat) "" mode_none None false (mkPoint 0 0).

(** ** The export rule in the words of the specification

    The pixel rectangle of the box, grown by the padding on all four
    sides, then cut to the image: the origin is not below 0 and the far
    edges are not beyond the image. *)
Definition exportPadding (img : Image) : Q :=
  Qmax 20 (naturalWidth img / 100).

Definition paddedClampedRegion (img : Image) (box : BoundingBox) : Crop :=
  let padding := exportPadding img in
  let left := Qmax 0 (normToPixel (xmin box) (naturalWidth img) - padding) in
  let top := Qmax 0 (normToPixel (ymin box) (naturalHeight img) - padding) in
  let right :=
    Qmin (naturalWidth img)
         (normToPixel (xmax box) (naturalWidth img) + padding) in
  let bottom :=
    Qmin (naturalHeight img)
         (normToPixel (ymax box) (naturalHeight img) + padding) in
  mkCrop left top (right - left) (bottom - top).

(** Two crops showing the same region. *)
Definition crop_eq (a b : Crop) : Prop :=
  crop_sx a == crop_sx b /\ crop_sy a == crop_sy b /\
  crop_sw a == crop_sw b /\ crop_sh a == crop_sh b.

(** A box inside the normalized space with its edges in order. *)
Definition wellFormed (b : BoundingBox) : Prop :=
  0 <= xmin b /\ xmin b < xmax b /\ xmax b <= 1000 /\
  0 <= ymin b /\ ymin b < ymax b /\ ymax b <= 1000.

(** The scenario of the specification: one detected box in a 1000 by 1000
    image, no category chosen. *)
Definition scenarioState : EditorState :=
  initialState [mkBox 100 100 300 300].

(** One box in the top left corner of the image. *)
Definition cornerState : EditorState :=
  initialState [mkBox 0 0 200 200].

(** The refs before the image has loaded. *)
Definition refsNoImage : Refs := mkRefs (Some canvas1000) None true.

(** A box as a detector may return it, inverted and out of range. *)
Definition degenerateBox : BoundingBox := mkBox 1200 900 (-5) 100.

(** A well-formed box narrower and lower than 50 units, in the top left
    corner. *)
Definition tinyBox : BoundingBox := mkBox 0 0 30 30.

(** ** The editor as a state machine *)

Inductive UserAction : Type :=
| MouseDown (e : PointerEvent)
| MouseMove (e : PointerEvent)
| MouseUp
| AddBox
| DeleteBox
| SelectCategory (value : string)
| Process.

Definition handler (r : Refs) (a : UserAction)
  : EditorState -> Result (list Effect) :=
  match a with
  | MouseDown e => handleMouseDown r e
  | MouseMove e => handleMouseMove r e
  | MouseUp => handleMouseUp
  | AddBox => handleAddBox
  | DeleteBox => handleDeleteBox
  | SelectCategory value => handleSelectCategory value
  | Process => handleProcess r
  end.

Definition step (r : Refs) (a : UserAction) (s : EditorState)
  : Result EditorState :=
  dispatch (handler r a) s.

Fixpoint run (r : Refs) (actions : list UserAction) (s : EditorState)
  : Result EditorState :=
  match actions with
  | [] => Ok s
  | a :: rest =>
      match step r a s with
      | Ok s' => run r rest s'
      | Throw => Throw
      end
  end.

(** A well-formed box at least 50 units wide and high. *)
Definition roomy (b : BoundingBox) : Prop :=
  wellFormed b /\ 50 <= xmax b - xmin b /\ 50 <= ymax b - ymin b.

(** Every box is roomy and the selection is an index of the collection. *)
Definition editorInv (s : EditorState) : Prop :=
  Forall roomy (boxes s) /\
  match selectedIndex s with
  | Some i => (i < length (boxes s))%nat
  | None => True
  end.

(** A box whose edges are not inverted. *)
Definition ordered (b : BoundingBox) : Prop :=
  xmin b <= xmax b /\ ymin b <= ymax b.

(** The selection is an index of the collection, or nothing. *)
Definition selectionValid (s : EditorState) : Prop :=
  match selectedIndex s with
  | Some i => (i < length (boxes s))%nat
  | None => True
  end.

(** A box in the middle of the space, held by its [nw] handle, and the
    same box selected and at rest. *)
Definition midBox : BoundingBox := mkBox 200 200 400 400.

Definition midResizingState : EditorState :=
  mkState [midBox] (Some 0%nat) "" mode_resize (Some nw) true (mkPoint 0 0).

Definition midIdleState : EditorState :=
  mkState [midBox] (Some 0%nat) "" mode_none None false (mkPoint 0 0).

(** ** Rendering

    [draw] as the calls it makes on the 2d context of the canvas.  The
    only state of the context the calls depend on is the font, read by
    [measureText]: [None] is the font of a fresh context, [Some size] is
    [bold <size>px sans-serif].  The width [measureText] reports is the
    browser's and is a parameter. *)

Inductive CanvasOp : Type :=
| clearRect (x y w h : Q)
| drawImage (img : Image) (dx dy : Q)
| strokeStyle (color : string)
| lineWidth (v : Q)
| setLineDash (segments : list Q)
| strokeRect (x y w h : Q)
| fillStyle (color : string)
| fillRect (x y w h : Q)
| font (fontSize : Q)
| fillText (text : string) (x y : Q).

(** The decimal digits of a natural number, as a template literal prints
    it. *)
Definition natToString (n : nat) : string :=
  NilEmpty.string_of_uint (Nat.to_uint n).

Definition scaleFactor (img : Image) : Q := Qmax 1 (naturalWidth img / 1000).

(** The four handle squares of the selected box, in the order [draw]
    paints them. *)
Definition handleOps (x y w h handleSize : Q) : list CanvasOp :=
  let halfH := handleSize / 2 in
  [fillStyle "#00FF00";
   fillRect (x - halfH) (y - halfH) handleSize handleSize;
   fillRect (x + w - halfH) (y - halfH) handleSize handleSize;
   fillRect (x - halfH) (y + h - halfH) handleSize handleSize;
   fillRect (x + w - halfH) (y + h - halfH) handleSize handleSize].

(** The badge of an unselected box; the badge is measured in the font the
    context has before the label font is set. *)
Definition labelOps (measureText : option Q -> string -> Q)
    (ctxFont : option Q) (index : nat) (x y fontSize : Q) : list CanvasOp :=
  let label := ("#" ++ natToString (index + 1))%string in
  let metricsWidth := measureText ctxFont label in
  [fillStyle "#BB2528";
   fillRect x (y - (fontSize * (3 # 2))) (metricsWidth + 10)
            (fontSize * (3 # 2));
   fillStyle "white";
   font fontSize;
   fillText label (x + 5) (y - (fontSize * (2 # 5)))].

(** The callback of [boxes.forEach] in [draw]: the calls for one box and
    the font the context is left with. *)
Definition drawBox (measureText : option Q -> string -> Q)
    (canvas : Canvas) (img : Image) (selectedIndex : option nat)
    (ctxFont : option Q) (box : BoundingBox) (index : nat)
  : list CanvasOp * option Q :=
  let lineWidth_ := 4 * scaleFactor img in
  let handleSize := 20 * scaleFactor img in
  let fontSize := 24 * scaleFactor img in
  let x := normToPixel (xmin box) (canvas_width canvas) in
  let y := normToPixel (ymin box) (canvas_height canvas) in
  let w := normToPixel (xmax box - xmin box) (canvas_width canvas) in
  let h := normToPixel (ymax box - ymin box) (canvas_height canvas) in
  let isSelected :=
    match selectedIndex with
    | Some sel => Nat.eqb index sel
    | None => false
    end in
  let outline :=
    [strokeStyle (if isSelected then "#00FF00" else "#F8B229");
     lineWidth lineWidth_;
     setLineDash (if isSelected then [10; 5] else []);
     strokeRect x y w h;
     setLineDash []] in
  if isSelected
  then (outline ++ handleOps x y w h handleSize, ctxFont)
  else (outline ++ labelOps measureText ctxFont index x y fontSize,
        Some fontSize).

Fixpoint drawBoxes (measureText : option Q -> string -> Q)
    (canvas : Canvas) (img : Image) (selectedIndex : option nat)
    (ctxFont : option Q) (index : nat) (bs : list BoundingBox)
  : list CanvasOp * option Q :=
  match bs with
  | [] => ([], ctxFont)
  | box :: rest =>
      let (ops, ctxFont') :=
        drawBox measureText canvas img selectedIndex ctxFont box index in
      let (opsRest, ctxFont'') :=
        drawBoxes measureText canvas img selectedIndex ctxFont' (S index)
                  rest in
      (ops ++ opsRest, ctxFont'')
  end.

Record Frame : Type := mkFrame {
  frame_canvas : Canvas;
  frame_font : option Q;
  frame_ops : list CanvasOp
}.

(** [draw]: [None] when the canvas, the image or the context is missing.
    [ctx] is the font of the context of the canvas, if it has one.
    Setting the width of a canvas resets its context. *)
Definition draw (measureText : option Q -> string -> Q) (r : Refs)
    (ctx : option (option Q)) (s : EditorState) : option Frame :=
  match canvasRef r, imgRef r with
  | Some canvas, Some img =>
      match ctx with
      | None => None
      | Some ctxFont =>
          let resized :=
            negb (Num.seq (canvas_width canvas) (naturalWidth img)) in
          let canvas :=
            if resized
            then mkCanvas (naturalWidth img) (naturalHeight img)
                          (rect_left canvas) (rect_top canvas)
                          (rect_width canvas) (rect_height canvas)
            else canvas in
          let ctxFont := if resized then None else ctxFont in
          let (ops, ctxFont') :=
            drawBoxes measureText canvas img (selectedIndex s) ctxFont 0
                      (boxes s) in
          Some (mkFrame canvas ctxFont'
                  (clearRect 0 0 (canvas_width canvas) (canvas_height canvas)
                   :: drawImage img 0 0 :: ops))
      end
  | _, _ => None
  end.

(** The refs once a frame is drawn: the canvas is the canvas of the
    frame. *)
Definition refsAfter (r : Refs) (f : Frame) : Refs :=
  mkRefs (Some (frame_canvas f)) (imgRef r) (context2d r).

(** ** The host application

    The part of [src/App.tsx] that feeds the editor and consumes its
    output: events with their categories, cookies and votes, the handlers
    that update them and the data the vote and result views derive.  An
    image handed over by the editor stays the [Crop] it is in this
    model.  [Date.now()] is a parameter of the handlers that call it. *)

Module Baker.
Record t : Type := mk { id : string; name : string }.
End Baker.

Module Category.
Record t : Type := mk { id : string; name : string }.
End Category.

Module Cookie.
Record t : Type := mk {
  id : string;
  imageUrl : Crop;
  bakerId : option string;
  categoryId : option string;
  votes : nat
}.
End Cookie.

Module Vote.
Record t : Type := mk { categoryId : string; cookieId : string }.
End Vote.

Module EventData.
Inductive Status : Type := setup | voting | completed.
Record t : Type := mk {
  id : string;
  name : string;
  bakers : list Baker.t;
  categories : list Category.t;
  cookies : list Cookie.t;
  votes : list Vote.t;
  status : Status
}.
Definition with_bakers (e : t) (v : list Baker.t) : t :=
  mk (id e) (name e) v (categories e) (cookies e) (votes e) (status e).
Definition with_categories (e : t) (v : list Category.t) : t :=
  mk (id e) (name e) (bakers e) v (cookies e) (votes e) (status e).
Definition with_cookies (e : t) (v : list Cookie.t) : t :=
  mk (id e) (name e) (bakers e) (categories e) v (votes e) (status e).
Definition with_votes (e : t) (v : list Vote.t) : t :=
  mk (id e) (name e) (bakers e) (categories e) (cookies e) v (status e).
End EventData.

(** The decimal digits of a timestamp, as a template literal prints it. *)
Definition timeToString (n : N) : string :=
  NilEmpty.string_of_uint (N.to_uint n).

Module App.

Definition INITIAL_TEMPLATE : EventData.t :=
  EventData.mk "" "" []
    [Category.mk "cat-1" "Best Taste";
     Category.mk "cat-2" "Most Festive";
     Category.mk "cat-3" "Best Decoration"]
    [] [] EventData.setup.

(** The component state, one field per [useState]. *)
Record State : Type := mkState {
  events : list EventData.t;
  currentEventId : option string;
  view : string;
  isDarkMode : bool;
  loading : bool;
  error : option string;
  trayImage : option string;
  detectedBoxes : list BoundingBox;
  newCatName : string;
  newEventName : string;
  currentVoteCategory : nat
}.

(** The setters, with the updater functions the source passes to them,
    and [window.scrollTo]. *)
Inductive Effect : Type :=
| setEvents (updater : list EventData.t -> list EventData.t)
| setCurrentEventId (v : option string)
| setView (v : string)
| scrollTo (x y : Q)
| setTrayImage (v : option string)
| setDetectedBoxes (v : list BoundingBox)
| setNewCatName (v : string)
| setNewEventName (v : string)
| setCurrentVoteCategory (updater : nat -> nat).

Definition reduce (s : State) (e : Effect) : State :=
  match e with
  | setEvents updater =>
      mkState (updater (events s)) (currentEventId s) (view s) (isDarkMode s)
              (loading s) (error s) (trayImage s) (detectedBoxes s)
              (newCatName s) (newEventName s) (currentVoteCategory s)
  | setCurrentEventId v =>
      mkState (events s) v (view s) (isDarkMode s)
              (loading s) (error s) (trayImage s) (detectedBoxes s)
              (newCatName s) (newEventName s) (currentVoteCategory s)
  | setView v =>
      mkState (events s) (currentEventId s) v (isDarkMode s)
              (loading s) (error s) (trayImage s) (detectedBoxes s)
              (newCatName s) (newEventName s) (currentVoteCategory s)
  | scrollTo _ _ => s
  | setTrayImage v =>
      mkState (events s) (currentEventId s) (view s) (isDarkMode s)
              (loading s) (error s) v (detectedBoxes s)
              (newCatName s) (newEventName s) (currentVoteCategory s)
  | setDetectedBoxes v =>
      mkState (events s) (currentEventId s) (view s) (isDarkMode s)
              (loading s) (error s) (trayImage s) v
              (newCatName s) (newEventName s) (currentVoteCategory s)
  | setNewCatName v =>
      mkState (events s) (currentEventId s) (view s) (isDarkMode s)
              (loading s) (error s) (trayImage s) (detectedBoxes s)
              v (newEventName s) (currentVoteCategory s)
  | setNewEventName v =>
      mkState (events s) (currentEventId s) (view s) (isDarkMode s)
              (loading s) (error s) (trayImage s) (detectedBoxes s)
              (newCatName s) v (currentVoteCategory s)
  | setCurrentVoteCategory updater =>
      mkState (events s) (currentEventId s) (view s) (isDarkMode s)
              (loading s) (error s) (trayImage s) (detectedBoxes s)
              (newCatName s) (newEventName s)
              (updater (currentVoteCategory s))
  end.

Definition commit (s : State) (effs : list Effect) : State :=
  fold_left reduce effs s.

(** [e.id === currentEventId], the right side a string or [null]. *)
Definition isCurrent (currentEventId : option string) (e : EventData.t)
  : bool :=
  match currentEventId with
  | Some id => String.eqb (EventData.id e) id
  | None => false
  end.

(** The memo [currentEvent]: the first event with the current id. *)
Definition currentEvent (s : State) : option EventData.t :=
  List.find (isCurrent (currentEventId s)) (events s).

Definition navigateTo (newView : string) : list Effect :=
  [setView newView; scrollTo 0 0].

(** [!currentEventId]: [null] and the empty string are falsy. *)
Definition updateCurrentEvent (s : State)
    (updater : EventData.t -> EventData.t) : list Effect :=
  match currentEventId s with
  | None => []
  | Some id =>
      if String.eqb id "" then []
      else [setEvents (map (fun e =>
                              if isCurrent (currentEventId s) e
                              then updater e else e))]
  end.

(** The cookie made of the crop at position [idx]; [now] is the value
    of [Date.now()] in that call of the callback. *)
Definition newCookie (now : nat -> N) (defaultCategoryId : option string)
    (idx : nat) (img : Crop) : Cookie.t :=
  Cookie.mk ("cookie-" ++ timeToString (now idx) ++ "-" ++ natToString idx)
            img None defaultCategoryId 0.

Definition handleExtractCookies (now : nat -> N) (croppedImages : list Crop)
    (defaultCategoryId : option string) (s : State) : list Effect :=
  let newCookies := imap (newCookie now defaultCategoryId) croppedImages in
  updateCurrentEvent s (fun prev =>
    EventData.with_cookies prev (EventData.cookies prev ++ newCookies))
  ++ [setTrayImage None; setDetectedBoxes []].

(** The cookie counter of a vote. *)
Definition countVote (cookieId : string) (c : Cookie.t) : Cookie.t :=
  if String.eqb (Cookie.id c) cookieId
  then Cookie.mk (Cookie.id c) (Cookie.imageUrl c) (Cookie.bakerId c)
                 (Cookie.categoryId c) (Cookie.votes c + 1)
  else c.

Definition handleVote (cookieId : string) (s : State) : list Effect :=
  match currentEvent s with
  | None => []
  | Some ev =>
      match EventData.categories ev !! currentVoteCategory s with
      | None => []
      | Some cat =>
          let newVote := Vote.mk (Category.id cat) cookieId in
          updateCurrentEvent s (fun prev =>
            let updatedCookies :=
              map (countVote cookieId) (EventData.cookies prev) in
            EventData.with_votes
              (EventData.with_cookies prev updatedCookies)
              (EventData.votes prev ++ [newVote]))
          ++ (if Nat.ltb (currentVoteCategory s)
                         (length (EventData.categories ev) - 1)
              then [setCurrentVoteCategory (fun prev => prev + 1)%nat]
              else navigateTo "results")
      end
  end.

(** [handleSkip] of the vote view. *)
Definition handleSkip (s : State) : list Effect :=
  match currentEvent s with
  | None => []
  | Some ev =>
      if Nat.ltb (currentVoteCategory s)
                 (length (EventData.categories ev) - 1)
      then [setCurrentVoteCategory (fun prev => prev + 1)%nat]
      else navigateTo "results"
  end.

(** The [onAddCategory] callback handed to the editor. *)
Definition onAddCategory (now : N) (name : string) (s : State)
  : list Effect :=
  updateCurrentEvent s (fun prev =>
    EventData.with_categories prev
      (EventData.categories prev
       ++ [Category.mk ("cat-" ++ timeToString now) name])).

Definition handleAddCategory (now : N) (s : State) : list Effect :=
  if String.eqb (newCatName s) "" then []
  else
    updateCurrentEvent s (fun prev =>
      EventData.with_categories prev
        (EventData.categories prev
         ++ [Category.mk ("cat-" ++ timeToString now) (newCatName s)]))
    ++ [setNewCatName ""].

(** [handleDeleteEvent]; [confirmed] is the answer to the [confirm]
    dialog. *)
Definition handleDeleteEvent (confirmed : bool) (id : string) (s : State)
  : list Effect :=
  if confirmed
  then
    setEvents (List.filter
                 (fun ev => negb (String.eqb (EventData.id ev) id)))
    :: (match currentEventId s with
        | Some cur => if String.eqb cur id then [setCurrentEventId None]
                      else []
        | None => []
        end)
  else [].

(** The click on an event of the list. *)
Definition handleSelectEvent (isAdmin : bool) (ev : EventData.t)
  : list Effect :=
  [setCurrentEventId (Some (EventData.id ev));
   setCurrentVoteCategory (fun _ => 0%nat)]
  ++ navigateTo (if isAdmin then "admin-dashboard" else "vote").

(** The [onCancel] callback handed to the editor. *)
Definition onCancel : list Effect :=
  [setTrayImage None; setDetectedBoxes []].

(** Whether the admin dashboard shows the editor: a current event, a
    tray image that is not the empty string, and at least one box. *)
Definition showsCropReview (s : State) : bool :=
  match currentEvent s, trayImage s with
  | Some _, Some img =>
      negb (String.eqb img "") && Nat.ltb 0 (length (detectedBoxes s))
  | _, _ => false
  end.

End App.

(** ** The editor inside the host *)

Module Wiring.

(** [onConfirm={handleExtractCookies}]: the host's reaction to the
    [onConfirm] calls among the effects of an editor handler. *)
Definition deliver (now : nat -> N) (effs : list Effect) (s : App.State)
  : App.State :=
  fold_left
    (fun s call =>
       App.commit s (App.handleExtractCookies now (fst call) (snd call) s))
    (hostCalls effs) s.

(** The effect of the editor on its [categories] prop, run after a render
    in which the prop changed: [prevCategoriesLen] is the value of the
    ref, the second component its new value. *)
Definition categoriesEffect (prevCategoriesLen : nat)
    (categories : list Category.t) : list Effect * nat :=
  (if Nat.ltb prevCategoriesLen (length categories)
   then match last categories with
        | Some newCat => [setSelectedCategoryId (Category.id newCat)]
        | None => []
        end
   else [],
   length categories).

End Wiring.

(** ** Events *)

Module Events.

(** [handleCreateEvent]; [trim] is [String.prototype.trim] and [now] the
    value of [Date.now()]. *)
Definition handleCreateEvent (trim : string -> string) (now : N)
    (s : App.State) : list App.Effect :=
  if String.eqb (trim (App.newEventName s)) "" then []
  else
    let newEvent :=
      EventData.mk ("event-" ++ timeToString now) (App.newEventName s)
                   (EventData.bakers App.INITIAL_TEMPLATE)
                   (EventData.categories App.INITIAL_TEMPLATE)
                   (EventData.cookies App.INITIAL_TEMPLATE)
                   (EventData.votes App.INITIAL_TEMPLATE)
                   (EventData.status App.INITIAL_TEMPLATE) in
    [App.setEvents (fun prev => prev ++ [newEvent]);
     App.setCurrentEventId (Some (EventData.id newEvent));
     App.setNewEventName ""]
    ++ App.navigateTo "admin-dashboard".

End Events.

(** ** Voting *)

Module Voting.

(** A voter clicking one cookie after the other. *)
Definition castVotes (cookieIds : list string) (s : App.State) : App.State :=
  fold_left (fun s cookieId => App.commit s (App.handleVote cookieId s))
            cookieIds s.

(** The number of recorded votes for a cookie. *)
Definition votesFor (cookieId : string) (votes : list Vote.t) : nat :=
  length (List.filter (fun v => String.eqb (Vote.cookieId v) cookieId) votes).

(** The counter of every cookie is the number of votes recorded for
    it. *)
Definition tallyConsistent (ev : EventData.t) : Prop :=
  Forall (fun c => Cookie.votes c
                   = votesFor (Cookie.id c) (EventData.votes ev))
         (EventData.cookies ev).

(** The vote view: the category on display and the cookies to choose
    from.  The view computes the index only for an event with at least
    one category. *)
Definition safeIndex (s : App.State) (ev : EventData.t) : nat :=
  Nat.min (App.currentVoteCategory s) (length (EventData.categories ev) - 1).

Definition inCategory (cat : Category.t) (c : Cookie.t) : bool :=
  match Cookie.categoryId c with
  | Some id => String.eqb id (Category.id cat)
  | None => false
  end.

Definition eligibleCookies (ev : EventData.t) (currentCat : Category.t)
  : list Cookie.t :=
  List.filter (inCategory currentCat) (EventData.cookies ev).

End Voting.

(** ** Results *)

Module Results.

(** [Array.prototype.sort] with a comparator: the sort is stable and the
    comparators used here order by a key, so the result is the one list
    that is sorted and keeps the order of equal elements.  It is built
    here by insertion from the right. *)
Fixpoint insertSorted {A : Type} (compare : A -> A -> Z) (x : A)
    (l : list A) : list A :=
  match l with
  | [] => [x]
  | y :: rest =>
      if Z.leb (compare x y) 0 then x :: y :: rest
      else y :: insertSorted compare x rest
  end.

Definition sort {A : Type} (compare : A -> A -> Z) (l : list A) : list A :=
  fold_right (insertSorted compare) [] l.

(** The comparator [(a, b) => b.key - a.key]: greater keys first. *)
Definition byKeyDescending {A : Type} (key : A -> nat) (a b : A) : Z :=
  (Z.of_nat (key b) - Z.of_nat (key a))%Z.

Record CookieResult : Type := mkResult {
  cookie : Cookie.t;
  baker : option Baker.t;
  count : nat
}.

Definition isVoteFor (cat : Category.t) (c : Cookie.t) (v : Vote.t) : bool :=
  String.eqb (Vote.categoryId v) (Category.id cat)
  && String.eqb (Vote.cookieId v) (Cookie.id c).

Definition bakerOf (ev : EventData.t) (c : Cookie.t) : option Baker.t :=
  List.find (fun b => match Cookie.bakerId c with
                      | Some id => String.eqb (Baker.id b) id
                      | None => false
                      end)
            (EventData.bakers ev).

Definition resultOf (ev : EventData.t) (cat : Category.t) (c : Cookie.t)
  : CookieResult :=
  mkResult c (bakerOf ev c)
           (length (List.filter (isVoteFor cat c) (EventData.votes ev))).

(** [cookieResults], [winner] and [runnersUp] of the result view, for
    one category. *)
Definition cookieResults (ev : EventData.t) (cat : Category.t)
  : list CookieResult :=
  let catCookies := List.filter (Voting.inCategory cat) (EventData.cookies ev) in
  sort (byKeyDescending count) (map (resultOf ev cat) catCookies).

Definition winner (ev : EventData.t) (cat : Category.t)
  : option CookieResult :=
  match cookieResults ev cat with
  | first :: _ => if Nat.ltb 0 (count first) then Some first else None
  | [] => None
  end.

Definition runnersUp (ev : EventData.t) (cat : Category.t)
  : list CookieResult :=
  match winner ev cat with
  | Some _ => drop 1 (cookieResults ev cat)
  | None => cookieResults ev cat
  end.

End Results.

(** ** A small event *)

Module Demo.

Definition crop1 : Crop := mkCrop 0 0 10 10.
Definition crop2 : Crop := mkCrop 5 5 10 10.

Definition cats : list Category.t :=
  [Category.mk "cat-1" "Best Taste"; Category.mk "cat-2" "Most Festive"].

Definition party : EventData.t :=
  EventData.mk "event-1" "Party" [Baker.mk "baker-1" "Ann"] cats
    [Cookie.mk "cookie-1-0" crop1 (Some "baker-1"%string) (Some "cat-1"%string) 0;
     Cookie.mk "cookie-1-1" crop2 None (Some "cat-1"%string) 0]
    [] EventData.setup.

Definition other : EventData.t :=
  EventData.mk "event-2" "Other" [] cats [] [] EventData.setup.

Definition state : App.State :=
  App.mkState [other; party] (Some "event-1"%string) "vote" false false None
              (Some "data:image/jpeg;base64,AAAA"%string) [mkBox 100 100 300 300]
              "" "" 0.

End Demo.

(** ** The pointer handlers in double arithmetic

    The same handlers with a JavaScript [number] as what it is, an IEEE 754
    binary64 value: [+], [-], [*] and [/] round to nearest, and [<], [<=],
    [>=] and [===] are the comparisons of the standard, false on [NaN] and
    blind to the sign of zero.  The statements about exact values of
    coordinates are made on this model. *)

Module Double.

Import Floats.
Local Open Scope float_scope.

(** [Math.max] and [Math.min] of two numbers: [NaN] when either is [NaN],
    and [+0] counts as larger than [-0]. *)
Definition Math_max (a b : float) : float :=
  if a <? b then b
  else if b <? a then a
  else if a =? b then (if get_sign a then b else a)
  else nan.

Definition Math_min (a b : float) : float :=
  if a <? b then a
  else if b <? a then b
  else if a =? b then (if get_sign a then a else b)
  else nan.

Record BoundingBox : Type := mkBox {
  ymin : float;
  xmin : float;
  ymax : float;
  xmax : float
}.

Definition set_xmin (b : BoundingBox) (v : float) : BoundingBox :=
  mkBox (ymin b) v (ymax b) (xmax b).
Definition set_xmax (b : BoundingBox) (v : float) : BoundingBox :=
  mkBox (ymin b) (xmin b) (ymax b) v.
Definition set_ymin (b : BoundingBox) (v : float) : BoundingBox :=
  mkBox v (xmin b) (ymax b) (xmax b).
Definition set_ymax (b : BoundingBox) (v : float) : BoundingBox :=
  mkBox (ymin b) (xmin b) v (xmax b).

Record Point : Type := mkPoint { px : float; py : float }.

Record Canvas : Type := mkCanvas {
  canvas_width : float;
  canvas_height : float;
  rect_left : float;
  rect_top : float;
  rect_width : float;
  rect_height : float
}.

Record PointerEvent : Type := mkEvent {
  clientX : float;
  clientY : float
}.

(** The fields of the component state the pointer handlers read and
    write. *)
Record EditorState : Type := mkState {
  boxes : list BoundingBox;
  selectedIndex : option nat;
  dragMode : DragMode;
  dragHandle : option HandlePosition;
  isDragging : bool;
  dragStart : Point
}.

Inductive Effect : Type :=
| setBoxes (v : list BoundingBox)
| setSelectedIndex (v : option nat)
| setDragMode (v : DragMode)
| setDragHandle (v : option HandlePosition)
| setIsDragging (v : bool)
| setDragStart (v : Point).

Definition reduce (s : EditorState) (e : Effect) : EditorState :=
  match e with
  | setBoxes v =>
      mkState v (selectedIndex s) (dragMode s) (dragHandle s) (isDragging s)
              (dragStart s)
  | setSelectedIndex v =>
      mkState (boxes s) v (dragMode s) (dragHandle s) (isDragging s)
              (dragStart s)
  | setDragMode v =>
      mkState (boxes s) (selectedIndex s) v (dragHandle s) (isDragging s)
              (dragStart s)
  | setDragHandle v =>
      mkState (boxes s) (selectedIndex s) (dragMode s) v (isDragging s)
              (dragStart s)
  | setIsDragging v =>
      mkState (boxes s) (selectedIndex s) (dragMode s) (dragHandle s) v
              (dragStart s)
  | setDragStart v =>
      mkState (boxes s) (selectedIndex s) (dragMode s) (dragHandle s)
              (isDragging s) v
  end.

Definition commit (s : EditorState) (effs : list Effect) : EditorState :=
  fold_left reduce effs s.

Definition dispatch (h : EditorState -> Result (list Effect))
    (s : EditorState) : Result EditorState :=
  match h s with
  | Ok effs => Ok (commit s effs)
  | Throw => Throw
  end.

Definition normToPixel (val max : float) : float := (val / 1000) * max.
Definition pixelToNorm (val max : float) : float := (val / max) * 1000.

(** A bounding rectangle of size 0 makes the scale a division by zero:
    an infinity, or [NaN] for an empty canvas. *)
Definition getCanvasCoordinates (canvasRef : option Canvas) (e : PointerEvent)
  : Point :=
  match canvasRef with
  | None => mkPoint 0 0
  | Some canvas =>
      let scaleX := canvas_width canvas / rect_width canvas in
      let scaleY := canvas_height canvas / rect_height canvas in
      mkPoint ((clientX e - rect_left canvas) * scaleX)
              ((clientY e - rect_top canvas) * scaleY)
  end.

Definition nearCorner (x y cx cy tol : float) : bool :=
  (abs (x - cx) <? tol) && (abs (y - cy) <? tol).

Definition getHandleHit (canvasRef : option Canvas) (s : EditorState)
    (x y : float) (boxIdx : nat) : Result (option HandlePosition) :=
  match canvasRef with
  | None => Ok None
  | Some canvas =>
      match boxes s !! boxIdx with
      | None => Throw
      | Some box =>
          let bx := normToPixel (xmin box) (canvas_width canvas) in
          let by_ := normToPixel (ymin box) (canvas_height canvas) in
          let bw := normToPixel (xmax box - xmin box) (canvas_width canvas) in
          let bh := normToPixel (ymax box - ymin box) (canvas_height canvas) in
          let tol := (canvas_width canvas / 1000) * 40 in
          if nearCorner x y bx by_ tol then Ok (Some nw)
          else if nearCorner x y (bx + bw) by_ tol then Ok (Some ne)
          else if nearCorner x y bx (by_ + bh) tol then Ok (Some sw)
          else if nearCorner x y (bx + bw) (by_ + bh) tol then Ok (Some se)
          else Ok None
      end
  end.

(** The test of the body loop, [x >= bx && x <= bx + bw && y >= by &&
    y <= by + bh], on the edges as the loop computes them. *)
Definition insideBox (canvas : Canvas) (box : BoundingBox) (x y : float)
  : bool :=
  let bx := normToPixel (xmin box) (canvas_width canvas) in
  let by_ := normToPixel (ymin box) (canvas_height canvas) in
  let bw := normToPixel (xmax box - xmin box) (canvas_width canvas) in
  let bh := normToPixel (ymax box - ymin box) (canvas_height canvas) in
  (bx <=? x) && (x <=? bx + bw) && (by_ <=? y) && (y <=? by_ + bh).

Fixpoint clickedIndex (canvas : Canvas) (bs : list BoundingBox) (x y : float)
    (n : nat) : option nat :=
  match n with
  | O => None
  | S i =>
      match bs !! i with
      | Some box =>
          if insideBox canvas box x y then Some i
          else clickedIndex canvas bs x y i
      | None => clickedIndex canvas bs x y i
      end
  end.

Definition selectBody (canvas : Canvas) (s : EditorState) (x y : float)
  : list Effect :=
  match clickedIndex canvas (boxes s) x y (length (boxes s)) with
  | Some i =>
      [setSelectedIndex (Some i); setDragMode mode_move;
       setIsDragging true; setDragStart (mkPoint x y)]
  | None => [setSelectedIndex None]
  end.

Definition handleMouseDown (canvasRef : option Canvas) (e : PointerEvent)
    (s : EditorState) : Result (list Effect) :=
  let p := getCanvasCoordinates canvasRef e in
  let x := px p in
  let y := py p in
  match canvasRef with
  | None => Ok []
  | Some canvas =>
      match selectedIndex s with
      | Some sel =>
          match getHandleHit canvasRef s x y sel with
          | Throw => Throw
          | Ok (Some handle) =>
              Ok [setDragMode mode_resize; setDragHandle (Some handle);
                  setIsDragging true]
          | Ok None => Ok (selectBody canvas s x y)
          end
      | None => Ok (selectBody canvas s x y)
      end
  end.

(** [Math.max(0, Math.min(1000, v))]. *)
Definition clamp1000 (v : float) : float := Math_max 0 (Math_min 1000 v).

Definition moveBox (currentBox : BoundingBox) (dx dy : float) : BoundingBox :=
  let newBox :=
    mkBox (clamp1000 (ymin currentBox + dy))
          (clamp1000 (xmin currentBox + dx))
          (clamp1000 (ymax currentBox + dy))
          (clamp1000 (xmax currentBox + dx)) in
  let w := xmax currentBox - xmin currentBox in
  let h := ymax currentBox - ymin currentBox in
  let newBox := if xmin newBox =? 0 then set_xmax newBox w else newBox in
  let newBox :=
    if xmax newBox =? 1000 then set_xmin newBox (1000 - w) else newBox in
  let newBox := if ymin newBox =? 0 then set_ymax newBox h else newBox in
  let newBox :=
    if ymax newBox =? 1000 then set_ymin newBox (1000 - h) else newBox in
  newBox.

Definition resizeBox (currentBox : BoundingBox) (dragHandle : HandlePosition)
    (normX normY : float) : BoundingBox :=
  let name := handle_name dragHandle in
  let box := currentBox in
  let box :=
    if includes name "w" then set_xmin box (Math_min normX (xmax box - 50))
    else box in
  let box :=
    if includes name "e" then set_xmax box (Math_max normX (xmin box + 50))
    else box in
  let box :=
    if includes name "n" then set_ymin box (Math_min normY (ymax box - 50))
    else box in
  let box :=
    if includes name "s" then set_ymax box (Math_max normY (ymin box + 50))
    else box in
  box.

Definition handleMouseMove (canvasRef : option Canvas) (e : PointerEvent)
    (s : EditorState) : Result (list Effect) :=
  match isDragging s, selectedIndex s with
  | false, _ => Ok []
  | true, None => Ok []
  | true, Some sel =>
      let p := getCanvasCoordinates canvasRef e in
      let x := px p in
      let y := py p in
      match canvasRef with
      | None => Ok []
      | Some canvas =>
          let pxToNormX := fun val => pixelToNorm val (canvas_width canvas) in
          let pxToNormY := fun val => pixelToNorm val (canvas_height canvas) in
          match boxes s !! sel with
          | None =>
              match dragMode s, dragHandle s with
              | mode_move, _ => Throw
              | mode_resize, Some _ => Throw
              | _, _ => Ok [setBoxes (boxes s)]
              end
          | Some currentBox =>
              match dragMode s, dragHandle s with
              | mode_move, _ =>
                  let dx := pxToNormX (x - px (dragStart s)) in
                  let dy := pxToNormY (y - py (dragStart s)) in
                  let newBox := moveBox currentBox dx dy in
                  Ok [setDragStart (mkPoint x y);
                      setBoxes (<[sel := newBox]> (boxes s))]
              | mode_resize, Some handle =>
                  let normX := clamp1000 (pxToNormX x) in
                  let normY := clamp1000 (pxToNormY y) in
                  let box := resizeBox currentBox handle normX normY in
                  Ok [setBoxes (<[sel := box]> (boxes s))]
              | _, _ => Ok [setBoxes (boxes s)]
              end
          end
      end
  end.

(** The rational a double stands for; none for [NaN] and the
    infinities. *)
Definition exact (f : float) : option Q :=
  match Prim2SF f with
  | S754_zero _ => Some 0%Q
  | S754_finite s m e =>
      Some (Qred ((if s then (-1)%Q else 1%Q) * inject_Z (Zpos m)
                  * Qpower 2 e))
  | _ => None
  end.

(** *** Scenes in double arithmetic *)

(** A canvas shown at its own size at the page origin, so that client
    coordinates are canvas pixels: 1000 by 1000, 1920 by 1080 and 3000 by
    2000 pixels. *)
Definition canvas1000 : Canvas := mkCanvas 1000 1000 0 0 1000 1000.
Definition canvas1920 : Canvas := mkCanvas 1920 1080 0 0 1920 1080.
Definition canvas3000 : Canvas := mkCanvas 3000 2000 0 0 3000 2000.

(** One box 200 units wide at [xmin = 50], grabbed at pixel (100, 100). *)
Definition movingState : EditorState :=
  mkState [mkBox 100 50 300 250] (Some 0%nat) mode_move None true
          (mkPoint 100 100).

(** The box of [handleAddBox], 200 units wide and high in the middle of
    the space, grabbed at pixel (100, 100). *)
Definition freeMoveState : EditorState :=
  mkState [mkBox 400 400 600 600] (Some 0%nat) mode_move None true
          (mkPoint 100 100).

(** A box against the right boundary whose left edge is the double
    400.5208333333333, grabbed at pixel (100, 100). *)
Definition wallBox : BoundingBox := mkBox 400 0x1.9085555555555p+8 600 1000.

Definition wallState : EditorState :=
  mkState [wallBox] (Some 0%nat) mode_move None true (mkPoint 100 100).

(** The box [xmin = 400, ymin = 400] of the resize scenario, held by its
    [se] handle. *)
Definition resizingState : EditorState :=
  mkState [mkBox 400 400 600 600] (Some 0%nat) mode_resize (Some se) true
          (mkPoint 0 0).

(** A box whose left edge is the double 463.0208333333333, held by its
    [se] handle. *)
Definition floorBox : BoundingBox := mkBox 400 0x1.cf05555555555p+8 600 600.

Definition floorState : EditorState :=
  mkState [floorBox] (Some 0%nat) mode_resize (Some se) true (mkPoint 0 0).

(** Two overlapping boxes, A added before B, nothing selected, and the
    same with A selected. *)
Definition boxA : BoundingBox := mkBox 100 100 500 500.
Definition boxB : BoundingBox := mkBox 300 300 700 700.

Definition twoBoxesState : EditorState :=
  mkState [boxA; boxB] None mode_none None false (mkPoint 0 0).

Definition twoBoxesSelectedA : EditorState :=
  mkState [boxA; boxB] (Some 0%nat) mode_none None false (mkPoint 0 0).

(** One box with [xmin = 21], nothing selected, and a pointer-down at
    pixel (63, 400) of the 3000 pixel canvas. *)
Definition edgeBox : BoundingBox := mkBox 100 21 300 221.

Definition edgeState : EditorState :=
  mkState [edgeBox] None mode_none None false (mkPoint 0 0).

Definition edgeEvent : PointerEvent := mkEvent 63 400.

(** *** The move, resize and hit-test rules as the properties state them *)

(** [v] is [raw] clamped to the normalized space: 0 for a value at or
    below 0, 1000 for a value at or above 1000, the value itself in
    between, and [NaN] stays [NaN]. *)
Definition clamped (v raw : float) : Prop :=
  ((raw <=? 0) = true -> v = 0) /\
  ((1000 <=? raw) = true -> v = 1000) /\
  ((0 <? raw) = true -> (raw <? 1000) = true -> v = raw) /\
  ((raw =? raw) = false -> v = nan).

(** A dragged high edge ([xmax], [ymax]): at the pointer when that is
    above the floor, at the floor when the pointer is below it, and never
    below the floor.  The floor is the double the code computes, the
    opposite edge plus 50. *)
Definition highEdge (edge pointer floor : float) : Prop :=
  ((floor <? pointer) = true -> edge = pointer) /\
  ((pointer <? floor) = true -> edge = floor) /\
  ((pointer =? floor) = true -> (edge =? floor) = true) /\
  (edge <? floor) = false /\
  ((pointer =? pointer) = true -> (floor =? floor) = true ->
   (floor <=? edge) = true).

(** A dragged low edge ([xmin], [ymin]), with the opposite edge minus 50
    as the floor. *)
Definition lowEdge (edge pointer floor : float) : Prop :=
  ((pointer <? floor) = true -> edge = pointer) /\
  ((floor <? pointer) = true -> edge = floor) /\
  ((pointer =? floor) = true -> (edge =? floor) = true) /\
  (floor <? edge) = false /\
  ((pointer =? pointer) = true -> (floor =? floor) = true ->
   (edge <=? floor) = true).

(** The two edges [lo'], [hi'] of one axis after a move by [d] of a box
    with the edges [lo], [hi].  Stopped at 0 the box is put at
    [0, hi - lo], which keeps the size [hi - lo]; stopped at 1000 it is put
    at [1000 - (hi - lo), 1000]; otherwise both edges are the clamped sums,
    the sums themselves when they are inside the space.  Every sum and
    difference is the rounded one. *)
Definition movedEdges (lo hi d lo' hi' : float) : Prop :=
  ((lo + d <=? 0) = true ->
   lo' = 0 /\ hi' = hi - lo /\ hi' - lo' = hi - lo) /\
  ((0 <? lo + d) = true -> (1000 <=? hi + d) = true ->
   lo' = 1000 - (hi - lo) /\ hi' = 1000) /\
  ((0 <? lo + d) = true -> (hi + d <? 1000) = true ->
   lo' = clamp1000 (lo + d) /\ hi' = clamp1000 (hi + d)) /\
  ((0 <? lo + d) = true -> (lo + d <? 1000) = true ->
   (0 <? hi + d) = true -> (hi + d <? 1000) = true ->
   lo' = lo + d /\ hi' = hi + d).

(** The tolerance of a handle, in canvas pixels. *)
Definition handleTolerance (canvas : Canvas) : float :=
  (canvas_width canvas / 1000) * 40.

(** The pixel rectangle of a box as the handlers compute it: the left and
    top edges from [xmin] and [ymin], the right and bottom edges by adding
    the pixel width and height. *)
Definition pixelLeft (canvas : Canvas) (box : BoundingBox) : float :=
  normToPixel (xmin box) (canvas_width canvas).
Definition pixelTop (canvas : Canvas) (box : BoundingBox) : float :=
  normToPixel (ymin box) (canvas_height canvas).
Definition pixelRight (canvas : Canvas) (box : BoundingBox) : float :=
  pixelLeft canvas box
  + normToPixel (xmax box - xmin box) (canvas_width canvas).
Definition pixelBottom (canvas : Canvas) (box : BoundingBox) : float :=
  pixelTop canvas box
  + normToPixel (ymax box - ymin box) (canvas_height canvas).

(** The pixel position of the corner a handle sits on. *)
Definition handleCorner (canvas : Canvas) (box : BoundingBox)
    (h : HandlePosition) : Point :=
  match h with
  | nw => mkPoint (pixelLeft canvas box) (pixelTop canvas box)
  | ne => mkPoint (pixelRight canvas box) (pixelTop canvas box)
  | sw => mkPoint (pixelLeft canvas box) (pixelBottom canvas box)
  | se => mkPoint (pixelRight canvas box) (pixelBottom canvas box)
  end.

(** The pointer is strictly within the tolerance of the corner of [h] on
    both axes. *)
Definition withinTolerance (canvas : Canvas) (box : BoundingBox)
    (x y : float) (h : HandlePosition) : bool :=
  (abs (x - px (handleCorner canvas box h)) <? handleTolerance canvas)
  && (abs (y - py (handleCorner canvas box h)) <? handleTolerance canvas).

Definition firstHandleWithin (canvas : Canvas) (box : BoundingBox)
    (x y : float) : option HandlePosition :=
  List.find (withinTolerance canvas box x y) handleOrder.

(** The pointer is in the computed pixel rectangle, bounds included. *)
Definition inPixelRect (canvas : Canvas) (box : BoundingBox) (x y : float)
  : Prop :=
  (pixelLeft canvas box <=? x) = true /\
  (x <=? pixelRight canvas box) = true /\
  (pixelTop canvas box <=? y) = true /\
  (y <=? pixelBottom canvas box) = true.

(** The exact distance from [lo] to [hi]. *)
Definition exactSpan (lo hi : float) : option Q :=
  match exact lo, exact hi with
  | Some l, Some h => Some (Qred (h - l)%Q)
  | _, _ => None
  end.

End Double.

(** The exact box, canvas and pointer event behind their doubles. *)
Definition exactBox (b : Double.BoundingBox) : option BoundingBox :=
  match Double.exact (Double.ymin b), Double.exact (Double.xmin b),
        Double.exact (Double.ymax b), Double.exact (Double.xmax b) with
  | Some t, Some l, Some b', Some r => Some (mkBox t l b' r)
  | _, _, _, _ => None
  end.

Definition exactCanvas (c : Double.Canvas) : option Canvas :=
  match Double.exact (Double.canvas_width c),
        Double.exact (Double.canvas_height c),
        Double.exact (Double.rect_left c), Double.exact (Double.rect_top c),
        Double.exact (Double.rect_width c),
        Double.exact (Double.rect_height c) with
  | Some w, Some h, Some l, Some t, Some rw, Some rh =>
      Some (mkCanvas w h l t rw rh)
  | _, _, _, _, _, _ => None
  end.

Definition exactEvent (e : Double.PointerEvent) : option PointerEvent :=
  match Double.exact (Double.clientX e), Double.exact (Double.clientY e) with
  | Some x, Some y => Some (mkEvent x y)
  | _, _ => None
  end.

(** * Properties *)

(** ** Facts on numbers *)

Module NumFacts.

Lemma ltb_lt a b : Num.ltb a b = true <-> a < b.
Proof.
  unfold Num.ltb. rewrite negb_true_iff. split; intros H.
  - apply Qnot_le_lt. intros Hle. apply Qle_bool_iff in Hle. congruence.
  - destruct (Qle_bool b a) eqn:E; [|reflexivity].
    apply Qle_bool_iff in E. lra.
Qed.

Lemma ltb_ge a b : Num.ltb a b = false <-> b <= a.
Proof.
  unfold Num.ltb. rewrite negb_false_iff. apply Qle_bool_iff.
Qed.

Lemma leb_le a b : Num.leb a b = true <-> a <= b.
Proof. apply Qle_bool_iff. Qed.

Lemma geb_ge a b : Num.geb a b = true <-> b <= a.
Proof. apply Qle_bool_iff. Qed.

Lemma seq_eq a b : Num.seq a b = true <-> a == b.
Proof. apply Qeq_bool_iff. Qed.

Lemma seq_neq a b : Num.seq a b = false <-> ~ a == b.
Proof.
  unfold Num.seq. split; intros H.
  - now apply Qeq_bool_neq.
  - destruct (Qeq_bool a b) eqn:E; [|reflexivity].
    apply Qeq_bool_iff in E. contradiction.
Qed.

End NumFacts.

(** Case analysis on every [===] test in the goal, each case recorded as
    an equation or a disequation of numbers. *)
Ltac seq_cases :=
  repeat match goal with
  | |- context [Num.seq ?a ?b] =>
      let E := fresh "E" in
      destruct (Num.seq a b) eqn:E;
      [apply NumFacts.seq_eq in E | apply NumFacts.seq_neq in E];
      cbn [xmin xmax ymin ymax set_xmin set_xmax set_ymin set_ymax] in *
  end.

(** ** Moving *)

(** In exact arithmetic a move keeps the width and the height of a box
    whose edges are in order. *)
Section Move.

Variables (b : BoundingBox) (dx dy : Q).

Lemma moveBox_width :
  xmin b <= xmax b ->
  xmax (moveBox b dx dy) - xmin (moveBox b dx dy) == xmax b - xmin b.
Proof.
  intros Hw. unfold moveBox, clamp1000.
  cbn [xmin xmax ymin ymax set_xmin set_xmax set_ymin set_ymax].
  seq_cases; minmax_cases; lra.
Qed.

Lemma moveBox_height :
  ymin b <= ymax b ->
  ymax (moveBox b dx dy) - ymin (moveBox b dx dy) == ymax b - ymin b.
Proof.
  intros Hh. unfold moveBox, clamp1000.
  cbn [xmin xmax ymin ymax set_xmin set_xmax set_ymin set_ymax].
  seq_cases; minmax_cases; lra.
Qed.

End Move.

(** ** Resizing *)

Lemma clamp1000_clamped (raw : Q) : clamped_of (clamp1000 raw) raw.
Proof.
  unfold clamped_of, clamp1000. minmax_cases. lra.
Qed.

Section Resize.

Variables (b : BoundingBox) (normX normY : Q).

Lemma resizeBox_nw :
  resizeBox b nw normX normY =
  mkBox (Qmin normY (ymax b - 50)) (Qmin normX (xmax b - 50))
        (ymax b) (xmax b).
Proof. reflexivity. Qed.

Lemma resizeBox_ne :
  resizeBox b ne normX normY =
  mkBox (Qmin normY (ymax b - 50)) (xmin b)
        (ymax b) (Qmax normX (xmin b + 50)).
Proof. reflexivity. Qed.

Lemma resizeBox_sw :
  resizeBox b sw normX normY =
  mkBox (ymin b) (Qmin normX (xmax b - 50))
        (Qmax normY (ymin b + 50)) (xmax b).
Proof. reflexivity. Qed.

Lemma resizeBox_se :
  resizeBox b se normX normY =
  mkBox (ymin b) (xmin b)
        (Qmax normY (ymin b + 50)) (Qmax normX (xmin b + 50)).
Proof. reflexivity. Qed.

(** After a resize step the box is at least 50 units wide and high. *)
Lemma resizeBox_min_size (h : HandlePosition) :
  let b' := resizeBox b h normX normY in
  50 <= xmax b' - xmin b' /\ 50 <= ymax b' - ymin b'.
Proof.
  destruct h; cbv zeta;
    rewrite ?resizeBox_nw, ?resizeBox_ne, ?resizeBox_sw, ?resizeBox_se;
    cbn [xmin xmax ymin ymax]; minmax_cases; lra.
Qed.

End Resize.

(** What a move event does to the state while a box is being resized. *)
Lemma handleMouseMove_resize (r : Refs) (canvas : Canvas) (e : PointerEvent)
    (s : EditorState) (i : nat) (b : BoundingBox) (h : HandlePosition) :
  canvasRef r = Some canvas ->
  isDragging s = true -> dragMode s = mode_resize ->
  dragHandle s = Some h ->
  selectedIndex s = Some i -> boxes s !! i = Some b ->
  let p := getCanvasCoordinates r e in
  let normX := clamp1000 (pixelToNorm (px p) (canvas_width canvas)) in
  let normY := clamp1000 (pixelToNorm (py p) (canvas_height canvas)) in
  dispatch (handleMouseMove r e) s =
    Ok (mkState (<[i := resizeBox b h normX normY]> (boxes s))
                (selectedIndex s) (selectedCategoryId s) (dragMode s)
                (dragHandle s) (isDragging s) (dragStart s)).
Proof.
  intros Hc Hd Hm Hh Hs Hb. unfold dispatch, handleMouseMove.
  rewrite Hd, Hs, Hc, Hb, Hm, Hh. cbn. rewrite Hd, Hs, Hm, Hh.
  reflexivity.
Qed.

(** ** Hit testing *)

Lemma normToPixel_span (lo hi dim : Q) :
  normToPixel lo dim + normToPixel (hi - lo) dim == normToPixel hi dim.
Proof. unfold normToPixel. field. Qed.

Lemma nearCorner_ext (x y cx cy cx' cy' tol : Q) :
  cx == cx' -> cy == cy' ->
  nearCorner x y cx cy tol = nearCorner x y cx' cy' tol.
Proof.
  intros Hx Hy. unfold nearCorner, Num.ltb. now rewrite Hx, Hy.
Qed.

(** The four tests of [getHandleHit] are the tolerance tests at the four
    corners. *)
Lemma nearCorner_handle (canvas : Canvas) (box : BoundingBox) (x y : Q)
    (h : HandlePosition) :
  let bx := normToPixel (xmin box) (canvas_width canvas) in
  let by_ := normToPixel (ymin box) (canvas_height canvas) in
  let bw := normToPixel (xmax box - xmin box) (canvas_width canvas) in
  let bh := normToPixel (ymax box - ymin box) (canvas_height canvas) in
  let tol := (canvas_width canvas / 1000) * 40 in
  withinTolerance canvas box x y h =
  match h with
  | nw => nearCorner x y bx by_ tol
  | ne => nearCorner x y (bx + bw) by_ tol
  | sw => nearCorner x y bx (by_ + bh) tol
  | se => nearCorner x y (bx + bw) (by_ + bh) tol
  end.
Proof.
  cbv zeta. unfold withinTolerance, handleTolerance.
  destruct h; cbn [handleCorner px py]; fold (nearCorner x y);
    apply nearCorner_ext;
    try reflexivity; symmetry; apply normToPixel_span.
Qed.

Lemma getHandleHit_first (r : Refs) (canvas : Canvas) (s : EditorState)
    (x y : Q) (i : nat) (box : BoundingBox) :
  canvasRef r = Some canvas -> boxes s !! i = Some box ->
  getHandleHit r s x y i = Ok (firstHandleWithin canvas box x y).
Proof.
  intros Hc Hb. unfold getHandleHit. rewrite Hc, Hb. cbv zeta.
  unfold firstHandleWithin, handleOrder. cbn [List.find].
  pose proof (nearCorner_handle canvas box x y) as Hn. cbv zeta in Hn.
  rewrite (Hn nw), (Hn ne), (Hn sw), (Hn se).
  repeat match goal with |- context [if ?c then _ else _] => destruct c end;
    reflexivity.
Qed.


Lemma firstHandleWithin_none (canvas : Canvas) (box : BoundingBox) (x y : Q) :
  firstHandleWithin canvas box x y = None <->
  forall h, withinTolerance canvas box x y h = false.
Proof.
  unfold firstHandleWithin, handleOrder. cbn [List.find].
  split.
  - intros H h.
    destruct (withinTolerance canvas box x y nw) eqn:Enw; [discriminate|].
    destruct (withinTolerance canvas box x y ne) eqn:Ene; [discriminate|].
    destruct (withinTolerance canvas box x y sw) eqn:Esw; [discriminate|].
    destruct (withinTolerance canvas box x y se) eqn:Ese; [discriminate|].
    destruct h; assumption.
  - intros H. now rewrite !H.
Qed.



(** In the middle of a box of the minimum size all four handles are within
    tolerance, and the test answers [nw]. *)
Example handle_overlap_run :
  (forall h, withinTolerance canvas1000 smallBox 425 425 h = true) /\
  getHandleHit refs1000 smallBoxState 425 425 0 = Ok (Some nw).
Proof.
  split; [intros []; vm_compute; reflexivity | vm_compute; reflexivity].
Qed.

(** ** Pointer down *)

Lemma insideBox_inPixelRect (canvas : Canvas) (box : BoundingBox) (x y : Q) :
  insideBox canvas box x y = true <-> inPixelRect canvas box x y.
Proof.
  unfold insideBox, inPixelRect. cbv zeta.
  rewrite !andb_true_iff, !NumFacts.geb_ge, !NumFacts.leb_le.
  rewrite !normToPixel_span. tauto.
Qed.

Lemma insideBox_not_inPixelRect (canvas : Canvas) (box : BoundingBox)
    (x y : Q) :
  insideBox canvas box x y = false <-> ~ inPixelRect canvas box x y.
Proof.
  rewrite <- insideBox_inPixelRect.
  destruct (insideBox canvas box x y); split; congruence.
Qed.

(** The body loop returns the highest index below [n] whose box contains
    the pointer. *)
Lemma clickedIndex_topmost (canvas : Canvas) (bs : list BoundingBox)
    (x y : Q) (n : nat) :
  (n <= length bs)%nat ->
  match clickedIndex canvas bs x y n with
  | Some k =>
      (k < n)%nat /\
      (exists box, bs !! k = Some box /\ inPixelRect canvas box x y) /\
      (forall j box', (k < j < n)%nat -> bs !! j = Some box' ->
                      ~ inPixelRect canvas box' x y)
  | None =>
      forall j box', (j < n)%nat -> bs !! j = Some box' ->
                     ~ inPixelRect canvas box' x y
  end.
Proof.
  induction n as [|i IH]; intros Hn; cbn [clickedIndex].
  - intros j box' Hj. lia.
  - destruct (lookup_lt_is_Some_2 bs i) as [box Hbox]; [lia|].
    rewrite Hbox. destruct (insideBox canvas box x y) eqn:Ein.
    + split; [lia|]. split.
      * exists box. split; [exact Hbox|]. now apply insideBox_inPixelRect.
      * intros j box' Hj. lia.
    + specialize (IH ltac:(lia)).
      destruct (clickedIndex canvas bs x y i) as [k|].
      * destruct IH as (Hk & Hin & Habove). split; [lia|].
        split; [exact Hin|].
        intros j box' Hj Hjb. destruct (Nat.eq_dec j i) as [->|Hne].
        -- rewrite Hbox in Hjb. injection Hjb as <-.
           now apply insideBox_not_inPixelRect.
        -- apply (Habove j box'); [lia | exact Hjb].
      * intros j box' Hj Hjb. destruct (Nat.eq_dec j i) as [->|Hne].
        -- rewrite Hbox in Hjb. injection Hjb as <-.
           now apply insideBox_not_inPixelRect.
        -- apply (IH j box'); [lia | exact Hjb].
Qed.

Lemma handleMouseDown_handle (r : Refs) (canvas : Canvas) (e : PointerEvent)
    (s : EditorState) (i : nat) (box : BoundingBox) (h : HandlePosition) :
  canvasRef r = Some canvas ->
  selectedIndex s = Some i -> boxes s !! i = Some box ->
  firstHandleWithin canvas box (px (getCanvasCoordinates r e))
                    (py (getCanvasCoordinates r e)) = Some h ->
  dispatch (handleMouseDown r e) s =
    Ok (mkState (boxes s) (selectedIndex s) (selectedCategoryId s)
                mode_resize (Some h) true (dragStart s)).
Proof.
  intros Hc Hs Hb Hh. unfold dispatch, handleMouseDown. cbv zeta.
  rewrite Hc, Hs.
  rewrite (getHandleHit_first r canvas s _ _ i box Hc Hb), Hh.
  cbn. rewrite Hs. reflexivity.
Qed.

(** Closed inequalities between numbers, by evaluation. *)
Ltac num_eval := vm_compute; first [reflexivity | discriminate | easy].

(** ** Export *)

Lemma forEach_push (img : Image) (bs : list BoundingBox) (acc : list Crop) :
  fold_left (fun cropped box => cropped ++ [cropOf img box]) bs acc =
  acc ++ map (cropOf img) bs.
Proof.
  revert acc. induction bs as [|box bs IH]; intros acc; cbn.
  - now rewrite app_nil_r.
  - rewrite IH, <- app_assoc. reflexivity.
Qed.

(** With an image and a context, the export makes one [onConfirm] call:
    one crop per box, in the order of the collection. *)
Lemma handleProcess_crops (r : Refs) (img : Image) (s : EditorState) :
  imgRef r = Some img -> context2d r = true ->
  handleProcess r s =
    Ok [onConfirm (map (cropOf img) (boxes s))
                  (orNull (selectedCategoryId s))].
Proof.
  intros Hi Hc. unfold handleProcess. rewrite Hi, Hc. cbn [negb].
  rewrite forEach_push. reflexivity.
Qed.

(** Every crop lies in the image when the box lies in the normalized
    space. *)
Lemma cropOf_in_image (img : Image) (box : BoundingBox) :
  0 <= naturalWidth img -> 0 <= naturalHeight img ->
  xmin box <= 1000 -> ymin box <= 1000 ->
  let c := cropOf img box in
  0 <= crop_sx c /\ crop_sx c + crop_sw c <= naturalWidth img /\
  0 <= crop_sy c /\ crop_sy c + crop_sh c <= naturalHeight img.
Proof.
  intros HW HH Hx Hy. cbv zeta. unfold cropOf.
  cbn [crop_sx crop_sy crop_sw crop_sh].
  minmax_cases. lra.
Qed.

(** Away from the left and top edges of the image the crop is the padded
    rectangle cut to the image. *)
Lemma cropOf_interior (img : Image) (box : BoundingBox) :
  exportPadding img <= normToPixel (xmin box) (naturalWidth img) ->
  exportPadding img <= normToPixel (ymin box) (naturalHeight img) ->
  crop_eq (cropOf img box) (paddedClampedRegion img box).
Proof.
  unfold crop_eq, cropOf, paddedClampedRegion, exportPadding, normToPixel.
  cbn [crop_sx crop_sy crop_sw crop_sh]. intros Hx Hy.
  set (W := naturalWidth img) in *. set (H := naturalHeight img) in *.
  assert (Ew : (xmax box - xmin box) / 1000 * W ==
               xmax box / 1000 * W - xmin box / 1000 * W) by field.
  assert (Eh : (ymax box - ymin box) / 1000 * H ==
               ymax box / 1000 * H - ymin box / 1000 * H) by field.
  rewrite Ew, Eh.
  generalize dependent (xmax box / 1000 * W).
  generalize dependent (ymax box / 1000 * H).
  generalize dependent (xmin box / 1000 * W).
  generalize dependent (ymin box / 1000 * H).
  generalize dependent (W / 100).
  intros. minmax_cases. lra.
Qed.

(** C1, at a box in the top left corner of the image.  The export of a
    1000 by 1000 image with the box [0, 200] x [0, 200] emits the crop
    [0, 240] x [0, 240]: the origin is cut at 0 and the size stays the box
    size plus twice the padding.  The padded rectangle cut to the image is
    [0, 220] x [0, 220]. *)
Theorem export_crop_at_corner :
  exists c,
    handleProcess refs1000 cornerState = Ok [onConfirm [c] None] /\
    crop_eq c (mkCrop 0 0 240 240) /\
    crop_eq (paddedClampedRegion image1000 (mkBox 0 0 200 200))
            (mkCrop 0 0 220 220) /\
    ~ crop_eq c (paddedClampedRegion image1000 (mkBox 0 0 200 200)).
Proof.
  eexists. split; [reflexivity|].
  split; [repeat split; num_eval|].
  split; [repeat split; num_eval|].
  intros (_ & _ & Hw & _). revert Hw. num_eval.
Qed.

(** The crops come out in the order of the box collection, one per box. *)
Lemma export_order (r : Refs) (img : Image) (s : EditorState) :
  imgRef r = Some img -> context2d r = true ->
  exists crops,
    hostCalls (match handleProcess r s with Ok effs => effs | Throw => [] end)
      = [(crops, orNull (selectedCategoryId s))] /\
    length crops = length (boxes s) /\
    forall i box, boxes s !! i = Some box ->
                  crops !! i = Some (cropOf img box).
Proof.
  intros Hi Hc. rewrite (handleProcess_crops r img s Hi Hc).
  eexists. split; [reflexivity|]. split; [apply length_map|].
  intros i box Hb. rewrite list_lookup_fmap, Hb. reflexivity.
Qed.

(** C2, amended.  For a 1000 by 1000 image with the single box
    [{xmin:100, ymin:100, xmax:300, ymax:300}], confirming with no category
    selected makes one [onConfirm] call with exactly one crop, whose pixel
    region is x in [80, 320] and y in [80, 320] (padding 20), and with the
    category id null. *)
Theorem scenario_export :
  exportPadding image1000 == 20 /\
  exists c,
    handleProcess refs1000 scenarioState = Ok [onConfirm [c] None] /\
    crop_sx c == 80 /\ crop_sx c + crop_sw c == 320 /\
    crop_sy c == 80 /\ crop_sy c + crop_sh c == 320.
Proof.
  split; [num_eval|].
  eexists. split; [reflexivity|]. repeat split; num_eval.
Qed.

(** C2 as stated fails: the crop of the scenario does not start within 10
    pixels of 90, nor end within 10 pixels of 310, on either axis. *)
Lemma scenario_export_counterexample :
  ~ exists c d,
      handleProcess refs1000 scenarioState = Ok [onConfirm [c] d] /\
      Qabs (crop_sx c - 90) < 10 /\ Qabs (crop_sx c + crop_sw c - 310) < 10 /\
      Qabs (crop_sy c - 90) < 10 /\ Qabs (crop_sy c + crop_sh c - 310) < 10.
Proof.
  intros (c & d & Hrun & Hx & _).
  vm_compute in Hrun. injection Hrun as <- _.
  revert Hx. num_eval.
Qed.

(** C8, amended.  Without an image at confirm time the export returns at
    once and silently: the handler ends normally and has done nothing, so
    no error is raised or reported, no crop is made, [onConfirm] is not
    called, with an empty sequence or any other, and the state of the next
    render is the state before. *)
Theorem export_without_image_returns_silently (r : Refs) (s : EditorState) :
  imgRef r = None ->
  handleProcess r s = Ok [] /\
  (forall effs, handleProcess r s = Ok effs ->
     hostCalls effs = [] /\ forall crops d, ~ In (onConfirm crops d) effs) /\
  step r Process s = Ok s.
Proof.
  intros Hi.
  assert (E : handleProcess r s = Ok [])
    by (unfold handleProcess; now rewrite Hi).
  split; [exact E|]. split.
  - intros effs He. rewrite E in He. injection He as <-.
    split; [reflexivity | intros crops d []].
  - unfold step, dispatch. cbn [handler]. rewrite E. reflexivity.
Qed.

Lemma export_without_image_returns_silently_witness :
  handleProcess refsNoImage scenarioState = Ok [] /\
  (forall effs, handleProcess refsNoImage scenarioState = Ok effs ->
     hostCalls effs = [] /\ forall crops d, ~ In (onConfirm crops d) effs) /\
  step refsNoImage Process scenarioState = Ok scenarioState.
Proof.
  apply (export_without_image_returns_silently refsNoImage scenarioState).
  reflexivity.
Defined.

(** C8 as stated fails: without an image the export does not fail.  The
    handler neither throws nor issues any effect, so nothing tells the
    host or the user that no export took place. *)
Lemma export_without_image_counterexample :
  ~ (forall r s,
       imgRef r = None ->
       handleProcess r s = Throw \/
       exists effs e, handleProcess r s = Ok effs /\ In e effs).
Proof.
  intros H.
  destruct (H refsNoImage scenarioState eq_refl) as [H1|(effs & e & H1 & H2)].
  - discriminate.
  - injection H1 as <-. destruct H2.
Qed.

Lemma commit_confirm_only (s : EditorState) (effs : list Effect) :
  (forall e, In e effs -> exists crops d, e = onConfirm crops d) ->
  commit s effs = s.
Proof.
  unfold commit. induction effs as [|e effs IH]; intros Hall; cbn.
  - reflexivity.
  - destruct (Hall e (or_introl eq_refl)) as (crops & d & ->). cbn.
    apply IH. intros e' He'. apply Hall. now right.
Qed.

(** The effects of an export are calls of [onConfirm], at most one. *)
Lemma handleProcess_confirm_only (r : Refs) (s : EditorState) :
  exists effs,
    handleProcess r s = Ok effs /\
    (forall e, In e effs -> exists crops d, e = onConfirm crops d) /\
    (length effs <= 1)%nat.
Proof.
  unfold handleProcess. destruct (imgRef r) as [img|].
  - destruct (context2d r); cbn [negb].
    + eexists. split; [reflexivity|]. split; [|cbn; lia].
      intros e [<-|[]]. eauto.
    + exists []. split; [reflexivity|]. split; [intros e []|cbn; lia].
  - exists []. split; [reflexivity|]. split; [intros e []|cbn; lia].
Qed.

(** C9. The export only reads the editor state.  Whatever the refs and
    the state, the effects of [handleProcess] are calls of [onConfirm], at
    most one, and committing them leaves the box collection, the selection,
    the chosen category and every other field as they were. *)
Theorem export_read_only (r : Refs) (s : EditorState) :
  exists effs,
    handleProcess r s = Ok effs /\
    (forall e, In e effs -> exists crops d, e = onConfirm crops d) /\
    (length effs <= 1)%nat /\
    dispatch (handleProcess r) s = Ok s /\
    boxes (commit s effs) = boxes s /\
    selectedIndex (commit s effs) = selectedIndex s /\
    selectedCategoryId (commit s effs) = selectedCategoryId s.
Proof.
  destruct (handleProcess_confirm_only r s) as (effs & Hrun & Hall & Hlen).
  pose proof (commit_confirm_only s effs Hall) as Hc.
  exists effs. split; [exact Hrun|]. split; [exact Hall|].
  split; [exact Hlen|]. split.
  - unfold dispatch. rewrite Hrun, Hc. reflexivity.
  - rewrite Hc. repeat split.
Qed.

(** ** Seeding *)

(** C4, amended.  When the initial box set is seeded from the detector,
    every input box, degenerate or not, is stored as it is and in the
    detector's order: it is neither clamped nor rejected, and seeding does
    not fail. *)
Theorem seed_stores_boxes_unchanged (detectedBoxes : list BoundingBox) :
  boxes (initialState detectedBoxes) = detectedBoxes /\
  exists s',
    dispatch (detectedBoxesEffect detectedBoxes) (initialState detectedBoxes)
      = Ok s' /\
    boxes s' = detectedBoxes.
Proof.
  split; [reflexivity|]. eexists. split; reflexivity.
Qed.

(** C4 as stated fails: an inverted, out-of-range box handed over by the
    detector is in the collection after seeding, and it is not in the valid
    range. *)
Lemma seed_counterexample :
  exists s',
    dispatch (detectedBoxesEffect [degenerateBox])
             (initialState [degenerateBox]) = Ok s' /\
    ~ (forall b, In b (boxes s') -> wellFormed b).
Proof.
  eexists. split; [reflexivity|]. cbn [boxes commit fold_left reduce].
  intros Hall. destruct (Hall degenerateBox (or_introl eq_refl)) as (_ & H & _).
  revert H. num_eval.
Qed.

(** ** The box invariant *)


(** A move alone keeps any well-formed box well-formed, whatever its
    size. *)
Lemma moveBox_wellFormed (b : BoundingBox) (dx dy : Q) :
  wellFormed b -> wellFormed (moveBox b dx dy).
Proof.
  unfold wellFormed, moveBox, clamp1000.
  cbn [xmin xmax ymin ymax set_xmin set_xmax set_ymin set_ymax].
  intros Hb. seq_cases; minmax_cases; lra.
Qed.


Lemma filterIndexNe_Forall {A : Type} (P : A -> Prop) (sel i : nat)
    (l : list A) :
  Forall P l -> Forall P (filterIndexNe sel i l).
Proof.
  intros Hl. revert i. induction Hl as [|a l Ha Hl IH]; intros i; cbn.
  - constructor.
  - destruct (Nat.eqb i sel); [apply IH | constructor; [exact Ha | apply IH]].
Qed.





(** The invariant of roomy boxes gives the ordering and the range of every
    box of the collection. *)
Lemma editorInv_wellFormed (s : EditorState) (i : nat) (b : BoundingBox) :
  editorInv s -> boxes s !! i = Some b -> wellFormed b.
Proof.
  intros [Hall _] Hb. apply (Forall_lookup_1 _ _ _ _ Hall Hb).
Qed.

(** C3, at a well-formed box narrower than 50 units.  The detector hands
    over the box [0, 30] x [0, 30]; the user selects it, takes its [nw]
    handle and moves the pointer to pixel (5, 5) of a 1000 by 1000 canvas.
    The resize step puts [xmin] and [ymin] at -20, 50 units from the
    opposite edges and outside [0, 1000]. *)
Theorem resize_tiny_box_leaves_range :
  wellFormed tinyBox /\
  exists s' b',
    run refs1000
        [MouseDown (mkEvent 15 15); MouseUp; MouseDown (mkEvent 0 0);
         MouseMove (mkEvent 5 5)]
        (initialState [tinyBox]) = Ok s' /\
    boxes s' = [b'] /\
    xmin b' == -20 /\ ymin b' == -20 /\ xmax b' == 30 /\ ymax b' == 30 /\
    ~ (0 <= xmin b') /\ ~ wellFormed b'.
Proof.
  split.
  { unfold wellFormed, tinyBox. cbn [xmin xmax ymin ymax]. lra. }
  eexists _, _. split; [vm_compute; reflexivity|].
  split; [reflexivity|]. cbn [xmin xmax ymin ymax].
  repeat split; num_eval.
Qed.

(** ** Edge order

    Once the boxes of the collection have their edges in order, as the
    detector promises, every action that returns keeps them so: the
    moves of the editor never meet an inverted box. *)

Lemma moveBox_ordered (b : BoundingBox) (dx dy : Q) :
  ordered b -> ordered (moveBox b dx dy).
Proof.
  intros [Hw Hh]. unfold ordered.
  pose proof (moveBox_width b dx dy Hw).
  pose proof (moveBox_height b dx dy Hh). lra.
Qed.

Lemma resizeBox_ordered (b : BoundingBox) (h : HandlePosition)
    (normX normY : Q) :
  ordered (resizeBox b h normX normY).
Proof.
  destruct (resizeBox_min_size b normX normY h) as [Hw Hh].
  unfold ordered. lra.
Qed.

Lemma commit_boxes_kept (s : EditorState) (effs : list Effect) :
  (forall v, ~ In (setBoxes v) effs) -> boxes (commit s effs) = boxes s.
Proof.
  unfold commit. revert s.
  induction effs as [|e effs IH]; intros s Hno; cbn; [reflexivity|].
  rewrite IH.
  - destruct e; cbn; try reflexivity.
    destruct (Hno v). now left.
  - intros v Hv. apply (Hno v). now right.
Qed.

Lemma step_ordered (r : Refs) (a : UserAction) (s s' : EditorState) :
  Forall ordered (boxes s) -> step r a s = Ok s' ->
  Forall ordered (boxes s').
Proof.
  intros Hall. unfold step, dispatch.
  destruct (handler r a s) as [effs|] eqn:Hrun; [|discriminate].
  intros [= <-].
  destruct a as [e|e| | | |value|]; cbn [handler] in Hrun.
  - (* pointer down: no [setBoxes] among the effects *)
    rewrite commit_boxes_kept; [exact Hall|].
    intros v Hv. unfold handleMouseDown, selectBody in Hrun.
    repeat match type of Hrun with
    | context [match ?c with _ => _ end] => destruct c
    end; try discriminate; injection Hrun as <-;
      cbn in Hv; intuition discriminate.
  - (* pointer move *)
    unfold handleMouseMove in Hrun.
    destruct (isDragging s); [|injection Hrun as <-; exact Hall].
    destruct (selectedIndex s) as [i|]; [|injection Hrun as <-; exact Hall].
    cbv zeta in Hrun.
    destruct (canvasRef r) as [canvas|]; [|injection Hrun as <-; exact Hall].
    destruct (boxes s !! i) as [box|] eqn:Hb.
    + assert (Hbox : ordered box) by (eapply Forall_lookup_1; eauto).
      destruct (dragMode s); [injection Hrun as <-; exact Hall| |].
      * injection Hrun as <-. cbn.
        apply Forall_insert; [exact Hall | now apply moveBox_ordered].
      * destruct (dragHandle s); injection Hrun as <-; cbn;
          [|exact Hall].
        apply Forall_insert; [exact Hall | apply resizeBox_ordered].
    + destruct (dragMode s); [injection Hrun as <-; exact Hall|discriminate|].
      destruct (dragHandle s); [discriminate|injection Hrun as <-; exact Hall].
  - injection Hrun as <-. exact Hall.
  - injection Hrun as <-. cbn. apply Forall_app. split; [exact Hall|].
    constructor; [|constructor]. unfold ordered. cbn [xmin xmax ymin ymax]. lra.
  - unfold handleDeleteBox in Hrun.
    destruct (selectedIndex s); injection Hrun as <-; [|exact Hall].
    cbn. now apply filterIndexNe_Forall.
  - injection Hrun as <-. exact Hall.
  - destruct (handleProcess_confirm_only r s) as (effs' & Hrun' & Hconf & _).
    rewrite Hrun' in Hrun. injection Hrun as <-.
    rewrite (commit_confirm_only s effs' Hconf). exact Hall.
Qed.

(** * The pointer handlers in double arithmetic *)

Module DoubleFacts.

Import Floats.
Import Double.
Local Open Scope float_scope.

(** ** The order of doubles

    The comparisons of doubles are those of their specification
    [SFcompare], which has no answer on [NaN]. *)

Lemma SFcompare_antisym (f1 f2 : spec_float) :
  SFcompare f2 f1 = option_map CompOpp (SFcompare f1 f2).
Proof.
  destruct f1 as [s1|s1| |s1 m1 e1], f2 as [s2|s2| |s2 m2 e2]; cbn;
    try reflexivity;
    try (destruct s1, s2; reflexivity);
    try (destruct s1; reflexivity);
    try (destruct s2; reflexivity).
  assert (Hm : Pos.compare_cont Eq m2 m1
               = CompOpp (Pos.compare_cont Eq m1 m2))
    by (rewrite (Pos.compare_cont_antisym m1 m2 Eq); reflexivity).
  destruct s1, s2; cbn; try reflexivity; f_equal;
    rewrite (Z.compare_antisym e1 e2), Hm;
    destruct (e1 ?= e2)%Z; cbn; try reflexivity;
    destruct (Pos.compare_cont Eq m1 m2); reflexivity.
Qed.

Lemma SFcompare_refl (f : spec_float) :
  SFcompare f f = None \/ SFcompare f f = Some Eq.
Proof.
  destruct f as [s|s| |s m e]; cbn; auto; right;
    destruct s; try reflexivity;
    rewrite Z.compare_refl, Pos.compare_cont_refl; reflexivity.
Qed.

Lemma SFcompare_Eq_finite (f : spec_float) (s : bool) (m : positive) (e : Z) :
  SFcompare f (S754_finite s m e) = Some Eq -> f = S754_finite s m e.
Proof.
  destruct f as [s'|s'| |s' m' e']; cbn;
    try discriminate;
    try (destruct s'; discriminate); try (destruct s; discriminate).
  destruct s', s; try discriminate;
    (destruct (Z.compare_spec e' e); try discriminate; subst;
     destruct (Pos.compare_cont Eq m' m) eqn:E; try discriminate;
     apply Pos.compare_eq in E; subst; reflexivity).
Qed.

(** The three tests in terms of the comparison. *)
Ltac to_compare :=
  rewrite ?ltb_spec, ?eqb_spec, ?leb_spec in *;
  unfold SFltb, SFeqb, SFleb in *.

(** Case analysis on how [x] and [y] compare. *)
Ltac compare_cases x y :=
  to_compare;
  rewrite ?(SFcompare_antisym (Prim2SF x) (Prim2SF y)) in *;
  destruct (SFcompare (Prim2SF x) (Prim2SF y)) as [[ | | ]|];
  cbn [option_map CompOpp] in *;
  try discriminate; try reflexivity; auto.

Lemma ltb_irrefl (x : float) : (x <? x) = false.
Proof.
  to_compare. destruct (SFcompare_refl (Prim2SF x)) as [-> | ->]; reflexivity.
Qed.

Lemma ltb_asym (x y : float) : (x <? y) = true -> (y <? x) = false.
Proof. intros H. compare_cases x y. Qed.

Lemma ltb_not_eqb (x y : float) :
  (x <? y) = true -> (x =? y) = false /\ (y =? x) = false.
Proof. intros H. compare_cases x y. Qed.

Lemma eqb_sym (x y : float) : (x =? y) = (y =? x).
Proof. compare_cases x y. Qed.

Lemma eqb_not_ltb (x y : float) :
  (x =? y) = true -> (x <? y) = false /\ (y <? x) = false.
Proof. intros H. compare_cases x y. Qed.

Lemma leb_ltb_eqb (x y : float) : (x <=? y) = (x <? y) || (x =? y).
Proof. compare_cases x y. Qed.

Lemma leb_not_ltb (x y : float) : (x <=? y) = true -> (y <? x) = false.
Proof. intros H. compare_cases x y. Qed.

(** A [NaN] compares with nothing. *)
Lemma nan_unordered (x y : float) :
  (x =? x) = false ->
  (x <? y) = false /\ (y <? x) = false /\
  (x =? y) = false /\ (y =? x) = false.
Proof.
  intros H. to_compare.
  rewrite (SFcompare_antisym (Prim2SF x) (Prim2SF y)).
  destruct (Prim2SF x) as [s|s| |s m e].
  - discriminate.
  - destruct s; discriminate.
  - cbn. auto.
  - destruct (SFcompare_refl (S754_finite s m e)) as [E|E];
      rewrite E in H; [|discriminate].
    destruct s; discriminate.
Qed.

(** Two numbers are ordered. *)
Lemma numbers_ordered (x y : float) :
  (x =? x) = true -> (y =? y) = true ->
  (x <? y) = true \/ (x =? y) = true \/ (y <? x) = true.
Proof.
  intros Hx Hy. to_compare.
  rewrite (SFcompare_antisym (Prim2SF x) (Prim2SF y)).
  destruct (Prim2SF x) as [s1|s1| |s1 m1 e1];
    destruct (Prim2SF y) as [s2|s2| |s2 m2 e2];
    try discriminate;
    match goal with
    | |- context [SFcompare ?a ?b] =>
        destruct (SFcompare a b) as [[ | | ]|] eqn:E; cbn; auto
    end;
    cbn in E; discriminate.
Qed.

(** What is ordered is a number. *)
Lemma ltb_number (x y : float) :
  (x <? y) = true -> (x =? x) = true /\ (y =? y) = true.
Proof.
  intros H.
  destruct (x =? x) eqn:Ex.
  - destruct (y =? y) eqn:Ey; [auto|].
    destruct (nan_unordered y x Ey) as (_ & H' & _). congruence.
  - destruct (nan_unordered x y Ex) as (H' & _). congruence.
Qed.

Lemma leb_number (x y : float) :
  (x <=? y) = true -> (x =? x) = true /\ (y =? y) = true.
Proof.
  rewrite leb_ltb_eqb. intros H. apply orb_true_iff in H.
  destruct H as [H|H]; [now apply ltb_number|].
  destruct (x =? x) eqn:Ex.
  - destruct (y =? y) eqn:Ey; [auto|].
    destruct (nan_unordered y x Ey) as (_ & _ & _ & H'). congruence.
  - destruct (nan_unordered x y Ex) as (_ & _ & H' & _). congruence.
Qed.

(** Equal to a number other than zero is being that number. *)
Lemma eqb_finite (x c : float) (s : bool) (m : positive) (e : Z) :
  Prim2SF c = S754_finite s m e -> (x =? c) = true -> x = c.
Proof.
  intros Hc H. apply Prim2SF_inj. rewrite eqb_spec, Hc in H. rewrite Hc.
  apply SFcompare_Eq_finite. unfold SFeqb in H.
  destruct (SFcompare (Prim2SF x) (S754_finite s m e)) as [[ | | ]|];
    try discriminate; reflexivity.
Qed.

Lemma eqb_1000 (x : float) : (x =? 1000) = true -> x = 1000.
Proof.
  destruct (Prim2SF 1000) as [s|s| |s m e] eqn:E; try discriminate.
  exact (eqb_finite x 1000 s m e E).
Qed.

(** What is at or below 0 is below 1000. *)
Lemma leb_0_ltb_1000 (v : float) : (v <=? 0) = true -> (v <? 1000) = true.
Proof.
  to_compare.
  change (Prim2SF 0) with (S754_zero false).
  destruct (Prim2SF 1000) as [s|s| |s m e] eqn:E; try discriminate.
  assert (s = false) as -> by (vm_compute in E; congruence).
  destruct (Prim2SF v) as [s'|s'| |s' m' e']; cbn;
    try discriminate; try reflexivity;
    destruct s'; try discriminate; reflexivity.
Qed.

(** Subtracting zero changes nothing. *)
Lemma sub_zero (w : float) : w - 0 = w.
Proof.
  apply Prim2SF_inj. rewrite sub_spec.
  change (Prim2SF 0) with (S754_zero false).
  destruct (Prim2SF w) as [[]|[]| |s m e]; reflexivity.
Qed.

(** ** Clamping *)

(** [Math.max] and [Math.min] on the zeros, on [NaN] and on the
    infinities. *)
Example math_extremes_run :
  Math_max (-0) 0 = 0 /\ Math_max 0 (-0) = 0 /\
  Math_min (-0) 0 = -0 /\ Math_min 0 (-0) = -0 /\
  Math_max nan 1 = nan /\ Math_min 1 nan = nan /\
  Math_max 1 infinity = infinity /\ Math_min neg_infinity 1 = neg_infinity /\
  clamp1000 (-0) = 0 /\ clamp1000 infinity = 1000 /\
  clamp1000 neg_infinity = 0 /\ clamp1000 nan = nan.
Proof. repeat split. Qed.

Lemma clamp1000_low (v : float) : (v <=? 0) = true -> clamp1000 v = 0.
Proof.
  intros H. unfold clamp1000, Math_min.
  rewrite (leb_0_ltb_1000 v H), (ltb_asym v 1000 (leb_0_ltb_1000 v H)).
  unfold Math_max. rewrite (leb_not_ltb v 0 H).
  rewrite leb_ltb_eqb in H. apply orb_true_iff in H. destruct H as [H|H].
  - rewrite H. reflexivity.
  - rewrite (proj1 (eqb_not_ltb v 0 H)), (eqb_sym 0 v), H. reflexivity.
Qed.

Lemma clamp1000_high (v : float) : (1000 <=? v) = true -> clamp1000 v = 1000.
Proof.
  intros H. unfold clamp1000, Math_min.
  rewrite (leb_not_ltb 1000 v H).
  rewrite leb_ltb_eqb in H. apply orb_true_iff in H. destruct H as [H|H].
  - rewrite H. reflexivity.
  - rewrite (proj1 (eqb_not_ltb 1000 v H)), H.
    rewrite eqb_sym in H. rewrite (eqb_1000 v H). reflexivity.
Qed.

Lemma clamp1000_inside (v : float) :
  (0 <? v) = true -> (v <? 1000) = true -> clamp1000 v = v.
Proof.
  intros H0 H1. unfold clamp1000, Math_min.
  rewrite (ltb_asym v 1000 H1), H1. unfold Math_max. rewrite H0. reflexivity.
Qed.

Lemma clamp1000_nan (v : float) : (v =? v) = false -> clamp1000 v = nan.
Proof.
  intros H. unfold clamp1000, Math_min.
  destruct (nan_unordered v 1000 H) as (H1 & H2 & H3 & H4).
  rewrite H1, H2, H4. reflexivity.
Qed.

Lemma clamp1000_clamped_double (raw : float) : clamped (clamp1000 raw) raw.
Proof.
  repeat split.
  - apply clamp1000_low.
  - apply clamp1000_high.
  - apply clamp1000_inside.
  - apply clamp1000_nan.
Qed.

(** A value above 0 is not clamped to 0, a value below 1000 not to
    1000. *)
Lemma clamp1000_not_0 (v : float) :
  (0 <? v) = true -> (clamp1000 v =? 0) = false.
Proof.
  intros H. destruct (ltb_number 0 v H) as [_ Hv].
  destruct (numbers_ordered v 1000 Hv eq_refl) as [H1|[H1|H1]].
  - rewrite (clamp1000_inside v H H1). apply (ltb_not_eqb 0 v H).
  - rewrite clamp1000_high; [reflexivity|].
    rewrite leb_ltb_eqb, (eqb_sym 1000 v), H1. apply orb_true_r.
  - rewrite clamp1000_high; [reflexivity|].
    rewrite leb_ltb_eqb, H1. reflexivity.
Qed.

Lemma clamp1000_not_1000 (v : float) :
  (v <? 1000) = true -> (clamp1000 v =? 1000) = false.
Proof.
  intros H. destruct (ltb_number v 1000 H) as [Hv _].
  destruct (numbers_ordered 0 v eq_refl Hv) as [H1|[H1|H1]].
  - rewrite (clamp1000_inside v H1 H). apply (ltb_not_eqb v 1000 H).
  - rewrite clamp1000_low; [reflexivity|].
    rewrite leb_ltb_eqb, (eqb_sym v 0), H1. apply orb_true_r.
  - rewrite clamp1000_low; [reflexivity|].
    rewrite leb_ltb_eqb, H1. reflexivity.
Qed.

(** ** Moving *)

Ltac box_fields :=
  cbn [xmin xmax ymin ymax set_xmin set_xmax set_ymin set_ymax].

(** The two corrections of one axis: the high edge is replaced when the
    low edge is at 0, then the low edge when the high edge is at 1000. *)
Lemma movedEdges_axis (lo hi d : float) :
  let hi1 :=
    if clamp1000 (lo + d) =? 0 then hi - lo else clamp1000 (hi + d) in
  let lo1 :=
    if hi1 =? 1000 then 1000 - (hi - lo) else clamp1000 (lo + d) in
  movedEdges lo hi d lo1 hi1.
Proof.
  cbv zeta. unfold movedEdges. split; [|split; [|split]].
  - intros Hlo. rewrite (clamp1000_low _ Hlo).
    change (0 =? 0) with true. cbv iota.
    destruct (hi - lo =? 1000) eqn:Ew.
    + rewrite (eqb_1000 _ Ew). repeat split.
    + split; [reflexivity|]. split; [reflexivity | apply sub_zero].
  - intros Hlo Hhi.
    rewrite (clamp1000_not_0 _ Hlo), (clamp1000_high _ Hhi).
    change (1000 =? 1000) with true. split; reflexivity.
  - intros Hlo Hhi.
    rewrite (clamp1000_not_0 _ Hlo), (clamp1000_not_1000 _ Hhi).
    split; reflexivity.
  - intros Hlo Hlo' Hhi' Hhi.
    rewrite (clamp1000_inside _ Hlo Hlo'), (clamp1000_inside _ Hhi' Hhi).
    rewrite (proj2 (ltb_not_eqb _ _ Hlo)), (proj1 (ltb_not_eqb _ _ Hhi)).
    split; reflexivity.
Qed.

(** [moveBox] applies the two corrections on each axis. *)
Lemma moveBox_edges (b : BoundingBox) (dx dy : float) :
  let xhi :=
    if clamp1000 (xmin b + dx) =? 0 then xmax b - xmin b
    else clamp1000 (xmax b + dx) in
  let xlo :=
    if xhi =? 1000 then 1000 - (xmax b - xmin b)
    else clamp1000 (xmin b + dx) in
  let yhi :=
    if clamp1000 (ymin b + dy) =? 0 then ymax b - ymin b
    else clamp1000 (ymax b + dy) in
  let ylo :=
    if yhi =? 1000 then 1000 - (ymax b - ymin b)
    else clamp1000 (ymin b + dy) in
  moveBox b dx dy = mkBox ylo xlo yhi xhi.
Proof.
  cbv zeta. unfold moveBox. box_fields.
  destruct (clamp1000 (xmin b + dx) =? 0); box_fields;
    [destruct (xmax b - xmin b =? 1000)
    |destruct (clamp1000 (xmax b + dx) =? 1000)]; box_fields;
    (destruct (clamp1000 (ymin b + dy) =? 0); box_fields;
     [destruct (ymax b - ymin b =? 1000)
     |destruct (clamp1000 (ymax b + dy) =? 1000)]; reflexivity).
Qed.

(** The horizontal and the vertical edges after [moveBox]. *)
Lemma moveBox_x (b : BoundingBox) (dx dy : float) :
  movedEdges (xmin b) (xmax b) dx
             (xmin (moveBox b dx dy)) (xmax (moveBox b dx dy)).
Proof.
  pose proof (moveBox_edges b dx dy) as E. cbv zeta in E. rewrite E.
  exact (movedEdges_axis (xmin b) (xmax b) dx).
Qed.

Lemma moveBox_y (b : BoundingBox) (dx dy : float) :
  movedEdges (ymin b) (ymax b) dy
             (ymin (moveBox b dx dy)) (ymax (moveBox b dx dy)).
Proof.
  pose proof (moveBox_edges b dx dy) as E. cbv zeta in E. rewrite E.
  exact (movedEdges_axis (ymin b) (ymax b) dy).
Qed.

(** What a move event does to the state while a box is being moved. *)
Lemma handleMouseMove_move (canvas : Canvas) (e : PointerEvent)
    (s : EditorState) (i : nat) (b : BoundingBox) :
  isDragging s = true -> dragMode s = mode_move ->
  selectedIndex s = Some i -> boxes s !! i = Some b ->
  let p := getCanvasCoordinates (Some canvas) e in
  let dx := pixelToNorm (px p - px (dragStart s)) (canvas_width canvas) in
  let dy := pixelToNorm (py p - py (dragStart s)) (canvas_height canvas) in
  dispatch (handleMouseMove (Some canvas) e) s =
    Ok (mkState (<[i := moveBox b dx dy]> (boxes s)) (selectedIndex s)
                (dragMode s) (dragHandle s) (isDragging s) p).
Proof.
  intros Hd Hm Hs Hb. unfold dispatch, handleMouseMove.
  rewrite Hd, Hs, Hb, Hm. cbn. rewrite Hd, Hs, Hm.
  reflexivity.
Qed.

(** C5, amended.  While a box is being moved, a pointer-move changes the
    selected box only, and on each axis, with [w] the double [xmax - xmin]
    (or [ymax - ymin]) the code computes and [d] the displacement of the
    pointer in normalized units:
    - when the translated low edge is at or below 0, the box is put at
      [0, w], which keeps the computed size [w] exactly;
    - when instead the translated high edge is at or above 1000, the box
      is put at [1000 - w, 1000];
    - otherwise the edges are the sums [edge + d], each clamped to
      [0, 1000] on its own, and the sums themselves when both are inside
      the space.
    In particular a box 200 units wide whose left edge would reach -50
    ends at [xmin = 0], [xmax = 200] exactly. *)
Theorem move_sets_edges (canvas : Canvas) (e : PointerEvent)
    (s : EditorState) (i : nat) (b : BoundingBox) :
  isDragging s = true -> dragMode s = mode_move ->
  selectedIndex s = Some i -> boxes s !! i = Some b ->
  let p := getCanvasCoordinates (Some canvas) e in
  let dx := pixelToNorm (px p - px (dragStart s)) (canvas_width canvas) in
  let dy := pixelToNorm (py p - py (dragStart s)) (canvas_height canvas) in
  exists s' b',
    dispatch (handleMouseMove (Some canvas) e) s = Ok s' /\
    boxes s' !! i = Some b' /\
    (forall j, j <> i -> boxes s' !! j = boxes s !! j) /\
    movedEdges (xmin b) (xmax b) dx (xmin b') (xmax b') /\
    movedEdges (ymin b) (ymax b) dy (ymin b') (ymax b') /\
    ((xmax b - xmin b =? 200) = true -> (xmin b + dx =? -50) = true ->
     xmin b' = 0 /\ xmax b' = 200).
Proof.
  intros Hd Hm Hs Hb p dx dy.
  pose proof (handleMouseMove_move canvas e s i b Hd Hm Hs Hb) as Hrun.
  cbv zeta in Hrun. fold p dx dy in Hrun.
  eexists _, _. split; [exact Hrun|]. cbn [boxes].
  split.
  { apply list_lookup_insert_eq. eapply lookup_lt_Some; eauto. }
  split.
  { intros j Hj. now apply list_lookup_insert_ne. }
  split; [apply moveBox_x|].
  split; [apply moveBox_y|].
  intros Hw Hleft.
  destruct (moveBox_x b dx dy) as (Hlow & _).
  destruct (Prim2SF 200) as [s0|s0| |s0 m0 e0] eqn:E200; try discriminate.
  destruct (Prim2SF (-50)) as [s1|s1| |s1 m1 e1] eqn:E50; try discriminate.
  rewrite (eqb_finite _ _ _ _ _ E200 Hw) in Hlow.
  destruct Hlow as (H0 & H200 & _); [|now split].
  rewrite (eqb_finite _ _ _ _ _ E50 Hleft). reflexivity.
Qed.

Lemma move_sets_edges_witness :
  exists s' b',
    dispatch (handleMouseMove (Some canvas1000) (mkEvent 0 100)) movingState
      = Ok s' /\
    boxes s' !! 0%nat = Some b' /\
    (forall j, j <> 0%nat -> boxes s' !! j = boxes movingState !! j) /\
    movedEdges 50 250 (-100) (xmin b') (xmax b') /\
    movedEdges 100 300 0 (ymin b') (ymax b') /\
    ((250 - 50 =? 200) = true -> (50 + -100 =? -50) = true ->
     xmin b' = 0 /\ xmax b' = 200).
Proof.
  apply (move_sets_edges canvas1000 (mkEvent 0 100)
           movingState 0%nat (mkBox 100 50 300 250));
    reflexivity.
Defined.

(** The run of the boundary example, evaluated. *)
Example move_left_boundary_run :
  dispatch (handleMouseMove (Some canvas1000) (mkEvent 0 100)) movingState =
  Ok (mkState [mkBox 100 0 300 200] (Some 0%nat) mode_move None true
              (mkPoint 0 100)).
Proof. reflexivity. Qed.

(** The box of [handleAddBox] moved by one pixel of a canvas 1920 pixels
    wide: both edges are rounded sums, 400.5208333333333 and
    600.5208333333334, and the width is 200.00000000000006, as a double
    and with 2^-44 above 200 as the exact distance. *)
Example move_one_pixel_run :
  dispatch (handleMouseMove (Some canvas1920) (mkEvent 101 100)) freeMoveState
  = Ok (mkState [mkBox 400 0x1.9085555555555p+8 600 0x1.2c42aaaaaaaabp+9]
                (Some 0%nat) mode_move None true (mkPoint 101 100)) /\
  0x1.2c42aaaaaaaabp+9 - 0x1.9085555555555p+8 = 0x1.9000000000002p+7 /\
  exactSpan 0x1.9085555555555p+8 0x1.2c42aaaaaaaabp+9
  = Some (3518437208883201 # 17592186044416)%Q.
Proof. repeat split; vm_compute; reflexivity. Qed.

(** A box against the right boundary, moved by nothing: its left edge
    400.5208333333333 is recomputed as [1000 - w] and comes out one unit
    in the last place lower, 400.52083333333326, so the box is wider than
    before. *)
Example move_at_right_boundary_run :
  dispatch (handleMouseMove (Some canvas1920) (mkEvent 100 100)) wallState
  = Ok (mkState [mkBox 400 0x1.9085555555554p+8 600 1000]
                (Some 0%nat) mode_move None true (mkPoint 100 100)) /\
  exactSpan (xmin wallBox) (xmax wallBox)
  <> exactSpan 0x1.9085555555554p+8 1000.
Proof. split; [reflexivity | vm_compute; discriminate]. Qed.

(** C5 as stated fails: moves do not keep the width [xmax - xmin] exactly,
    neither as the double the subtraction gives nor as the exact distance
    of the two edges. *)
Lemma move_preserves_size_counterexample :
  ~ (forall canvas e s i b s' b',
       isDragging s = true -> dragMode s = mode_move ->
       selectedIndex s = Some i -> boxes s !! i = Some b ->
       dispatch (handleMouseMove (Some canvas) e) s = Ok s' ->
       boxes s' !! i = Some b' ->
       (xmax b' - xmin b' =? xmax b - xmin b) = true /\
       (ymax b' - ymin b' =? ymax b - ymin b) = true) /\
  ~ (forall canvas e s i b s' b',
       isDragging s = true -> dragMode s = mode_move ->
       selectedIndex s = Some i -> boxes s !! i = Some b ->
       dispatch (handleMouseMove (Some canvas) e) s = Ok s' ->
       boxes s' !! i = Some b' ->
       exactSpan (xmin b') (xmax b') = exactSpan (xmin b) (xmax b) /\
       exactSpan (ymin b') (ymax b') = exactSpan (ymin b) (ymax b)).
Proof.
  split; intros H;
    destruct (H canvas1920 (mkEvent 101 100) freeMoveState 0%nat
                (mkBox 400 400 600 600) _ _
                eq_refl eq_refl eq_refl eq_refl eq_refl eq_refl) as [Hw _];
    vm_compute in Hw; discriminate.
Qed.

(** ** Resizing *)

(** Equal numbers are at or below each other and themselves. *)
Lemma eqb_leb (x y : float) :
  (x =? y) = true ->
  (x <=? y) = true /\ (y <=? x) = true /\
  (x <=? x) = true /\ (y <=? y) = true /\
  (x =? x) = true /\ (y =? y) = true.
Proof.
  intros H.
  assert (Hxy : (x <=? y) = true)
    by (rewrite leb_ltb_eqb, H; apply orb_true_r).
  destruct (leb_number x y Hxy) as [Hx Hy].
  rewrite !leb_ltb_eqb, (eqb_sym y x), H, Hx, Hy, !orb_true_r. auto 6.
Qed.

Lemma Math_max_highEdge (pointer floor : float) :
  highEdge (Math_max pointer floor) pointer floor.
Proof.
  unfold highEdge, Math_max.
  destruct (pointer <? floor) eqn:E1.
  { split; [|split; [|split; [|split]]].
    - intros H. rewrite (ltb_asym _ _ H) in E1. discriminate.
    - reflexivity.
    - intros H. destruct (ltb_not_eqb _ _ E1) as [H' _]. congruence.
    - apply ltb_irrefl.
    - intros _ Hf. rewrite leb_ltb_eqb, Hf. apply orb_true_r. }
  destruct (floor <? pointer) eqn:E2.
  { split; [|split; [|split; [|split]]].
    - reflexivity.
    - discriminate.
    - exact id.
    - exact E1.
    - intros _ _. rewrite leb_ltb_eqb, E2. reflexivity. }
  destruct (pointer =? floor) eqn:E3.
  { destruct (eqb_leb _ _ E3) as (_ & Hfp & _ & Hff & _ & Hf).
    split; [|split; [|split; [|split]]]; try discriminate.
    - intros _. destruct (get_sign pointer); [exact Hf | exact E3].
    - destruct (get_sign pointer); [apply ltb_irrefl | exact E1].
    - intros _ _. destruct (get_sign pointer); [exact Hff | exact Hfp]. }
  split; [|split; [|split; [|split]]]; try discriminate.
  - destruct (nan_unordered nan floor eq_refl) as (H & _). exact H.
  - intros Hp Hf.
    destruct (numbers_ordered pointer floor Hp Hf) as [H|[H|H]]; congruence.
Qed.

Lemma Math_min_lowEdge (pointer floor : float) :
  lowEdge (Math_min pointer floor) pointer floor.
Proof.
  unfold lowEdge, Math_min.
  destruct (pointer <? floor) eqn:E1.
  { split; [|split; [|split; [|split]]].
    - reflexivity.
    - intros H. rewrite (ltb_asym _ _ H) in E1. discriminate.
    - intros H. destruct (ltb_not_eqb _ _ E1) as [H' _]. congruence.
    - apply (ltb_asym _ _ E1).
    - intros _ _. rewrite leb_ltb_eqb, E1. reflexivity. }
  destruct (floor <? pointer) eqn:E2.
  { split; [|split; [|split; [|split]]].
    - discriminate.
    - reflexivity.
    - intros H. destruct (ltb_not_eqb _ _ E2) as [_ H']. congruence.
    - apply ltb_irrefl.
    - intros _ Hf. rewrite leb_ltb_eqb, Hf. apply orb_true_r. }
  destruct (pointer =? floor) eqn:E3.
  { destruct (eqb_leb _ _ E3) as (Hpf & _ & _ & Hff & _ & Hf).
    split; [|split; [|split; [|split]]]; try discriminate.
    - intros _. destruct (get_sign pointer); [exact E3 | exact Hf].
    - destruct (get_sign pointer); [exact E2 | apply ltb_irrefl].
    - intros _ _. destruct (get_sign pointer); [exact Hpf | exact Hff]. }
  split; [|split; [|split; [|split]]]; try discriminate.
  - destruct (nan_unordered nan floor eq_refl) as (_ & H & _). exact H.
  - intros Hp Hf.
    destruct (numbers_ordered pointer floor Hp Hf) as [H|[H|H]]; congruence.
Qed.

Section Resize.

Variables (b : BoundingBox) (normX normY : float).

Lemma resizeBox_nw_double :
  resizeBox b nw normX normY =
  mkBox (Math_min normY (ymax b - 50)) (Math_min normX (xmax b - 50))
        (ymax b) (xmax b).
Proof. reflexivity. Qed.

Lemma resizeBox_ne_double :
  resizeBox b ne normX normY =
  mkBox (Math_min normY (ymax b - 50)) (xmin b)
        (ymax b) (Math_max normX (xmin b + 50)).
Proof. reflexivity. Qed.

Lemma resizeBox_sw_double :
  resizeBox b sw normX normY =
  mkBox (ymin b) (Math_min normX (xmax b - 50))
        (Math_max normY (ymin b + 50)) (xmax b).
Proof. reflexivity. Qed.

Lemma resizeBox_se_double :
  resizeBox b se normX normY =
  mkBox (ymin b) (xmin b)
        (Math_max normY (ymin b + 50)) (Math_max normX (xmin b + 50)).
Proof. reflexivity. Qed.

(** The horizontal edge a handle drags follows the pointer down to the
    floor, the other one stays. *)
Lemma resizeBox_x (h : HandlePosition) :
  let b' := resizeBox b h normX normY in
  match h with
  | nw | sw => lowEdge (xmin b') normX (xmax b - 50) /\ xmax b' = xmax b
  | ne | se => highEdge (xmax b') normX (xmin b + 50) /\ xmin b' = xmin b
  end.
Proof.
  destruct h; cbv zeta;
    rewrite ?resizeBox_nw_double, ?resizeBox_ne_double,
            ?resizeBox_sw_double, ?resizeBox_se_double;
    cbn [xmin xmax];
    (split; [|reflexivity]);
    first [apply Math_min_lowEdge | apply Math_max_highEdge].
Qed.

Lemma resizeBox_y (h : HandlePosition) :
  let b' := resizeBox b h normX normY in
  match h with
  | nw | ne => lowEdge (ymin b') normY (ymax b - 50) /\ ymax b' = ymax b
  | sw | se => highEdge (ymax b') normY (ymin b + 50) /\ ymin b' = ymin b
  end.
Proof.
  destruct h; cbv zeta;
    rewrite ?resizeBox_nw_double, ?resizeBox_ne_double,
            ?resizeBox_sw_double, ?resizeBox_se_double;
    cbn [ymin ymax];
    (split; [|reflexivity]);
    first [apply Math_min_lowEdge | apply Math_max_highEdge].
Qed.

End Resize.

(** What a move event does to the state while a box is being resized. *)
Lemma handleMouseMove_resize_double (canvas : Canvas) (e : PointerEvent)
    (s : EditorState) (i : nat) (b : BoundingBox) (h : HandlePosition) :
  isDragging s = true -> dragMode s = mode_resize ->
  dragHandle s = Some h ->
  selectedIndex s = Some i -> boxes s !! i = Some b ->
  let p := getCanvasCoordinates (Some canvas) e in
  let normX := clamp1000 (pixelToNorm (px p) (canvas_width canvas)) in
  let normY := clamp1000 (pixelToNorm (py p) (canvas_height canvas)) in
  dispatch (handleMouseMove (Some canvas) e) s =
    Ok (mkState (<[i := resizeBox b h normX normY]> (boxes s))
                (selectedIndex s) (dragMode s) (dragHandle s) (isDragging s)
                (dragStart s)).
Proof.
  intros Hd Hm Hh Hs Hb. unfold dispatch, handleMouseMove.
  rewrite Hd, Hs, Hb, Hm, Hh. cbn. rewrite Hd, Hs, Hm, Hh.
  reflexivity.
Qed.

(** C6, amended.  While a box is being resized, every pointer-move sets
    the edges the active handle names ([w]/[e]: [xmin]/[xmax], [n]/[s]:
    [ymin]/[ymax]) to the pointer position, normalized and clamped to
    [0, 1000] (0 for a pointer at or below 0, 1000 for one at or above
    1000), with a floor: an edge never passes the double the code computes
    for the opposite edge plus or minus 50, and sits there when the
    pointer is beyond it.  The opposite edges stay.  With the [se] handle
    of a box at [xmin = 400], [ymin = 400] neither [xmax] nor [ymax] falls
    below 450. *)
Theorem resize_follows_clamped_pointer (canvas : Canvas) (e : PointerEvent)
    (s : EditorState) (i : nat) (b : BoundingBox) (h : HandlePosition) :
  isDragging s = true -> dragMode s = mode_resize ->
  dragHandle s = Some h ->
  selectedIndex s = Some i -> boxes s !! i = Some b ->
  let p := getCanvasCoordinates (Some canvas) e in
  let normX := clamp1000 (pixelToNorm (px p) (canvas_width canvas)) in
  let normY := clamp1000 (pixelToNorm (py p) (canvas_height canvas)) in
  exists s' b',
    dispatch (handleMouseMove (Some canvas) e) s = Ok s' /\
    boxes s' !! i = Some b' /\
    (forall j, j <> i -> boxes s' !! j = boxes s !! j) /\
    clamped normX (pixelToNorm (px p) (canvas_width canvas)) /\
    clamped normY (pixelToNorm (py p) (canvas_height canvas)) /\
    match h with
    | nw | sw => lowEdge (xmin b') normX (xmax b - 50) /\ xmax b' = xmax b
    | ne | se => highEdge (xmax b') normX (xmin b + 50) /\ xmin b' = xmin b
    end /\
    match h with
    | nw | ne => lowEdge (ymin b') normY (ymax b - 50) /\ ymax b' = ymax b
    | sw | se => highEdge (ymax b') normY (ymin b + 50) /\ ymin b' = ymin b
    end /\
    (h = se -> xmin b = 400 -> ymin b = 400 ->
     (xmax b' <? 450) = false /\ (ymax b' <? 450) = false).
Proof.
  intros Hd Hm Hh Hs Hb p normX normY.
  pose proof (handleMouseMove_resize_double canvas e s i b h Hd Hm Hh Hs Hb)
    as Hrun.
  cbv zeta in Hrun. fold p normX normY in Hrun.
  eexists _, _. split; [exact Hrun|]. cbn [boxes].
  split.
  { apply list_lookup_insert_eq. eapply lookup_lt_Some; eauto. }
  split.
  { intros j Hj. now apply list_lookup_insert_ne. }
  split; [apply clamp1000_clamped_double|].
  split; [apply clamp1000_clamped_double|].
  split; [apply resizeBox_x|].
  split; [apply resizeBox_y|].
  intros -> Hx Hy. rewrite resizeBox_se_double. cbn [xmax ymax].
  rewrite Hx, Hy. change (400 + 50) with 450.
  split; [apply (Math_max_highEdge normX 450)
         |apply (Math_max_highEdge normY 450)].
Qed.

Lemma resize_follows_clamped_pointer_witness :
  exists s' b',
    dispatch (handleMouseMove (Some canvas1000) (mkEvent 0 0)) resizingState
      = Ok s' /\
    boxes s' !! 0%nat = Some b' /\
    (forall j, j <> 0%nat -> boxes s' !! j = boxes resizingState !! j) /\
    clamped 0 0 /\
    clamped 0 0 /\
    (highEdge (xmax b') 0 450 /\ xmin b' = 400) /\
    (highEdge (ymax b') 0 450 /\ ymin b' = 400) /\
    (se = se -> 400 = 400 -> 400 = 400 ->
     (xmax b' <? 450) = false /\ (ymax b' <? 450) = false).
Proof.
  apply (resize_follows_clamped_pointer canvas1000 (mkEvent 0 0)
           resizingState 0%nat (mkBox 400 400 600 600) se);
    reflexivity.
Defined.

(** The [se] handle dragged to the origin: the box stops at 450. *)
Example resize_se_to_origin_run :
  dispatch (handleMouseMove (Some canvas1000) (mkEvent 0 0)) resizingState =
  Ok (mkState [mkBox 400 400 450 450] (Some 0%nat) mode_resize (Some se) true
              (mkPoint 0 0)).
Proof. reflexivity. Qed.

(** The same drag on a box whose left edge is the double
    463.0208333333333: the floor is the rounded sum 513.0208333333333,
    which is 49.99999999999994 above the left edge. *)
Example resize_floor_run :
  dispatch (handleMouseMove (Some canvas1920) (mkEvent 0 0)) floorState =
  Ok (mkState [mkBox 400 0x1.cf05555555555p+8 450 0x1.0082aaaaaaaaap+9]
              (Some 0%nat) mode_resize (Some se) true (mkPoint 0 0)) /\
  0x1.0082aaaaaaaaap+9 - 0x1.cf05555555555p+8 = 0x1.8fffffffffff8p+5 /\
  exactSpan 0x1.cf05555555555p+8 0x1.0082aaaaaaaaap+9
  = Some (879609302220799 # 17592186044416)%Q.
Proof. repeat split; vm_compute; reflexivity. Qed.

(** C6 as stated fails: a resize can leave the dragged edge closer than
    50 units to the opposite edge, as the double the subtraction gives
    and as the exact distance of the two edges. *)
Lemma resize_floor_counterexample :
  ~ (forall canvas e s i b s' b',
       isDragging s = true -> dragMode s = mode_resize ->
       dragHandle s = Some se ->
       selectedIndex s = Some i -> boxes s !! i = Some b ->
       dispatch (handleMouseMove (Some canvas) e) s = Ok s' ->
       boxes s' !! i = Some b' ->
       (xmax b' - xmin b' <? 50) = false) /\
  ~ (forall canvas e s i b s' b',
       isDragging s = true -> dragMode s = mode_resize ->
       dragHandle s = Some se ->
       selectedIndex s = Some i -> boxes s !! i = Some b ->
       dispatch (handleMouseMove (Some canvas) e) s = Ok s' ->
       boxes s' !! i = Some b' ->
       exists d, exactSpan (xmin b') (xmax b') = Some d /\ (50 <= d)%Q).
Proof.
  split; intros H.
  - pose proof (H canvas1920 (mkEvent 0 0) floorState 0%nat floorBox _ _
                  eq_refl eq_refl eq_refl eq_refl eq_refl eq_refl eq_refl)
      as Hw.
    vm_compute in Hw. discriminate.
  - destruct (H canvas1920 (mkEvent 0 0) floorState 0%nat floorBox _ _
                eq_refl eq_refl eq_refl eq_refl eq_refl eq_refl eq_refl)
      as (d & Hd & Hle).
    vm_compute in Hd. injection Hd as <-.
    revert Hle. vm_compute. intros Hle. apply Hle. reflexivity.
Qed.

(** ** Pointer down *)

Lemma getHandleHit_first_double (canvas : Canvas) (s : EditorState)
    (x y : float) (i : nat) (box : BoundingBox) :
  boxes s !! i = Some box ->
  getHandleHit (Some canvas) s x y i = Ok (firstHandleWithin canvas box x y).
Proof.
  intros Hb. unfold getHandleHit. rewrite Hb. cbv zeta.
  unfold firstHandleWithin, handleOrder. cbn [List.find].
  change (withinTolerance canvas box x y nw)
    with (nearCorner x y (pixelLeft canvas box) (pixelTop canvas box)
                     (handleTolerance canvas)).
  change (withinTolerance canvas box x y ne)
    with (nearCorner x y (pixelRight canvas box) (pixelTop canvas box)
                     (handleTolerance canvas)).
  change (withinTolerance canvas box x y sw)
    with (nearCorner x y (pixelLeft canvas box) (pixelBottom canvas box)
                     (handleTolerance canvas)).
  change (withinTolerance canvas box x y se)
    with (nearCorner x y (pixelRight canvas box) (pixelBottom canvas box)
                     (handleTolerance canvas)).
  unfold pixelRight, pixelBottom, pixelLeft, pixelTop, handleTolerance.
  repeat match goal with |- context [if ?c then _ else _] => destruct c end;
    reflexivity.
Qed.

(** What [List.find] over [handleOrder] returns: the hit of least rank. *)
Lemma firstHandleWithin_least_double (canvas : Canvas) (box : BoundingBox)
    (x y : float) (h : HandlePosition) :
  firstHandleWithin canvas box x y = Some h <->
  withinTolerance canvas box x y h = true /\
  forall h', (handleRank h' < handleRank h)%nat ->
             withinTolerance canvas box x y h' = false.
Proof.
  unfold firstHandleWithin, handleOrder. cbn [List.find].
  split.
  - destruct (withinTolerance canvas box x y nw) eqn:Enw;
    [|destruct (withinTolerance canvas box x y ne) eqn:Ene;
      [|destruct (withinTolerance canvas box x y sw) eqn:Esw;
        [|destruct (withinTolerance canvas box x y se) eqn:Ese]]];
    intros [= <-]; (split; [assumption|]);
    intros [] Hr; cbn in Hr; try lia; assumption.
  - intros [Hh Hlt].
    destruct h; cbn in Hlt;
      rewrite ?(Hlt nw), ?(Hlt ne), ?(Hlt sw) by (cbn; lia);
      rewrite Hh; reflexivity.
Qed.

Lemma firstHandleWithin_none_double (canvas : Canvas) (box : BoundingBox)
    (x y : float) :
  firstHandleWithin canvas box x y = None <->
  forall h, withinTolerance canvas box x y h = false.
Proof.
  unfold firstHandleWithin, handleOrder. cbn [List.find].
  split.
  - intros H h.
    destruct (withinTolerance canvas box x y nw) eqn:Enw; [discriminate|].
    destruct (withinTolerance canvas box x y ne) eqn:Ene; [discriminate|].
    destruct (withinTolerance canvas box x y sw) eqn:Esw; [discriminate|].
    destruct (withinTolerance canvas box x y se) eqn:Ese; [discriminate|].
    destruct h; assumption.
  - intros H. now rewrite !H.
Qed.

Lemma insideBox_inPixelRect_double (canvas : Canvas) (box : BoundingBox)
    (x y : float) :
  insideBox canvas box x y = true <-> inPixelRect canvas box x y.
Proof.
  unfold insideBox, inPixelRect, pixelRight, pixelBottom, pixelLeft, pixelTop.
  cbv zeta. rewrite !andb_true_iff. tauto.
Qed.

Lemma insideBox_not_inPixelRect_double (canvas : Canvas) (box : BoundingBox)
    (x y : float) :
  insideBox canvas box x y = false <-> ~ inPixelRect canvas box x y.
Proof.
  rewrite <- insideBox_inPixelRect_double.
  destruct (insideBox canvas box x y); split; congruence.
Qed.

(** The body loop returns the highest index below [n] whose box contains
    the pointer. *)
Lemma clickedIndex_topmost_double (canvas : Canvas) (bs : list BoundingBox)
    (x y : float) (n : nat) :
  (n <= length bs)%nat ->
  match clickedIndex canvas bs x y n with
  | Some k =>
      (k < n)%nat /\
      (exists box, bs !! k = Some box /\ inPixelRect canvas box x y) /\
      (forall j box', (k < j < n)%nat -> bs !! j = Some box' ->
                      ~ inPixelRect canvas box' x y)
  | None =>
      forall j box', (j < n)%nat -> bs !! j = Some box' ->
                     ~ inPixelRect canvas box' x y
  end.
Proof.
  induction n as [|i IH]; intros Hn; cbn [clickedIndex].
  - intros j box' Hj. lia.
  - destruct (lookup_lt_is_Some_2 bs i) as [box Hbox]; [lia|].
    rewrite Hbox. destruct (insideBox canvas box x y) eqn:Ein.
    + split; [lia|]. split.
      * exists box. split; [exact Hbox|].
        now apply insideBox_inPixelRect_double.
      * intros j box' Hj. lia.
    + specialize (IH ltac:(lia)).
      destruct (clickedIndex canvas bs x y i) as [k|].
      * destruct IH as (Hk & Hin & Habove). split; [lia|].
        split; [exact Hin|].
        intros j box' Hj Hjb. destruct (Nat.eq_dec j i) as [->|Hne].
        -- rewrite Hbox in Hjb. injection Hjb as <-.
           now apply insideBox_not_inPixelRect_double.
        -- apply (Habove j box'); [lia | exact Hjb].
      * intros j box' Hj Hjb. destruct (Nat.eq_dec j i) as [->|Hne].
        -- rewrite Hbox in Hjb. injection Hjb as <-.
           now apply insideBox_not_inPixelRect_double.
        -- apply (IH j box'); [lia | exact Hjb].
Qed.

Lemma handleMouseDown_handle_double (canvas : Canvas) (e : PointerEvent)
    (s : EditorState) (i : nat) (box : BoundingBox) (h : HandlePosition) :
  selectedIndex s = Some i -> boxes s !! i = Some box ->
  firstHandleWithin canvas box (px (getCanvasCoordinates (Some canvas) e))
                    (py (getCanvasCoordinates (Some canvas) e)) = Some h ->
  dispatch (handleMouseDown (Some canvas) e) s =
    Ok (mkState (boxes s) (selectedIndex s) mode_resize (Some h) true
                (dragStart s)).
Proof.
  intros Hs Hb Hh. unfold dispatch, handleMouseDown. cbv zeta.
  rewrite Hs.
  rewrite (getHandleHit_first_double canvas s _ _ i box Hb), Hh.
  cbn. rewrite Hs. reflexivity.
Qed.

Lemma handleMouseDown_body (canvas : Canvas) (e : PointerEvent)
    (s : EditorState) :
  match selectedIndex s with
  | None => True
  | Some i =>
      exists box, boxes s !! i = Some box /\
        firstHandleWithin canvas box
          (px (getCanvasCoordinates (Some canvas) e))
          (py (getCanvasCoordinates (Some canvas) e)) = None
  end ->
  dispatch (handleMouseDown (Some canvas) e) s =
    Ok (commit s (selectBody canvas s
                    (px (getCanvasCoordinates (Some canvas) e))
                    (py (getCanvasCoordinates (Some canvas) e)))).
Proof.
  intros Hsel. unfold dispatch, handleMouseDown. cbv zeta.
  destruct (selectedIndex s) as [i|]; [|reflexivity].
  destruct Hsel as (box & Hb & Hnone).
  rewrite (getHandleHit_first_double canvas s _ _ i box Hb), Hnone.
  reflexivity.
Qed.

(** C7, amended.  On pointer-down the four corner handles of the selected
    box are tried first, with the tolerance [(canvas width / 1000) * 40]
    on both axes; a handle within tolerance starts a resize, whatever
    bodies lie under the pointer.  Without a handle hit the bodies are
    tried from the last box to the first, and the box selected is the one
    of highest index whose pixel rectangle as the code computes it in
    doubles (left [(xmin / 1000) * width], right [left + ((xmax - xmin) /
    1000) * width], top and bottom likewise) contains the pointer, bounds
    included; no such box clears the selection.  With two overlapping
    boxes A then B, none selected, a pointer-down in the overlap of the
    computed rectangles selects B. *)
Theorem pointer_down_hit_test_computed (canvas : Canvas) (e : PointerEvent)
    (s : EditorState) :
  let p := getCanvasCoordinates (Some canvas) e in
  let tol := (canvas_width canvas / 1000) * 40 in
  (forall i box h,
     selectedIndex s = Some i -> boxes s !! i = Some box ->
     (abs (px p - px (handleCorner canvas box h)) <? tol) = true ->
     (abs (py p - py (handleCorner canvas box h)) <? tol) = true ->
     exists h',
       firstHandleWithin canvas box (px p) (py p) = Some h' /\
       dispatch (handleMouseDown (Some canvas) e) s =
         Ok (mkState (boxes s) (Some i) mode_resize (Some h') true
                     (dragStart s))) /\
  (match selectedIndex s with
   | None => True
   | Some i =>
       exists box, boxes s !! i = Some box /\
         forall h,
           (abs (px p - px (handleCorner canvas box h)) <? tol) = false \/
           (abs (py p - py (handleCorner canvas box h)) <? tol) = false
   end ->
   exists s',
     dispatch (handleMouseDown (Some canvas) e) s = Ok s' /\
     boxes s' = boxes s /\
     match selectedIndex s' with
     | Some k =>
         (exists box, boxes s !! k = Some box /\
                      inPixelRect canvas box (px p) (py p)) /\
         (forall j box', (k < j)%nat -> boxes s !! j = Some box' ->
                         ~ inPixelRect canvas box' (px p) (py p)) /\
         dragMode s' = mode_move /\ isDragging s' = true /\ dragStart s' = p
     | None =>
         forall j box', boxes s !! j = Some box' ->
                        ~ inPixelRect canvas box' (px p) (py p)
     end) /\
  (forall A B,
     boxes s = [A; B] -> selectedIndex s = None ->
     inPixelRect canvas A (px p) (py p) ->
     inPixelRect canvas B (px p) (py p) ->
     exists s',
       dispatch (handleMouseDown (Some canvas) e) s = Ok s' /\
       selectedIndex s' = Some 1%nat /\ dragMode s' = mode_move).
Proof.
  intros p tol.
  assert (Hwithin : forall box h,
    withinTolerance canvas box (px p) (py p) h =
    (abs (px p - px (handleCorner canvas box h)) <? tol)
    && (abs (py p - py (handleCorner canvas box h)) <? tol))
    by reflexivity.
  assert (Hbody :
    match selectedIndex s with
    | None => True
    | Some i =>
        exists box, boxes s !! i = Some box /\
          forall h,
            (abs (px p - px (handleCorner canvas box h)) <? tol) = false \/
            (abs (py p - py (handleCorner canvas box h)) <? tol) = false
    end ->
    exists s',
      dispatch (handleMouseDown (Some canvas) e) s = Ok s' /\
      boxes s' = boxes s /\
      match selectedIndex s' with
      | Some k =>
          (exists box, boxes s !! k = Some box /\
                       inPixelRect canvas box (px p) (py p)) /\
          (forall j box', (k < j)%nat -> boxes s !! j = Some box' ->
                          ~ inPixelRect canvas box' (px p) (py p)) /\
          dragMode s' = mode_move /\ isDragging s' = true /\ dragStart s' = p
      | None =>
          forall j box', boxes s !! j = Some box' ->
                         ~ inPixelRect canvas box' (px p) (py p)
      end).
  { intros Hsel.
    rewrite (handleMouseDown_body canvas e s).
    2:{ destruct (selectedIndex s) as [i|]; [|exact I].
        destruct Hsel as (box & Hb & Hmiss). exists box. split; [exact Hb|].
        apply firstHandleWithin_none_double. intros h. fold p.
        rewrite Hwithin. apply andb_false_iff. apply Hmiss. }
    fold p. unfold selectBody.
    pose proof (clickedIndex_topmost_double canvas (boxes s) (px p) (py p)
                  (length (boxes s)) (le_n _)) as Htop.
    destruct (clickedIndex canvas (boxes s) (px p) (py p) (length (boxes s)))
      as [k|].
    - eexists. split; [reflexivity|]. cbn.
      destruct Htop as (Hk & Hin & Habove).
      split; [reflexivity|]. split; [exact Hin|]. split.
      + intros j box' Hj Hjb. apply (Habove j box'); [|exact Hjb].
        split; [exact Hj|]. eapply lookup_lt_Some; eauto.
      + destruct p; repeat split; reflexivity.
    - eexists. split; [reflexivity|]. cbn. split; [reflexivity|].
      intros j box' Hjb. apply (Htop j box'); [|exact Hjb].
      eapply lookup_lt_Some; eauto. }
  split; [|split; [exact Hbody|]].
  - intros i box h Hs Hb Hx Hy.
    destruct (firstHandleWithin canvas box (px p) (py p)) as [h'|] eqn:Ef.
    + exists h'. split; [reflexivity|].
      rewrite (handleMouseDown_handle_double canvas e s i box h' Hs Hb Ef).
      rewrite Hs. reflexivity.
    + exfalso.
      pose proof (proj1 (firstHandleWithin_none_double _ _ _ _) Ef h) as Hm.
      rewrite Hwithin, Hx, Hy in Hm. discriminate.
  - intros A B HAB Hnone HA HB.
    destruct Hbody as (s' & Hrun & Hbs & Hsel); [now rewrite Hnone|].
    exists s'. split; [exact Hrun|].
    rewrite HAB in Hsel.
    destruct (selectedIndex s') as [k|].
    + destruct Hsel as ((box & Hk & _) & Habove & Hmode & _).
      split; [|exact Hmode].
      destruct k as [|[|k]]; [|reflexivity|discriminate].
      destruct (Habove 1%nat B); [lia | reflexivity | exact HB].
    + destruct (Hsel 1%nat B); [reflexivity | exact HB].
Qed.

Lemma pointer_down_hit_test_computed_witness :
  exists s',
    dispatch (handleMouseDown (Some canvas1000) (mkEvent 400 400))
             twoBoxesState = Ok s' /\
    selectedIndex s' = Some 1%nat /\ dragMode s' = mode_move.
Proof.
  destruct (pointer_down_hit_test_computed canvas1000 (mkEvent 400 400)
              twoBoxesState) as (_ & _ & Hoverlap).
  apply (Hoverlap boxA boxB); try reflexivity;
    unfold inPixelRect; repeat split; vm_compute; reflexivity.
Defined.

(** A pointer-down in the overlap of A and B, none selected: B is
    selected and a move starts at the pointer. *)
Example z_order_run :
  dispatch (handleMouseDown (Some canvas1000) (mkEvent 400 400)) twoBoxesState
  = Ok (mkState [boxA; boxB] (Some 1%nat) mode_move None true
                (mkPoint 400 400)).
Proof. reflexivity. Qed.

(** A pointer-down on the [se] handle of the selected box A, inside the
    body of B: the handle is taken, the selection stays on A. *)
Example handle_over_body_run :
  inPixelRect canvas1000 boxB 490 490 /\
  dispatch (handleMouseDown (Some canvas1000) (mkEvent 490 490))
           twoBoxesSelectedA =
  Ok (mkState [boxA; boxB] (Some 0%nat) mode_resize (Some se) true
              (mkPoint 0 0)).
Proof. split; [repeat split|reflexivity]. Qed.

(** The left edge of a box with [xmin = 21] on a canvas 3000 pixels wide
    is computed as 63.00000000000001. *)
Example edge_run :
  pixelLeft canvas3000 edgeBox = 0x1.f800000000001p+5 /\
  exact (pixelLeft canvas3000 edgeBox)
  = Some (8866461766385665 # 140737488355328)%Q.
Proof. split; vm_compute; reflexivity. Qed.

(** A canvas whose bounding rectangle is empty: the pointer position is
    not a number and the pointer-down hits nothing. *)
Example empty_rect_run :
  getCanvasCoordinates (Some (mkCanvas 1000 1000 0 0 0 0)) (mkEvent 400 400)
  = mkPoint infinity infinity /\
  dispatch (handleMouseDown (Some (mkCanvas 1000 1000 0 0 0 0))
                            (mkEvent 400 400)) twoBoxesState
  = Ok twoBoxesState.
Proof. split; reflexivity. Qed.

End DoubleFacts.

(** C7 as stated fails.  The box [xmin = 21, xmax = 221] on a canvas 3000
    pixels wide, the only box and not selected, has the pixel rectangle
    [63, 663] x [200, 600]; a pointer-down at pixel (63, 400), on its left
    edge, selects nothing. *)
Lemma pointer_on_edge_counterexample :
  exists canvas box e,
    exactCanvas Double.canvas3000 = Some canvas /\
    exactBox Double.edgeBox = Some box /\
    exactEvent Double.edgeEvent = Some e /\
    Double.boxes Double.edgeState = [Double.edgeBox] /\
    Double.selectedIndex Double.edgeState = None /\
    (let p := getCanvasCoordinates (mkRefs (Some canvas) None true) e in
     px p == 63 /\ py p == 400 /\
     normToPixel (xmin box) (canvas_width canvas) == 63 /\
     inPixelRect canvas box (px p) (py p)) /\
    exists s',
      Double.dispatch
        (Double.handleMouseDown (Some Double.canvas3000) Double.edgeEvent)
        Double.edgeState = Ok s' /\
      Double.selectedIndex s' = None.
Proof.
  eexists _, _, _.
  split; [vm_compute; reflexivity|].
  split; [vm_compute; reflexivity|].
  split; [vm_compute; reflexivity|].
  split; [reflexivity|].
  split; [reflexivity|].
  split.
  { cbv zeta. split; [vm_compute; reflexivity|].
    split; [vm_compute; reflexivity|].
    split; [vm_compute; reflexivity|].
    unfold inPixelRect; repeat split; vm_compute; discriminate. }
  eexists. split; reflexivity.
Qed.

(** * Further properties of the editor *)

(** ** Coordinates *)




(** ** What every action keeps *)

Lemma handleMouseDown_keeps_boxes (r : Refs) (e : PointerEvent)
    (s : EditorState) (effs : list Effect) :
  handleMouseDown r e s = Ok effs ->
  boxes (commit s effs) = boxes s /\
  (selectionValid s -> selectionValid (commit s effs)).
Proof.
  unfold handleMouseDown. cbv zeta.
  destruct (canvasRef r) as [canvas|];
    [|intros [= <-]; split; [reflexivity | trivial]].
  set (x := px (getCanvasCoordinates r e)).
  set (y := py (getCanvasCoordinates r e)).
  assert (Hbody :
    boxes (commit s (selectBody canvas s x y)) = boxes s /\
    selectionValid (commit s (selectBody canvas s x y))).
  { unfold selectBody, selectionValid.
    pose proof (clickedIndex_topmost canvas (boxes s) x y
                  (length (boxes s)) (le_n _)) as Htop.
    destruct (clickedIndex canvas (boxes s) x y (length (boxes s)))
      as [k|]; cbn; (split; [reflexivity|]); [apply Htop | exact I]. }
  destruct (selectedIndex s) as [i|] eqn:Hs.
  - destruct (getHandleHit r s x y i) as [[h|]|]; [| |discriminate].
    + intros [= <-]. unfold selectionValid. cbn. rewrite Hs. tauto.
    + intros [= <-]. split; [apply Hbody | intros _; apply Hbody].
  - intros [= <-]. split; [apply Hbody | intros _; apply Hbody].
Qed.

(** A property of boxes that the new box has and that moving and resizing
    keep is kept by every action, and no action throws while the selection
    is an index of the collection.  The resize premise is only needed in
    a resize session. *)
Lemma step_preserves (P : BoundingBox -> Prop) (r : Refs) (a : UserAction)
    (s : EditorState) :
  P (mkBox 400 400 600 600) ->
  (forall b dx dy, P b -> P (moveBox b dx dy)) ->
  (forall b h x y,
     dragMode s = mode_resize -> P b ->
     0 <= x <= 1000 -> 0 <= y <= 1000 -> P (resizeBox b h x y)) ->
  Forall P (boxes s) -> selectionValid s ->
  exists s',
    step r a s = Ok s' /\ Forall P (boxes s') /\ selectionValid s'.
Proof.
  intros Hnew Hmove Hresize Hall Hsel. unfold step, dispatch.
  destruct a as [e|e| | | |value|]; cbn [handler].
  - (* pointer down *)
    destruct (handleMouseDown r e s) as [effs|] eqn:Hrun.
    + destruct (handleMouseDown_keeps_boxes r e s effs Hrun) as [Hb Hv].
      eexists. split; [reflexivity|]. rewrite Hb. split; [exact Hall|auto].
    + exfalso. unfold handleMouseDown in Hrun. cbv zeta in Hrun.
      destruct (canvasRef r) as [canvas|] eqn:Hc; [|discriminate].
      unfold selectionValid in Hsel.
      destruct (selectedIndex s) as [i|]; [|discriminate].
      destruct (lookup_lt_is_Some_2 (boxes s) i Hsel) as [box Hb].
      rewrite (getHandleHit_first r canvas s _ _ i box Hc Hb) in Hrun.
      destruct (firstHandleWithin canvas box _ _); discriminate.
  - (* pointer move *)
    unfold handleMouseMove, selectionValid in *.
    destruct (isDragging s) eqn:Hd;
      [|eexists; split; [reflexivity|]; split; assumption].
    destruct (selectedIndex s) as [i|] eqn:Hs;
      [|eexists; split; [reflexivity|]; cbn; rewrite Hs; split; trivial].
    cbv zeta.
    destruct (canvasRef r) as [canvas|];
      [|eexists; split; [reflexivity|]; cbn; rewrite Hs; split; trivial].
    destruct (lookup_lt_is_Some_2 (boxes s) i Hsel) as [box Hb].
    rewrite Hb.
    assert (Hbox : P box) by (eapply Forall_lookup_1; eauto).
    destruct (dragMode s) eqn:Hm.
    + eexists. split; [reflexivity|]. cbn. rewrite Hs. split; trivial.
    + eexists. split; [reflexivity|]. cbn. rewrite Hs.
      split; [|now rewrite length_insert].
      apply Forall_insert; [exact Hall | now apply Hmove].
    + destruct (dragHandle s) as [h|] eqn:Hh.
      * eexists. split; [reflexivity|]. cbn. rewrite Hs.
        split; [|now rewrite length_insert].
        apply Forall_insert; [exact Hall|].
        apply Hresize; [reflexivity | exact Hbox | |];
          apply clamp1000_clamped.
      * eexists. split; [reflexivity|]. cbn. rewrite Hs. split; trivial.
  - (* pointer up *)
    eexists. split; [reflexivity|]. split; assumption.
  - (* add *)
    eexists. split; [reflexivity|]. unfold selectionValid. cbn. split.
    + apply Forall_app. split; [exact Hall|].
      constructor; [exact Hnew | constructor].
    + rewrite length_app. cbn. lia.
  - (* delete *)
    unfold handleDeleteBox, selectionValid in *.
    destruct (selectedIndex s) as [i|] eqn:Hs.
    + eexists. split; [reflexivity|]. cbn.
      split; [now apply filterIndexNe_Forall | exact I].
    + eexists. split; [reflexivity|]. cbn. rewrite Hs. split; trivial.
  - (* category *)
    eexists. split; [reflexivity|]. split; assumption.
  - (* export *)
    destruct (handleProcess_confirm_only r s) as (effs & Hrun & Hconf & _).
    rewrite Hrun, (commit_confirm_only s effs Hconf).
    exists s. split; [reflexivity|]. split; assumption.
Qed.

Lemma run_preserves (P : BoundingBox -> Prop) (r : Refs)
    (actions : list UserAction) (s : EditorState) :
  P (mkBox 400 400 600 600) ->
  (forall b dx dy, P b -> P (moveBox b dx dy)) ->
  (forall b h x y,
     P b -> 0 <= x <= 1000 -> 0 <= y <= 1000 -> P (resizeBox b h x y)) ->
  Forall P (boxes s) -> selectionValid s ->
  exists s',
    run r actions s = Ok s' /\ Forall P (boxes s') /\ selectionValid s'.
Proof.
  intros Hnew Hmove Hresize. revert s.
  induction actions as [|a rest IH]; intros s Hall Hsel; cbn [run].
  - exists s. split; [reflexivity|]. split; assumption.
  - destruct (step_preserves P r a s Hnew Hmove) as (s1 & -> & Hall1 & Hsel1);
      [intros; now apply Hresize | exact Hall | exact Hsel |].
    now apply IH.
Qed.

(** X4. No sequence of user actions throws, whatever boxes the detector
    handed over and whatever the refs hold: the editor always reaches a
    state, and in it the selection is an index of the collection or
    nothing. *)
Theorem editor_never_throws (r : Refs) (detectedBoxes : list BoundingBox)
    (actions : list UserAction) :
  exists s',
    run r actions (initialState detectedBoxes) = Ok s' /\
    match selectedIndex s' with
    | Some i => exists box, boxes s' !! i = Some box
    | None => True
    end.
Proof.
  destruct (run_preserves (fun _ => True) r actions
              (initialState detectedBoxes))
    as (s' & Hrun & _ & Hsel).
  - exact I.
  - intros; exact I.
  - intros; exact I.
  - apply Forall_forall. intros; exact I.
  - exact I.
  - exists s'. split; [exact Hrun|]. unfold selectionValid in Hsel.
    destruct (selectedIndex s') as [i|]; [|exact I].
    now apply lookup_lt_is_Some_2.
Qed.

(** X5. When the detector's boxes have their edges in order, so has every
    box of the collection after any sequence of user actions. *)
Theorem edges_stay_ordered (r : Refs) (detectedBoxes : list BoundingBox)
    (actions : list UserAction) :
  Forall ordered detectedBoxes ->
  exists s',
    run r actions (initialState detectedBoxes) = Ok s' /\
    forall i b, boxes s' !! i = Some b ->
                xmin b <= xmax b /\ ymin b <= ymax b.
Proof.
  intros Hall.
  destruct (run_preserves ordered r actions (initialState detectedBoxes))
    as (s' & Hrun & Hall' & _).
  - unfold ordered. cbn [xmin xmax ymin ymax]. lra.
  - intros. now apply moveBox_ordered.
  - intros. apply resizeBox_ordered.
  - exact Hall.
  - exact I.
  - exists s'. split; [exact Hrun|]. intros i b Hb.
    apply (Forall_lookup_1 _ _ _ _ Hall' Hb).
Qed.

Lemma edges_stay_ordered_witness :
  exists s',
    run refs1000 [MouseDown (mkEvent 15 15); MouseMove (mkEvent 900 900);
                  MouseUp; AddBox]
        (initialState [tinyBox]) = Ok s' /\
    forall i b, boxes s' !! i = Some b ->
                xmin b <= xmax b /\ ymin b <= ymax b.
Proof.
  apply (edges_stay_ordered refs1000 [tinyBox]).
  constructor; [|constructor]. unfold ordered, tinyBox.
  cbn [xmin xmax ymin ymax]. lra.
Defined.



(** X7. Outside a resize session every action keeps all boxes
    well-formed, whatever their size: only a resize step can take a
    well-formed box out of [0, 1000]. *)
Theorem only_resize_leaves_range (r : Refs) (a : UserAction)
    (s : EditorState) :
  dragMode s <> mode_resize ->
  Forall wellFormed (boxes s) -> selectionValid s ->
  exists s',
    step r a s = Ok s' /\ Forall wellFormed (boxes s').
Proof.
  intros Hm Hall Hsel.
  destruct (step_preserves wellFormed r a s) as (s' & Hrun & Hall' & _).
  - unfold wellFormed. cbn [xmin xmax ymin ymax]. lra.
  - intros. now apply moveBox_wellFormed.
  - intros b h x y Hres. contradiction.
  - exact Hall.
  - exact Hsel.
  - exists s'. split; assumption.
Qed.

Lemma only_resize_leaves_range_witness :
  exists s',
    step refs1000 (MouseMove (mkEvent 0 0))
         (mkState [tinyBox] (Some 0%nat) "" mode_move None true
                  (mkPoint 15 15)) = Ok s' /\
    Forall wellFormed (boxes s').
Proof.
  apply (only_resize_leaves_range refs1000 (MouseMove (mkEvent 0 0))).
  - discriminate.
  - constructor; [|constructor]. unfold wellFormed, tinyBox.
    cbn [xmin xmax ymin ymax]. lra.
  - cbn. lia.
Defined.

(** ** Adding and deleting boxes *)

Lemma filterIndexNe_past {A : Type} (sel i : nat) (l : list A) :
  (sel < i)%nat -> filterIndexNe sel i l = l.
Proof.
  revert i. induction l as [|a l IH]; intros i Hlt; cbn; [reflexivity|].
  destruct (Nat.eqb_spec i sel) as [E|_]; [lia|].
  f_equal. apply IH. lia.
Qed.

(** Filtering out one index is cutting the list there. *)
Lemma filterIndexNe_shift {A : Type} (sel i : nat) (l : list A) :
  filterIndexNe (i + sel) i l = take sel l ++ drop (S sel) l.
Proof.
  revert sel i. induction l as [|a l IH]; intros sel i; cbn.
  - now destruct sel.
  - destruct sel as [|sel].
    + rewrite Nat.add_0_r, Nat.eqb_refl. cbn.
      apply filterIndexNe_past. lia.
    + destruct (Nat.eqb_spec i (i + S sel)) as [E|_]; [lia|]. cbn.
      f_equal. replace (i + S sel)%nat with (S i + sel)%nat by lia.
      apply IH.
Qed.

(** X8. Adding a manual box puts the box [400, 600] x [400, 600] at the
    end of the collection and selects it: the selected index is the index
    of the new box, and the boxes that were there keep their indices. *)
Theorem add_box_appends_and_selects (r : Refs) (s : EditorState) :
  exists s' i,
    step r AddBox s = Ok s' /\
    selectedIndex s' = Some i /\
    boxes s' !! i = Some (mkBox 400 400 600 600) /\
    length (boxes s') = S (length (boxes s)) /\
    i = length (boxes s) /\
    (forall j b, boxes s !! j = Some b -> boxes s' !! j = Some b).
Proof.
  eexists _, _. split; [reflexivity|]. cbn.
  split; [reflexivity|].
  split; [apply list_lookup_middle; reflexivity|].
  split; [rewrite length_app; cbn; lia|].
  split; [reflexivity|].
  intros j b Hb. now apply lookup_app_l_Some.
Qed.

(** X9. Deleting removes the selected box and nothing else: the boxes
    before it keep their indices, the boxes after it move down by one,
    and the selection is cleared.  When the selection is an index of the
    collection the collection gets one box shorter. *)
Theorem delete_removes_selected (r : Refs) (s : EditorState) (sel : nat) :
  selectedIndex s = Some sel ->
  exists s',
    step r DeleteBox s = Ok s' /\
    selectedIndex s' = None /\
    boxes s' = take sel (boxes s) ++ drop (S sel) (boxes s) /\
    (forall j, (j < sel)%nat -> boxes s' !! j = boxes s !! j) /\
    (forall j, (sel <= j)%nat -> boxes s' !! j = boxes s !! S j) /\
    ((sel < length (boxes s))%nat ->
     S (length (boxes s')) = length (boxes s)).
Proof.
  intros Hs. unfold step, dispatch. cbn [handler].
  unfold handleDeleteBox. rewrite Hs.
  eexists. split; [reflexivity|]. cbn.
  split; [reflexivity|].
  pose proof (filterIndexNe_shift sel 0 (boxes s)) as Hcut.
  cbn in Hcut. rewrite Hcut.
  split; [reflexivity|].
  assert (Hlen : forall n, (n <= length (boxes s))%nat ->
                           length (take n (boxes s)) = n).
  { intros n Hn. rewrite length_take. lia. }
  split; [|split].
  - intros j Hj.
    destruct (le_lt_dec (length (boxes s)) j) as [Hge|Hlt].
    + rewrite (lookup_ge_None_2 (boxes s) j Hge).
      apply lookup_ge_None_2. rewrite length_app, length_take, length_drop.
      lia.
    + rewrite lookup_app_l by (rewrite length_take; lia).
      apply lookup_take_lt. exact Hj.
  - intros j Hj.
    destruct (le_lt_dec (length (boxes s)) sel) as [Hge|Hlt].
    + rewrite (lookup_ge_None_2 (boxes s) (S j)) by lia.
      apply lookup_ge_None_2. rewrite length_app, length_take, length_drop.
      lia.
    + rewrite lookup_app_r by (rewrite Hlen; lia).
      rewrite Hlen by lia. rewrite lookup_drop. f_equal. lia.
  - intros Hlt. rewrite length_app, length_take, length_drop. lia.
Qed.

Lemma delete_removes_selected_witness :
  exists s',
    step refs1000 DeleteBox twoBoxesSelectedA = Ok s' /\
    selectedIndex s' = None /\
    boxes s' = take 0 [boxA; boxB] ++ drop 1 [boxA; boxB] /\
    (forall j, (j < 0)%nat -> boxes s' !! j = [boxA; boxB] !! j) /\
    (forall j, (0 <= j)%nat -> boxes s' !! j = [boxA; boxB] !! S j) /\
    ((0 < 2)%nat -> S (length (boxes s')) = 2%nat).
Proof.
  apply (delete_removes_selected refs1000 twoBoxesSelectedA 0%nat).
  reflexivity.
Defined.

(** X10. Deleting without a selection does nothing, and adding a box and
    deleting it at once gives the collection back, with nothing
    selected. *)
Theorem add_then_delete_restores (r : Refs) (s : EditorState) :
  (selectedIndex s = None -> step r DeleteBox s = Ok s) /\
  exists s',
    run r [AddBox; DeleteBox] s = Ok s' /\
    boxes s' = boxes s /\ selectedIndex s' = None /\
    selectedCategoryId s' = selectedCategoryId s.
Proof.
  split.
  - intros Hs. unfold step, dispatch. cbn [handler].
    unfold handleDeleteBox. rewrite Hs. reflexivity.
  - eexists. split; [reflexivity|]. cbn.
    split; [|split; reflexivity].
    pose proof (filterIndexNe_shift (length (boxes s)) 0
                  (boxes s ++ [mkBox 400 400 600 600])) as Hcut.
    cbn [Nat.add] in Hcut. rewrite Hcut.
    rewrite take_app_length.
    rewrite drop_ge by (rewrite length_app; cbn; lia).
    apply app_nil_r.
Qed.

(** ** Drag sessions *)

(** X11. A pointer-up (or the pointer leaving the canvas) ends the drag
    session and keeps the boxes, the selection and the chosen category;
    pointer-moves after it change nothing until the next pointer-down. *)
Theorem moves_ignored_after_mouse_up (r : Refs) (s : EditorState)
    (moves : list PointerEvent) :
  exists s',
    step r MouseUp s = Ok s' /\
    boxes s' = boxes s /\ selectedIndex s' = selectedIndex s /\
    selectedCategoryId s' = selectedCategoryId s /\
    isDragging s' = false /\ dragMode s' = mode_none /\
    dragHandle s' = None /\
    run r (map MouseMove moves) s' = Ok s'.
Proof.
  eexists. split; [reflexivity|]. cbn.
  repeat (split; [reflexivity|]).
  induction moves as [|e moves IH]; [reflexivity|].
  cbn [map run]. unfold step at 1, dispatch. cbn [handler].
  unfold handleMouseMove. cbn [isDragging commit fold_left].
  exact IH.
Qed.

Lemma resizeBox_last (b : BoundingBox) (h : HandlePosition)
    (x1 y1 x2 y2 : Q) :
  resizeBox (resizeBox b h x1 y1) h x2 y2 = resizeBox b h x2 y2.
Proof. destruct h; reflexivity. Qed.

(** X12. Resizing is absolute: during a resize session the box after two
    pointer-moves is the box a single move to the last position gives,
    whatever the position in between. *)
Theorem resize_depends_on_last_position (r : Refs) (canvas : Canvas)
    (e1 e2 : PointerEvent) (s : EditorState) (i : nat) (b : BoundingBox)
    (h : HandlePosition) :
  canvasRef r = Some canvas ->
  isDragging s = true -> dragMode s = mode_resize ->
  dragHandle s = Some h ->
  selectedIndex s = Some i -> boxes s !! i = Some b ->
  exists s',
    run r [MouseMove e1; MouseMove e2] s = Ok s' /\
    run r [MouseMove e2] s = Ok s'.
Proof.
  intros Hc Hd Hm Hh Hs Hb.
  assert (Hi : (i < length (boxes s))%nat) by (eapply lookup_lt_Some; eauto).
  pose proof (handleMouseMove_resize r canvas e1 s i b h Hc Hd Hm Hh Hs Hb)
    as Hrun1.
  pose proof (handleMouseMove_resize r canvas e2 s i b h Hc Hd Hm Hh Hs Hb)
    as Hrun2.
  cbv zeta in Hrun1, Hrun2.
  eexists. split.
  - cbn [run]. unfold step at 1. cbn [handler]. rewrite Hrun1.
    unfold step. cbn [handler].
    erewrite handleMouseMove_resize;
      [|exact Hc|exact Hd|exact Hm|exact Hh|exact Hs|
       cbn [boxes]; apply list_lookup_insert_eq; exact Hi].
    cbv zeta. cbn [boxes selectedIndex selectedCategoryId dragMode
                   dragHandle isDragging dragStart].
    rewrite resizeBox_last, list_insert_insert_eq. reflexivity.
  - cbn [run]. unfold step. cbn [handler]. rewrite Hrun2. reflexivity.
Qed.

Lemma resize_depends_on_last_position_witness :
  exists s',
    run refs1000 [MouseMove (mkEvent 900 10); MouseMove (mkEvent 100 150)]
        midResizingState = Ok s' /\
    run refs1000 [MouseMove (mkEvent 100 150)] midResizingState = Ok s'.
Proof.
  apply (resize_depends_on_last_position refs1000 canvas1000
           (mkEvent 900 10) (mkEvent 100 150) midResizingState 0%nat
           midBox nw); reflexivity.
Defined.

(** ** Crops *)

Lemma export_order_witness :
  exists crops,
    hostCalls (match handleProcess refs1000 twoBoxesState with
               | Ok effs => effs
               | Throw => []
               end)
      = [(crops, orNull (selectedCategoryId twoBoxesState))] /\
    length crops = length (boxes twoBoxesState) /\
    forall i box, boxes twoBoxesState !! i = Some box ->
                  crops !! i = Some (cropOf image1000 box).
Proof.
  apply (export_order refs1000 image1000 twoBoxesState); reflexivity.
Defined.

Lemma cropOf_interior_witness :
  crop_eq (cropOf image1000 midBox) (paddedClampedRegion image1000 midBox).
Proof.
  apply (cropOf_interior image1000 midBox); num_eval.
Defined.








(** ** Rendering *)

Section Rendering.

Variable measureText : option Q -> string -> Q.

(** The calls for the box at position [k] are among the calls of the
    loop, for the font the context has when the loop reaches the box. *)
Lemma drawBoxes_In (canvas : Canvas) (img : Image) (sel : option nat)
    (bs : list BoundingBox) :
  forall (ctxFont : option Q) (index k : nat) (box : BoundingBox),
    bs !! k = Some box ->
    exists ctxFontK,
      forall op,
        In op (fst (drawBox measureText canvas img sel ctxFontK box
                            (index + k))) ->
        In op (fst (drawBoxes measureText canvas img sel ctxFont index bs)).
Proof.
  induction bs as [|b bs IH]; intros ctxFont index k box Hk;
    [discriminate|].
  cbn [drawBoxes].
  destruct (drawBox measureText canvas img sel ctxFont b index)
    as [ops ctxFont'] eqn:Eb.
  destruct (drawBoxes measureText canvas img sel ctxFont' (S index) bs)
    as [opsRest ctxFont''] eqn:Er.
  cbn [fst]. destruct k as [|k].
  - injection Hk as <-. exists ctxFont. intros op Hop.
    rewrite Nat.add_0_r, Eb in Hop. apply in_or_app. now left.
  - destruct (IH ctxFont' (S index) k box Hk) as (ctxFontK & HK).
    exists ctxFontK. intros op Hop. apply in_or_app. right.
    specialize (HK op). rewrite Er in HK. apply HK.
    replace (S index + k)%nat with (index + S k)%nat by lia. exact Hop.
Qed.

Lemma quarter_of_width (W : Q) : 250 < W -> 1 # 4 < W / 1000.
Proof.
  intros HW. apply Qlt_shift_div_l; [reflexivity|]. lra.
Qed.

(** X17. On an image more than 250 pixels wide every handle that [draw]
    paints can be grabbed: for each of the four handles of the selected
    box the frame has a filled square centred on the corner of the
    handle, and a pointer-down anywhere in that square, its border
    included, starts a resize of the selected box. *)
Theorem drawn_handles_are_grabbable (r : Refs) (canvas : Canvas)
    (img : Image) (ctxFont : option Q) (s : EditorState) (i : nat)
    (box : BoundingBox) :
  canvasRef r = Some canvas -> imgRef r = Some img ->
  selectedIndex s = Some i -> boxes s !! i = Some box ->
  250 < naturalWidth img ->
  exists f,
    draw measureText r (Some ctxFont) s = Some f /\
    canvas_width (frame_canvas f) == naturalWidth img /\
    let handleSize := 20 * Qmax 1 (naturalWidth img / 1000) in
    forall h,
      exists x0 y0,
        In (fillRect x0 y0 handleSize handleSize) (frame_ops f) /\
        x0 + handleSize / 2 == px (handleCorner (frame_canvas f) box h) /\
        y0 + handleSize / 2 == py (handleCorner (frame_canvas f) box h) /\
        forall e,
          let p := getCanvasCoordinates (refsAfter r f) e in
          x0 <= px p <= x0 + handleSize ->
          y0 <= py p <= y0 + handleSize ->
          exists h',
            dispatch (handleMouseDown (refsAfter r f) e) s =
              Ok (mkState (boxes s) (Some i) (selectedCategoryId s)
                          mode_resize (Some h') true (dragStart s)).
Proof.
  intros Hc Hi Hs Hb HW. unfold draw. rewrite Hc, Hi.
  set (resized := negb (Num.seq (canvas_width canvas) (naturalWidth img))).
  set (canvas' :=
         if resized
         then mkCanvas (naturalWidth img) (naturalHeight img)
                       (rect_left canvas) (rect_top canvas)
                       (rect_width canvas) (rect_height canvas)
         else canvas).
  set (font0 := if resized then None else ctxFont).
  destruct (drawBoxes measureText canvas' img (selectedIndex s) font0 0
                      (boxes s)) as [ops font1] eqn:Eops.
  eexists. split; [reflexivity|]. cbn [frame_canvas frame_ops].
  assert (Hwidth : canvas_width canvas' == naturalWidth img).
  { unfold canvas', resized.
    destruct (Num.seq (canvas_width canvas) (naturalWidth img)) eqn:E;
      cbn [negb canvas_width]; [now apply NumFacts.seq_eq | reflexivity]. }
  split; [exact Hwidth|]. cbv zeta.
  destruct (drawBoxes_In canvas' img (selectedIndex s) (boxes s) font0 0 i
              box Hb) as (fontK & HIn).
  rewrite Eops in HIn. cbn [fst Nat.add] in HIn.
  unfold drawBox in HIn. rewrite Hs, Nat.eqb_refl in HIn. cbn [fst] in HIn.
  fold (scaleFactor img).
  set (hs := 20 * scaleFactor img) in *.
  set (x := normToPixel (xmin box) (canvas_width canvas')) in *.
  set (y := normToPixel (ymin box) (canvas_height canvas')) in *.
  set (w := normToPixel (xmax box - xmin box) (canvas_width canvas')) in *.
  set (hh := normToPixel (ymax box - ymin box) (canvas_height canvas')) in *.
  assert (Hhalf : hs / 2 < canvas_width canvas' / 1000 * 40).
  { pose proof (quarter_of_width _ HW) as Hq.
    assert (Et : canvas_width canvas' / 1000 == naturalWidth img / 1000)
      by (now rewrite Hwidth).
    rewrite Et. unfold hs, scaleFactor.
    generalize dependent (naturalWidth img / 1000). intros t Ht _.
    assert (E2 : 20 * Qmax 1 t / 2 == 10 * Qmax 1 t) by field.
    rewrite E2. minmax_cases. lra. }
  assert (Hgrab : forall h x0 y0,
    x0 + hs / 2 == px (handleCorner canvas' box h) ->
    y0 + hs / 2 == py (handleCorner canvas' box h) ->
    forall e,
      x0 <= px (getCanvasCoordinates (mkRefs (Some canvas') (imgRef r)
                                             (context2d r)) e) <= x0 + hs ->
      y0 <= py (getCanvasCoordinates (mkRefs (Some canvas') (imgRef r)
                                             (context2d r)) e) <= y0 + hs ->
      exists h',
        dispatch (handleMouseDown (mkRefs (Some canvas') (imgRef r)
                                          (context2d r)) e) s =
          Ok (mkState (boxes s) (Some i) (selectedCategoryId s)
                      mode_resize (Some h') true (dragStart s))).
  { intros h x0 y0 Ex Ey e Hx Hy.
    set (r' := mkRefs (Some canvas') (imgRef r) (context2d r)) in *.
    assert (Hin : withinTolerance canvas' box
                    (px (getCanvasCoordinates r' e))
                    (py (getCanvasCoordinates r' e)) h = true).
    { unfold withinTolerance, handleTolerance.
      rewrite andb_true_iff, !NumFacts.ltb_lt.
      assert (E2 : hs == 2 * (hs / 2)) by field.
      split; apply Qabs_Qlt_condition; lra. }
    destruct (firstHandleWithin canvas' box (px (getCanvasCoordinates r' e))
                (py (getCanvasCoordinates r' e))) as [h'|] eqn:Ef.
    - exists h'.
      rewrite (handleMouseDown_handle r' canvas' e s i box h' eq_refl Hs Hb Ef).
      rewrite Hs. reflexivity.
    - pose proof (proj1 (firstHandleWithin_none _ _ _ _) Ef h) as Hm.
      rewrite Hin in Hm. discriminate. }
  assert (Sx : x + w == normToPixel (xmax box) (canvas_width canvas'))
    by apply normToPixel_span.
  assert (Sy : y + hh == normToPixel (ymax box) (canvas_height canvas'))
    by apply normToPixel_span.
  unfold refsAfter. cbn [frame_canvas].
  intros h. destruct h.
  - exists (x - hs / 2), (y - hs / 2).
    split; [do 2 right; apply HIn, in_or_app; right;
            unfold handleOps; cbn [In]; tauto|].
    assert (Ex : x - hs / 2 + hs / 2 == px (handleCorner canvas' box nw))
      by (cbn [handleCorner px]; fold x; ring).
    assert (Ey : y - hs / 2 + hs / 2 == py (handleCorner canvas' box nw))
      by (cbn [handleCorner py]; fold y; ring).
    split; [exact Ex|]. split; [exact Ey|]. now apply (Hgrab nw).
  - exists (x + w - hs / 2), (y - hs / 2).
    split; [do 2 right; apply HIn, in_or_app; right;
            unfold handleOps; cbn [In]; tauto|].
    assert (Ex : x + w - hs / 2 + hs / 2 == px (handleCorner canvas' box ne))
      by (cbn [handleCorner px]; rewrite <- Sx; ring).
    assert (Ey : y - hs / 2 + hs / 2 == py (handleCorner canvas' box ne))
      by (cbn [handleCorner py]; fold y; ring).
    split; [exact Ex|]. split; [exact Ey|]. now apply (Hgrab ne).
  - exists (x - hs / 2), (y + hh - hs / 2).
    split; [do 2 right; apply HIn, in_or_app; right;
            unfold handleOps; cbn [In]; tauto|].
    assert (Ex : x - hs / 2 + hs / 2 == px (handleCorner canvas' box sw))
      by (cbn [handleCorner px]; fold x; ring).
    assert (Ey : y + hh - hs / 2 + hs / 2 == py (handleCorner canvas' box sw))
      by (cbn [handleCorner py]; rewrite <- Sy; ring).
    split; [exact Ex|]. split; [exact Ey|]. now apply (Hgrab sw).
  - exists (x + w - hs / 2), (y + hh - hs / 2).
    split; [do 2 right; apply HIn, in_or_app; right;
            unfold handleOps; cbn [In]; tauto|].
    assert (Ex : x + w - hs / 2 + hs / 2 == px (handleCorner canvas' box se))
      by (cbn [handleCorner px]; rewrite <- Sx; ring).
    assert (Ey : y + hh - hs / 2 + hs / 2 == py (handleCorner canvas' box se))
      by (cbn [handleCorner py]; rewrite <- Sy; ring).
    split; [exact Ex|]. split; [exact Ey|]. now apply (Hgrab se).
Qed.

End Rendering.

Lemma drawn_handles_are_grabbable_witness :
  exists f,
    draw (fun _ _ => 0) refs1000 (Some None) midIdleState = Some f /\
    canvas_width (frame_canvas f) == naturalWidth image1000 /\
    let handleSize := 20 * Qmax 1 (naturalWidth image1000 / 1000) in
    forall h,
      exists x0 y0,
        In (fillRect x0 y0 handleSize handleSize) (frame_ops f) /\
        x0 + handleSize / 2 == px (handleCorner (frame_canvas f) midBox h) /\
        y0 + handleSize / 2 == py (handleCorner (frame_canvas f) midBox h) /\
        forall e,
          let p := getCanvasCoordinates (refsAfter refs1000 f) e in
          x0 <= px p <= x0 + handleSize ->
          y0 <= py p <= y0 + handleSize ->
          exists h',
            dispatch (handleMouseDown (refsAfter refs1000 f) e) midIdleState =
              Ok (mkState (boxes midIdleState) (Some 0%nat)
                          (selectedCategoryId midIdleState)
                          mode_resize (Some h') true
                          (dragStart midIdleState)).
Proof.
  apply (drawn_handles_are_grabbable (fun _ _ => 0) refs1000 canvas1000
           image1000 None midIdleState 0%nat midBox);
    try reflexivity; num_eval.
Defined.

(** On the edge of the painted [nw] handle of the box at (200, 200): the
    pointer-down takes the handle. *)
Example grab_handle_edge_run :
  dispatch (handleMouseDown refs1000 (mkEvent 210 190)) midIdleState =
  Ok (mkState [midBox] (Some 0%nat) "" mode_resize (Some nw) true
              (mkPoint 0 0)).
Proof. vm_compute. reflexivity. Qed.

(** * The host application *)

Module AppFacts.

Import App.

(** Updating the current event keeps the identifiers, so the current
    event after the update is the update of the current event. *)
Lemma find_update (cur : option string)
    (updater : EventData.t -> EventData.t) (l : list EventData.t) :
  (forall e, EventData.id (updater e) = EventData.id e) ->
  List.find (isCurrent cur)
            (map (fun e => if isCurrent cur e then updater e else e) l) =
  option_map updater (List.find (isCurrent cur) l).
Proof.
  intros Hid. induction l as [|e l IH]; [reflexivity|].
  cbn [map List.find]. destruct (isCurrent cur e) eqn:E.
  - assert (E' : isCurrent cur (updater e) = true).
    { unfold isCurrent in *. destruct cur; [|discriminate].
      now rewrite Hid. }
    rewrite E'. reflexivity.
  - rewrite E. exact IH.
Qed.

Lemma updateCurrentEvent_run (s : State) (id : string)
    (updater : EventData.t -> EventData.t) :
  currentEventId s = Some id -> id <> ""%string ->
  updateCurrentEvent s updater =
  [setEvents (map (fun e => if isCurrent (Some id) e then updater e
                            else e))].
Proof.
  intros Hid Hne. unfold updateCurrentEvent. rewrite Hid.
  destruct (String.eqb_spec id ""); [contradiction | reflexivity].
Qed.

Lemma isCurrent_true (id : string) (e : EventData.t) :
  isCurrent (Some id) e = true <-> EventData.id e = id.
Proof. unfold isCurrent. apply String.eqb_eq. Qed.

Lemma isCurrent_false (id : string) (e : EventData.t) :
  isCurrent (Some id) e = false <-> EventData.id e <> id.
Proof. unfold isCurrent. apply String.eqb_neq. Qed.

(** Reduces the commit of a list of effects to the state it builds. *)
Ltac app_state :=
  cbn [app commit fold_left reduce navigateTo events currentEventId view
       isDarkMode loading error trayImage detectedBoxes newCatName
       newEventName currentVoteCategory] in *.

Lemma lookup_imap_Some {A B : Type} (f : nat -> A -> B) (l : list A)
    (k : nat) (a : A) :
  l !! k = Some a -> imap f l !! k = Some (f k a).
Proof. intros H. rewrite list_lookup_imap, H. reflexivity. Qed.

(** X18. Extracting cookies adds one cookie per crop to the current
    event, after the cookies it has and in the order of the crops; each
    new cookie shows its crop, has the given category, no baker and no
    votes.  Every other event and every other field of the current event
    stay as they are, and the tray image and the detected boxes are
    cleared, which closes the editor. *)
Theorem extract_adds_one_cookie_per_crop (now : nat -> N)
    (croppedImages : list Crop) (defaultCategoryId : option string)
    (s : State) (id : string) :
  currentEventId s = Some id -> id <> ""%string ->
  let s' :=
    commit s (handleExtractCookies now croppedImages defaultCategoryId s) in
  trayImage s' = None /\ detectedBoxes s' = [] /\
  showsCropReview s' = false /\
  currentEventId s' = Some id /\
  length (events s') = length (events s) /\
  forall j ev, events s !! j = Some ev ->
    exists ev',
      events s' !! j = Some ev' /\
      (EventData.id ev <> id -> ev' = ev) /\
      (EventData.id ev = id ->
       exists newCookies,
         ev' = EventData.with_cookies ev (EventData.cookies ev ++ newCookies)
         /\ length newCookies = length croppedImages /\
         forall k img, croppedImages !! k = Some img ->
           exists c,
             newCookies !! k = Some c /\
             Cookie.imageUrl c = img /\
             Cookie.categoryId c = defaultCategoryId /\
             Cookie.bakerId c = None /\ Cookie.votes c = 0%nat).
Proof.
  intros Hid Hne. cbv zeta. unfold handleExtractCookies.
  rewrite (updateCurrentEvent_run s id _ Hid Hne).
  app_state.
  split; [reflexivity|]. split; [reflexivity|].
  split.
  { unfold showsCropReview. app_state.
    match goal with
    | |- match ?x with _ => _ end = _ => destruct x; reflexivity
    end. }
  split; [exact Hid|]. split; [apply length_map|].
  intros j ev Hj. rewrite list_lookup_fmap, Hj. cbn [fmap option_fmap option_map].
  eexists. split; [reflexivity|]. split.
  - intros Hn. apply isCurrent_false in Hn. now rewrite Hn.
  - intros He. apply isCurrent_true in He. rewrite He.
    eexists. split; [reflexivity|]. split; [apply length_imap|].
    intros k img Hk. eexists.
    split; [apply lookup_imap_Some; exact Hk|].
    repeat split.
Qed.

Lemma extract_adds_one_cookie_per_crop_witness :
  let s' :=
    commit Demo.state
           (handleExtractCookies (fun _ => 1700000000000%N)
                                 [Demo.crop1; Demo.crop2]
                                 (Some "cat-2"%string) Demo.state) in
  trayImage s' = None /\ showsCropReview s' = false /\
  exists ev',
    events s' !! 1%nat = Some ev' /\
    length (EventData.cookies ev') = 4%nat /\
    events s' !! 0%nat = Some Demo.other.
Proof.
  destruct (extract_adds_one_cookie_per_crop
              (fun _ => 1700000000000%N) [Demo.crop1; Demo.crop2]
              (Some "cat-2"%string) Demo.state "event-1" eq_refl
              ltac:(discriminate))
    as (Ht & _ & Hshow & _ & _ & Hev).
  cbv zeta. split; [exact Ht|]. split; [exact Hshow|].
  destruct (Hev 1%nat Demo.party eq_refl) as (ev' & H1 & _ & Hcur).
  destruct (Hev 0%nat Demo.other eq_refl) as (ev0 & H0 & Hother & _).
  destruct (Hcur eq_refl) as (new & -> & Hlen & _).
  exists (EventData.with_cookies Demo.party
            (EventData.cookies Demo.party ++ new)).
  split; [exact H1|]. split.
  - cbn [EventData.with_cookies EventData.cookies].
    rewrite length_app, Hlen. reflexivity.
  - rewrite H0. f_equal. apply Hother. discriminate.
Defined.

(** ** Votes *)

Lemma votesFor_snoc (id : string) (votes : list Vote.t) (v : Vote.t) :
  Voting.votesFor id (votes ++ [v]) =
  (Voting.votesFor id votes
   + if String.eqb (Vote.cookieId v) id then 1 else 0)%nat.
Proof.
  unfold Voting.votesFor. rewrite List.filter_app, length_app. cbn.
  now destruct (String.eqb (Vote.cookieId v) id).
Qed.

Lemma countVote_tally (cookieId categoryId : string) (ev : EventData.t) :
  Voting.tallyConsistent ev ->
  Voting.tallyConsistent
    (EventData.with_votes
       (EventData.with_cookies ev
          (map (countVote cookieId) (EventData.cookies ev)))
       (EventData.votes ev ++ [Vote.mk categoryId cookieId])).
Proof.
  unfold Voting.tallyConsistent.
  cbn [EventData.with_votes EventData.with_cookies EventData.cookies
       EventData.votes].
  intros Hall. apply List.Forall_map. revert Hall. apply List.Forall_impl.
  intros c Hc. rewrite votesFor_snoc. cbn [Vote.cookieId].
  unfold countVote. destruct (String.eqb_spec (Cookie.id c) cookieId) as [E|E].
  - cbn [Cookie.votes Cookie.id]. rewrite Hc, E, String.eqb_refl. reflexivity.
  - rewrite Hc. destruct (String.eqb_spec cookieId (Cookie.id c));
      [congruence | lia].
Qed.

(** What a vote does to the events, whatever it does to the view. *)
Lemma handleVote_events (cookieId : string) (s : State) :
  events (commit s (handleVote cookieId s)) = events s \/
  exists id cat,
    currentEventId s = Some id /\ id <> ""%string /\
    events (commit s (handleVote cookieId s)) =
    map (fun e =>
           if isCurrent (Some id) e
           then EventData.with_votes
                  (EventData.with_cookies e
                     (map (countVote cookieId) (EventData.cookies e)))
                  (EventData.votes e ++ [Vote.mk (Category.id cat) cookieId])
           else e)
        (events s).
Proof.
  unfold handleVote.
  destruct (currentEvent s) as [ev|]; [|now left].
  destruct (EventData.categories ev !! currentVoteCategory s) as [cat|];
    [|now left].
  unfold updateCurrentEvent.
  destruct (currentEventId s) as [id|] eqn:Hid.
  - destruct (String.eqb_spec id "") as [E|E].
    + left. destruct (Nat.ltb _ _); reflexivity.
    + right. exists id, cat. split; [reflexivity|]. split; [exact E|].
      destruct (Nat.ltb _ _); reflexivity.
  - left. destruct (Nat.ltb _ _); reflexivity.
Qed.

(** X19. Voting keeps the counters honest: if in every event the vote
    counter of each cookie equals the number of votes recorded for that
    cookie, the same holds after a vote, whether or not the vote is
    accepted. *)
Theorem vote_keeps_tally (cookieId : string) (s : State) :
  Forall Voting.tallyConsistent (events s) ->
  Forall Voting.tallyConsistent (events (commit s (handleVote cookieId s))).
Proof.
  intros Hall.
  destruct (handleVote_events cookieId s) as [->|(id & cat & _ & _ & ->)];
    [exact Hall|].
  apply List.Forall_map. revert Hall. apply List.Forall_impl.
  intros e He. destruct (isCurrent (Some id) e); [|exact He].
  now apply countVote_tally.
Qed.

Lemma vote_keeps_tally_witness :
  Forall Voting.tallyConsistent
         (events (commit Demo.state (handleVote "cookie-1-1" Demo.state))).
Proof.
  apply (vote_keeps_tally "cookie-1-1" Demo.state).
  repeat constructor.
Defined.

(** One accepted vote: the record of the vote and the step to the next
    category, or to the results after the last one. *)
Lemma handleVote_step (cookieId : string) (s : State) (id : string)
    (ev : EventData.t) (cat : Category.t) :
  currentEventId s = Some id -> id <> ""%string ->
  currentEvent s = Some ev ->
  EventData.categories ev !! currentVoteCategory s = Some cat ->
  let s1 := commit s (handleVote cookieId s) in
  currentEventId s1 = Some id /\
  (exists ev1,
     currentEvent s1 = Some ev1 /\
     EventData.categories ev1 = EventData.categories ev /\
     EventData.votes ev1 =
       EventData.votes ev ++ [Vote.mk (Category.id cat) cookieId]) /\
  if Nat.ltb (currentVoteCategory s) (length (EventData.categories ev) - 1)
  then currentVoteCategory s1 = S (currentVoteCategory s) /\
       view s1 = view s
  else currentVoteCategory s1 = currentVoteCategory s /\
       view s1 = "results"%string.
Proof.
  intros Hid Hne Hev Hcat. cbv zeta. unfold handleVote.
  rewrite Hev, Hcat. rewrite (updateCurrentEvent_run s id _ Hid Hne).
  assert (Hfind : forall s1,
    events s1 = map (fun e =>
           if isCurrent (Some id) e
           then EventData.with_votes
                  (EventData.with_cookies e
                     (map (countVote cookieId) (EventData.cookies e)))
                  (EventData.votes e ++ [Vote.mk (Category.id cat) cookieId])
           else e) (events s) ->
    currentEventId s1 = Some id ->
    exists ev1,
      currentEvent s1 = Some ev1 /\
      EventData.categories ev1 = EventData.categories ev /\
      EventData.votes ev1 =
        EventData.votes ev ++ [Vote.mk (Category.id cat) cookieId]).
  { intros s1 He Hc. unfold currentEvent in *. rewrite Hc, He.
    rewrite find_update by reflexivity.
    rewrite Hid in Hev. rewrite Hev. cbn [option_map].
    eexists. split; [reflexivity|]. split; reflexivity. }
  destruct (Nat.ltb (currentVoteCategory s)
                    (length (EventData.categories ev) - 1));
    app_state; (split; [exact Hid|]);
    (split; [apply Hfind; [reflexivity | exact Hid]|]);
    split; first [reflexivity | lia].
Qed.

Lemma castVotes_walk (cookieIds : list string) :
  forall (s : State) (id : string) (ev : EventData.t),
    currentEventId s = Some id -> id <> ""%string ->
    currentEvent s = Some ev ->
    cookieIds <> [] ->
    (currentVoteCategory s + length cookieIds)%nat
      = length (EventData.categories ev) ->
    let s' := Voting.castVotes cookieIds s in
    view s' = "results"%string /\
    exists ev',
      currentEvent s' = Some ev' /\
      EventData.categories ev' = EventData.categories ev /\
      EventData.votes ev' =
        EventData.votes ev
        ++ zip_with Vote.mk
             (map Category.id
                  (drop (currentVoteCategory s) (EventData.categories ev)))
             cookieIds.
Proof.
  induction cookieIds as [|c rest IH]; intros s id ev Hid Hne Hev Hnil Hlen;
    [contradiction|].
  cbv zeta. unfold Voting.castVotes. cbn [fold_left].
  fold (Voting.castVotes rest (commit s (handleVote c s))).
  cbn [length] in Hlen.
  destruct (lookup_lt_is_Some_2 (EventData.categories ev)
              (currentVoteCategory s)) as [cat Hcat]; [lia|].
  destruct (handleVote_step c s id ev cat Hid Hne Hev Hcat)
    as (Hid1 & (ev1 & Hev1 & Hcats1 & Hvotes1) & Hnext).
  rewrite (drop_S _ _ _ Hcat). cbn [map zip_with].
  destruct rest as [|c2 rest].
  - (* the last category *)
    cbn [Voting.castVotes fold_left]. cbn [length] in Hlen.
    destruct (Nat.ltb_spec (currentVoteCategory s)
                (length (EventData.categories ev) - 1)) as [Hlt|_]; [lia|].
    destruct Hnext as [_ Hview]. split; [exact Hview|].
    exists ev1. split; [exact Hev1|]. split; [exact Hcats1|].
    rewrite Hvotes1. now destruct (map _ _).
  - destruct (Nat.ltb_spec (currentVoteCategory s)
                (length (EventData.categories ev) - 1)) as [_|Hge];
      [|cbn [length] in Hlen; lia].
    destruct Hnext as [Hcur1 _].
    destruct (IH (commit s (handleVote c s)) id ev1 Hid1 Hne Hev1
                 ltac:(discriminate)) as (Hview & ev' & Hev' & Hcats' & Hvotes').
    { rewrite Hcur1, Hcats1. cbn [length] in *. lia. }
    split; [exact Hview|]. exists ev'. split; [exact Hev'|].
    split; [congruence|].
    rewrite Hvotes', Hvotes1, Hcur1, Hcats1, <- app_assoc. reflexivity.
Qed.

(** X20. A voter who enters an event with at least one category and
    clicks one cookie per category casts exactly one vote per category,
    in the order of the categories and for the cookie clicked there, and
    then sees the results. *)
Theorem one_vote_per_category (cookieIds : list string) (s : State)
    (id : string) (ev : EventData.t) :
  currentEventId s = Some id -> id <> ""%string ->
  currentEvent s = Some ev ->
  currentVoteCategory s = 0%nat ->
  cookieIds <> [] ->
  length cookieIds = length (EventData.categories ev) ->
  let s' := Voting.castVotes cookieIds s in
  view s' = "results"%string /\
  exists ev',
    currentEvent s' = Some ev' /\
    EventData.categories ev' = EventData.categories ev /\
    EventData.votes ev' =
      EventData.votes ev
      ++ zip_with Vote.mk (map Category.id (EventData.categories ev))
                  cookieIds.
Proof.
  intros Hid Hne Hev Hcur Hnil Hlen.
  pose proof (castVotes_walk cookieIds s id ev Hid Hne Hev Hnil) as H.
  rewrite Hcur in H. cbn [drop Nat.add] in H. now apply H.
Qed.

Lemma one_vote_per_category_witness :
  let s' := Voting.castVotes ["cookie-1-1"; "cookie-1-0"]%string Demo.state in
  view s' = "results"%string /\
  exists ev',
    currentEvent s' = Some ev' /\
    EventData.categories ev' = EventData.categories Demo.party /\
    EventData.votes ev' =
      EventData.votes Demo.party
      ++ zip_with Vote.mk (map Category.id (EventData.categories Demo.party))
                  ["cookie-1-1"; "cookie-1-0"]%string.
Proof.
  apply (one_vote_per_category ["cookie-1-1"; "cookie-1-0"]%string
           Demo.state "event-1" Demo.party);
    first [reflexivity | discriminate].
Defined.

(** X21. A vote cast from the vote view counts in the results: when the
    category on display is the category at the vote index and the voter
    clicks one of its cookies, the vote is recorded under that category,
    and the result count of the clicked cookie in that category goes up
    by one while the counts of the other cookies stay. *)
Theorem vote_counts_in_results (s : State) (id : string) (ev : EventData.t)
    (currentCat : Category.t) (clicked : Cookie.t) :
  currentEventId s = Some id -> id <> ""%string ->
  currentEvent s = Some ev ->
  EventData.categories ev !! Voting.safeIndex s ev = Some currentCat ->
  (currentVoteCategory s < length (EventData.categories ev))%nat ->
  In clicked (Voting.eligibleCookies ev currentCat) ->
  exists ev1,
    currentEvent (commit s (handleVote (Cookie.id clicked) s)) = Some ev1 /\
    EventData.votes ev1 =
      EventData.votes ev
      ++ [Vote.mk (Category.id currentCat) (Cookie.id clicked)] /\
    forall c,
      Results.count (Results.resultOf ev1 currentCat c) =
      (Results.count (Results.resultOf ev currentCat c)
       + if String.eqb (Cookie.id c) (Cookie.id clicked) then 1 else 0)%nat.
Proof.
  intros Hid Hne Hev Hcat Hlt Hin.
  assert (Hidx : Voting.safeIndex s ev = currentVoteCategory s).
  { unfold Voting.safeIndex. lia. }
  rewrite Hidx in Hcat.
  destruct (handleVote_step (Cookie.id clicked) s id ev currentCat
              Hid Hne Hev Hcat) as (_ & (ev1 & Hev1 & _ & Hvotes) & _).
  exists ev1. split; [exact Hev1|]. split; [exact Hvotes|].
  intros c. unfold Results.resultOf. cbn [Results.count].
  rewrite Hvotes, List.filter_app, length_app. f_equal.
  cbn [List.filter]. unfold Results.isVoteFor.
  cbn [Vote.categoryId Vote.cookieId]. rewrite String.eqb_refl.
  cbn [andb]. rewrite (String.eqb_sym (Cookie.id clicked)).
  now destruct (String.eqb (Cookie.id c) (Cookie.id clicked)).
Qed.

Lemma vote_counts_in_results_witness :
  exists ev1,
    currentEvent (commit Demo.state (handleVote "cookie-1-1" Demo.state))
      = Some ev1 /\
    EventData.votes ev1 = [Vote.mk "cat-1" "cookie-1-1"] /\
    forall c,
      Results.count (Results.resultOf ev1 (Category.mk "cat-1" "Best Taste")
                                      c) =
      (Results.count (Results.resultOf Demo.party
                        (Category.mk "cat-1" "Best Taste") c)
       + if String.eqb (Cookie.id c) "cookie-1-1" then 1 else 0)%nat.
Proof.
  apply (vote_counts_in_results Demo.state "event-1" Demo.party
           (Category.mk "cat-1" "Best Taste")
           (Cookie.mk "cookie-1-1" Demo.crop2 None (Some "cat-1"%string) 0));
    try reflexivity; try discriminate.
  - cbn. lia.
  - cbn. tauto.
Defined.

(** ** Results *)

Section Sorting.

Context {A : Type} (key : A -> nat).

Lemma insertSorted_perm (x : A) (l : list A) :
  Permutation (Results.insertSorted (Results.byKeyDescending key) x l) (x :: l).
Proof.
  induction l as [|y l IH]; cbn; [reflexivity|].
  destruct (Z.leb _ _); [reflexivity|].
  rewrite IH. apply perm_swap.
Qed.

Lemma sort_perm (l : list A) :
  Permutation (Results.sort (Results.byKeyDescending key) l) l.
Proof.
  induction l as [|x l IH]; cbn; [reflexivity|].
  unfold Results.sort in IH. rewrite insertSorted_perm. now constructor.
Qed.

(** The head of the sorted list has the greatest key. *)
Lemma insertSorted_max (x : A) (l : list A) (m : A) (rest : list A) :
  (forall h t, l = h :: t -> Forall (fun y => (key y <= key h)%nat) t) ->
  Results.insertSorted (Results.byKeyDescending key) x l = m :: rest ->
  Forall (fun y => (key y <= key m)%nat) rest.
Proof.
  intros Hl. destruct l as [|y l]; cbn.
  - intros [= <- <-]. constructor.
  - specialize (Hl y l eq_refl).
    unfold Results.byKeyDescending at 1.
    destruct (Z.leb_spec (Z.of_nat (key y) - Z.of_nat (key x)) 0) as [Hle|Hgt].
    + intros [= <- <-]. constructor; [lia|].
      revert Hl. apply List.Forall_impl. intros a Ha. lia.
    + intros [= <- <-].
      eapply Permutation_Forall;
        [symmetry; apply insertSorted_perm|].
      constructor; [lia | exact Hl].
Qed.

Lemma sort_max (l : list A) (m : A) (rest : list A) :
  Results.sort (Results.byKeyDescending key) l = m :: rest ->
  Forall (fun y => (key y <= key m)%nat) rest.
Proof.
  revert m rest. induction l as [|x l IH]; intros m rest; cbn;
    [discriminate|].
  apply insertSorted_max. intros h t Hht. now apply IH.
Qed.

End Sorting.

(** The head of the sorted list is the first element of greatest key in
    the list that was sorted. *)
Lemma sort_head_first_max {A : Type} (key : A -> nat) (l : list A) (m : A)
    (rest : list A) :
  Results.sort (Results.byKeyDescending key) l = m :: rest ->
  exists before after,
    l = before ++ m :: after /\
    Forall (fun y => (key y < key m)%nat) before /\
    Forall (fun y => (key y <= key m)%nat) after.
Proof.
  revert m rest. induction l as [|x l IH]; intros m rest;
    [discriminate|].
  change (Results.sort (Results.byKeyDescending key) (x :: l))
    with (Results.insertSorted (Results.byKeyDescending key) x
            (Results.sort (Results.byKeyDescending key) l)).
  destruct (Results.sort (Results.byKeyDescending key) l) as [|h t] eqn:Es.
  - pose proof (sort_perm key l) as Hp. rewrite Es in Hp.
    apply Permutation_nil in Hp. subst l.
    cbn. intros [= <- <-]. exists [], []. repeat split; constructor.
  - destruct (IH h t eq_refl) as (l1 & l2 & -> & H1 & H2).
    cbn [Results.insertSorted]. unfold Results.byKeyDescending at 1.
    destruct (Z.leb_spec (Z.of_nat (key h) - Z.of_nat (key x)) 0) as [Hle|Hgt].
    + intros [= <- <-]. exists [], (l1 ++ h :: l2).
      split; [reflexivity|]. split; [constructor|].
      apply Forall_app. split.
      * revert H1. apply List.Forall_impl. intros a Ha. lia.
      * constructor; [lia|].
        revert H2. apply List.Forall_impl. intros a Ha. lia.
    + intros [= <- <-]. exists (x :: l1), l2.
      split; [reflexivity|]. split; [|exact H2].
      constructor; [lia | exact H1].
Qed.

(** X22. The result view ranks the cookies of a category by their votes.
    The ranking holds every cookie of the category once.  The winner, if
    there is one, heads the ranking with at least one vote, no cookie of
    the category has more votes, and among cookies with as many votes it
    is the one that comes first in the event; the others are the runners
    up.  There is no winner exactly when no cookie of the category has a
    vote, and then all of them are runners up. *)
Theorem winner_has_most_votes (ev : EventData.t) (cat : Category.t) :
  let candidates :=
    map (Results.resultOf ev cat)
        (List.filter (Voting.inCategory cat) (EventData.cookies ev)) in
  Permutation (Results.cookieResults ev cat) candidates /\
  match Results.winner ev cat with
  | Some w =>
      (0 < Results.count w)%nat /\
      Results.cookieResults ev cat = w :: Results.runnersUp ev cat /\
      exists before after,
        candidates = before ++ w :: after /\
        Forall (fun r => (Results.count r < Results.count w)%nat) before /\
        Forall (fun r => (Results.count r <= Results.count w)%nat) after
  | None =>
      Results.runnersUp ev cat = Results.cookieResults ev cat /\
      Forall (fun r => Results.count r = 0%nat) candidates
  end.
Proof.
  cbv zeta. split; [apply sort_perm|].
  unfold Results.runnersUp, Results.winner, Results.cookieResults.
  set (candidates := map (Results.resultOf ev cat)
                         (List.filter (Voting.inCategory cat)
                                      (EventData.cookies ev))).
  destruct (Results.sort (Results.byKeyDescending Results.count) candidates)
    as [|first rest] eqn:Es.
  - split; [reflexivity|].
    pose proof (sort_perm Results.count candidates) as Hp.
    rewrite Es in Hp. apply Permutation_nil in Hp. rewrite Hp. constructor.
  - destruct (sort_head_first_max Results.count candidates first rest Es)
      as (before & after & Hc & Hb & Ha).
    destruct (Nat.ltb_spec 0 (Results.count first)) as [Hpos|Hzero].
    + split; [exact Hpos|]. split; [reflexivity|].
      exists before, after. repeat split; assumption.
    + split; [reflexivity|]. rewrite Hc. apply Forall_app. split.
      * revert Hb. apply List.Forall_impl. intros a Hlt. lia.
      * constructor; [lia|].
        revert Ha. apply List.Forall_impl. intros a Hle. lia.
Qed.

(** Two votes for the second cookie of the category and one for the
    first: the second cookie wins. *)
Example winner_run :
  let ev :=
    EventData.with_votes Demo.party
      [Vote.mk "cat-1" "cookie-1-1"; Vote.mk "cat-1" "cookie-1-0";
       Vote.mk "cat-1" "cookie-1-1"; Vote.mk "cat-2" "cookie-1-0"] in
  option_map (fun w => (Cookie.id (Results.cookie w), Results.count w))
             (Results.winner ev (Category.mk "cat-1" "Best Taste"))
  = Some ("cookie-1-1"%string, 2%nat) /\
  map Results.count (Results.runnersUp ev (Category.mk "cat-1" "Best Taste"))
  = [1%nat].
Proof. split; reflexivity. Qed.

(** ** Events *)

Lemma find_filter_other (cur id : string) (l : list EventData.t) :
  cur <> id ->
  List.find (isCurrent (Some cur))
            (List.filter (fun ev => negb (String.eqb (EventData.id ev) id)) l)
  = List.find (isCurrent (Some cur)) l.
Proof.
  intros Hne. induction l as [|e l IH]; [reflexivity|]. cbn.
  destruct (String.eqb_spec (EventData.id e) id) as [E|E]; cbn.
  - destruct (String.eqb_spec (EventData.id e) cur) as [E'|_];
      [congruence | exact IH].
  - destruct (String.eqb (EventData.id e) cur); [reflexivity | exact IH].
Qed.

Lemma find_no_current (l : list EventData.t) :
  List.find (isCurrent None) l = None.
Proof. induction l as [|e l IH]; [reflexivity | exact IH]. Qed.

(** X23. Deleting an event, once confirmed, removes every event with
    that identifier and no other, and never leaves the deleted event as
    the current one: if it was current there is no current event
    afterwards, otherwise the current event is the same as before.
    Without the confirmation nothing changes. *)
Theorem delete_event_clears_current (confirmed : bool) (id : string)
    (s : State) :
  let s' := commit s (handleDeleteEvent confirmed id s) in
  (confirmed = false -> s' = s) /\
  (confirmed = true ->
   (forall ev, In ev (events s') <->
               In ev (events s) /\ EventData.id ev <> id) /\
   (currentEventId s = Some id ->
    currentEventId s' = None /\ currentEvent s' = None) /\
   (currentEventId s <> Some id ->
    currentEventId s' = currentEventId s /\
    currentEvent s' = currentEvent s)).
Proof.
  cbv zeta. split; intros ->; unfold handleDeleteEvent.
  - destruct s; reflexivity.
  - assert (Hin : forall ev,
      In ev (List.filter
               (fun ev => negb (String.eqb (EventData.id ev) id)) (events s))
      <-> In ev (events s) /\ EventData.id ev <> id).
    { intros ev. rewrite List.filter_In, negb_true_iff, String.eqb_neq.
      reflexivity. }
    destruct (currentEventId s) as [cur|] eqn:Hcur.
    + destruct (String.eqb_spec cur id) as [->|Hne]; app_state.
      * split; [exact Hin|]. split.
        -- intros _. split; [reflexivity|].
           unfold currentEvent. app_state. apply find_no_current.
        -- intros Hn. contradiction.
      * split; [exact Hin|]. split.
        -- intros [= E]. contradiction.
        -- intros _. split; [exact Hcur|].
           unfold currentEvent. app_state. rewrite Hcur.
           now apply find_filter_other.
    + app_state. split; [exact Hin|]. split; [discriminate|].
      intros _. split; [exact Hcur|].
      unfold currentEvent. app_state. rewrite Hcur.
      now rewrite !find_no_current.
Qed.

Lemma find_app_miss (cur : option string) (l : list EventData.t)
    (e : EventData.t) :
  List.find (isCurrent cur) l = None ->
  List.find (isCurrent cur) (l ++ [e]) =
  if isCurrent cur e then Some e else None.
Proof.
  induction l as [|x l IH]; cbn; [reflexivity|].
  destruct (isCurrent cur x); [discriminate | exact IH].
Qed.

Lemma find_app_hit (cur : option string) (l : list EventData.t)
    (e old : EventData.t) :
  List.find (isCurrent cur) l = Some old ->
  List.find (isCurrent cur) (l ++ [e]) = Some old.
Proof.
  induction l as [|x l IH]; cbn; [discriminate|].
  destruct (isCurrent cur x); [trivial | exact IH].
Qed.

(** X24. Creating an event with a name that is not blank appends an
    event with the three default categories and no bakers, cookies or
    votes, makes its identifier the current one and opens the admin
    dashboard.  The new event is the current event unless an older event
    has the same identifier (one created in the same millisecond): then
    the older event is the current one.  A blank name creates nothing. *)
Theorem created_event_is_current (trim : string -> string) (now : N)
    (s : State) :
  let s' := commit s (Events.handleCreateEvent trim now s) in
  let newId := ("event-" ++ timeToString now)%string in
  let newEvent :=
    EventData.mk newId (newEventName s) []
      [Category.mk "cat-1" "Best Taste"; Category.mk "cat-2" "Most Festive";
       Category.mk "cat-3" "Best Decoration"]
      [] [] EventData.setup in
  (trim (newEventName s) = ""%string -> s' = s) /\
  (trim (newEventName s) <> ""%string ->
   events s' = events s ++ [newEvent] /\
   currentEventId s' = Some newId /\
   view s' = "admin-dashboard"%string /\ newEventName s' = ""%string /\
   match List.find (isCurrent (Some newId)) (events s) with
   | None => currentEvent s' = Some newEvent
   | Some old => currentEvent s' = Some old
   end).
Proof.
  cbv zeta. unfold Events.handleCreateEvent. split.
  - intros ->. destruct s; reflexivity.
  - intros Hne.
    destruct (String.eqb_spec (trim (newEventName s)) "") as [E|_];
      [contradiction|].
    app_state. repeat (split; [reflexivity|]).
    unfold currentEvent. app_state.
    destruct (List.find _ (events s)) as [old|] eqn:Ef.
    + now apply find_app_hit.
    + rewrite (find_app_miss _ _ _ Ef). unfold isCurrent.
      cbn [EventData.id]. now rewrite String.eqb_refl.
Qed.

End AppFacts.

(** * The editor inside the host *)

Lemma deliver_confirm (now : nat -> N) (crops : list Crop)
    (cat : option string) (s : App.State) :
  Wiring.deliver now [onConfirm crops cat] s =
  App.commit s (App.handleExtractCookies now crops cat s).
Proof. reflexivity. Qed.

(** The current event after the host has taken a list of crops. *)
Lemma currentEvent_after_extract (now : nat -> N) (crops : list Crop)
    (cat : option string) (s : App.State) (id : string) (ev : EventData.t) :
  App.currentEventId s = Some id -> id <> ""%string ->
  App.currentEvent s = Some ev ->
  let s' := App.commit s (App.handleExtractCookies now crops cat s) in
  App.currentEvent s' =
    Some (EventData.with_cookies ev
            (EventData.cookies ev ++ imap (App.newCookie now cat) crops)) /\
  App.currentEventId s' = Some id /\
  App.showsCropReview s' = false.
Proof.
  intros Hid Hne Hev. cbv zeta. unfold App.handleExtractCookies.
  rewrite (AppFacts.updateCurrentEvent_run s id _ Hid Hne).
  unfold App.currentEvent, App.showsCropReview in *.
  AppFacts.app_state. rewrite Hid in *.
  rewrite AppFacts.find_update by reflexivity. rewrite Hev.
  repeat split.
  match goal with
  | |- match ?x with _ => _ end = _ => destruct x; reflexivity
  end.
Qed.

(** X25. Confirming the review hands the boxes to the current event: with
    an image loaded, the event gains one cookie per box, in box order,
    that shows the crop of the box and carries the category chosen in
    the editor (none when no category is chosen), and the editor closes.
    Without an image or a context nothing reaches the host: its state
    stays as it is and the editor stays open. *)
Theorem confirm_adds_a_cookie_per_box (r : Refs) (cs : EditorState)
    (now : nat -> N) (s : App.State) (id : string) (ev : EventData.t) :
  App.currentEventId s = Some id -> id <> ""%string ->
  App.currentEvent s = Some ev ->
  exists effs,
    handleProcess r cs = Ok effs /\
    (imgRef r = None \/ context2d r = false ->
     Wiring.deliver now effs s = s) /\
    forall img,
      imgRef r = Some img -> context2d r = true ->
      exists ev' newCookies,
        App.currentEvent (Wiring.deliver now effs s) = Some ev' /\
        App.showsCropReview (Wiring.deliver now effs s) = false /\
        EventData.cookies ev' = EventData.cookies ev ++ newCookies /\
        EventData.votes ev' = EventData.votes ev /\
        EventData.categories ev' = EventData.categories ev /\
        length newCookies = length (boxes cs) /\
        forall k box, boxes cs !! k = Some box ->
          exists c,
            newCookies !! k = Some c /\
            Cookie.imageUrl c = cropOf img box /\
            Cookie.categoryId c = orNull (selectedCategoryId cs) /\
            Cookie.bakerId c = None /\ Cookie.votes c = 0%nat.
Proof.
  intros Hid Hne Hev.
  destruct (imgRef r) as [img|] eqn:Hi.
  - destruct (context2d r) eqn:Hc.
    + rewrite (handleProcess_crops r img cs Hi Hc).
      eexists. split; [reflexivity|]. split; [intros [?|?]; discriminate|].
      intros img' [= <-] _. rewrite deliver_confirm.
      destruct (currentEvent_after_extract now
                  (map (cropOf img) (boxes cs))
                  (orNull (selectedCategoryId cs)) s id ev Hid Hne Hev)
        as (Hcur & _ & Hshow).
      cbv zeta in Hcur, Hshow.
      eexists _, _. split; [exact Hcur|]. split; [exact Hshow|].
      split; [reflexivity|]. split; [reflexivity|]. split; [reflexivity|].
      split; [rewrite length_imap; apply length_map|].
      intros k box Hk. eexists. split.
      * apply AppFacts.lookup_imap_Some.
        rewrite list_lookup_fmap, Hk. reflexivity.
      * repeat split.
    + exists []. unfold handleProcess. rewrite Hi, Hc.
      split; [reflexivity|]. split; [reflexivity|]. discriminate.
  - exists []. unfold handleProcess. rewrite Hi.
    split; [reflexivity|]. split; [reflexivity|]. discriminate.
Qed.

Lemma confirm_adds_a_cookie_per_box_witness :
  exists ev',
    App.currentEvent
      (Wiring.deliver (fun _ => 1700000000000%N)
         [onConfirm (map (cropOf image1000) (boxes twoBoxesState))
                    (orNull (selectedCategoryId twoBoxesState))]
         Demo.state) = Some ev' /\
    length (EventData.cookies ev') = 4%nat.
Proof.
  destruct (confirm_adds_a_cookie_per_box refs1000 twoBoxesState
              (fun _ => 1700000000000%N) Demo.state "event-1" Demo.party
              eq_refl ltac:(discriminate) eq_refl)
    as (effs & Hrun & _ & Himg).
  rewrite (handleProcess_crops refs1000 image1000 twoBoxesState
             eq_refl eq_refl) in Hrun.
  injection Hrun as <-.
  destruct (Himg image1000 eq_refl eq_refl)
    as (ev' & new & Hcur & _ & Hcookies & _ & _ & Hlen & _).
  exists ev'. split; [exact Hcur|].
  rewrite Hcookies, length_app, Hlen. reflexivity.
Defined.

Lemma In_imap_newCookie (now : nat -> N) (cat : option string)
    (crops : list Crop) (c : Cookie.t) :
  In c (imap (App.newCookie now cat) crops) -> Cookie.categoryId c = cat.
Proof.
  intros Hin. apply list_elem_of_In, list_elem_of_lookup in Hin.
  destruct Hin as (k & Hk). rewrite list_lookup_imap in Hk.
  destruct (crops !! k); [|discriminate]. now injection Hk as <-.
Qed.

(** X26. A category created from the review screen becomes the category
    of the cookies extracted next: the host appends the category to the
    current event, the editor selects it as soon as it sees the longer
    list, keeping its boxes and its selection, and the export and the
    extraction that follow give every new cookie the identifier of the
    new category. *)
Theorem new_category_becomes_the_default (r : Refs) (img : Image)
    (cs : EditorState) (nowCategory : N) (name : string) (now : nat -> N)
    (s : App.State) (id : string) (ev : EventData.t) :
  imgRef r = Some img -> context2d r = true ->
  App.currentEventId s = Some id -> id <> ""%string ->
  App.currentEvent s = Some ev ->
  let s1 := App.commit s (App.onAddCategory nowCategory name s) in
  exists ev1 newCat,
    App.currentEvent s1 = Some ev1 /\
    EventData.categories ev1 = EventData.categories ev ++ [newCat] /\
    Category.name newCat = name /\
    let effect :=
      Wiring.categoriesEffect (length (EventData.categories ev))
                              (EventData.categories ev1) in
    let cs1 := commit cs (fst effect) in
    snd effect = length (EventData.categories ev1) /\
    selectedCategoryId cs1 = Category.id newCat /\
    boxes cs1 = boxes cs /\ selectedIndex cs1 = selectedIndex cs /\
    exists crops,
      handleProcess r cs1 = Ok [onConfirm crops (Some (Category.id newCat))] /\
      length crops = length (boxes cs) /\
      exists ev2,
        App.currentEvent
          (Wiring.deliver now [onConfirm crops (Some (Category.id newCat))] s1)
          = Some ev2 /\
        EventData.categories ev2 = EventData.categories ev1 /\
        length (EventData.cookies ev2) =
          (length (EventData.cookies ev) + length (boxes cs))%nat /\
        forall c, In c (EventData.cookies ev2) ->
          In c (EventData.cookies ev) \/
          Cookie.categoryId c = Some (Category.id newCat).
Proof.
  intros Hi Hc Hid Hne Hev. cbv zeta.
  set (newCat := Category.mk ("cat-" ++ timeToString nowCategory) name).
  set (ev1 := EventData.with_categories ev
                (EventData.categories ev ++ [newCat])).
  assert (Hs1 : App.currentEvent
                  (App.commit s (App.onAddCategory nowCategory name s))
                = Some ev1 /\
                App.currentEventId
                  (App.commit s (App.onAddCategory nowCategory name s))
                = Some id).
  { unfold App.onAddCategory.
    rewrite (AppFacts.updateCurrentEvent_run s id _ Hid Hne).
    unfold App.currentEvent in *. AppFacts.app_state. rewrite Hid in *.
    rewrite AppFacts.find_update by reflexivity. rewrite Hev.
    split; reflexivity. }
  destruct Hs1 as [Hcur1 Hid1].
  set (s1 := App.commit s (App.onAddCategory nowCategory name s)) in *.
  exists ev1, newCat. split; [exact Hcur1|].
  split; [reflexivity|]. split; [reflexivity|].
  unfold Wiring.categoriesEffect.
  cbn [EventData.categories ev1 EventData.with_categories].
  rewrite length_app. cbn [length].
  destruct (Nat.ltb_spec (length (EventData.categories ev))
              (length (EventData.categories ev) + 1)) as [_|Hge]; [|lia].
  rewrite last_snoc. cbn [fst snd commit fold_left reduce].
  split; [reflexivity|].
  cbn [selectedCategoryId boxes selectedIndex Category.id newCat].
  split; [reflexivity|]. split; [reflexivity|]. split; [reflexivity|].
  set (cs1 := mkState (boxes cs) (selectedIndex cs)
                      ("cat-" ++ timeToString nowCategory) (dragMode cs)
                      (dragHandle cs) (isDragging cs) (dragStart cs)).
  exists (map (cropOf img) (boxes cs1)).
  split; [exact (handleProcess_crops r img cs1 Hi Hc)|].
  split; [apply length_map|].
  rewrite deliver_confirm.
  destruct (currentEvent_after_extract now (map (cropOf img) (boxes cs1))
              (Some ("cat-" ++ timeToString nowCategory)%string) s1 id ev1
              Hid1 Hne Hcur1) as (Hcur2 & _ & _).
  cbv zeta in Hcur2. eexists. split; [exact Hcur2|].
  cbn [EventData.categories EventData.cookies EventData.with_cookies
       EventData.with_categories ev1].
  split; [reflexivity|].
  split; [rewrite length_app, length_imap, length_map; reflexivity|].
  intros c Hin. apply in_app_or in Hin. destruct Hin as [Hold|Hnew].
  - now left.
  - right. now apply In_imap_newCookie in Hnew.
Qed.

Lemma new_category_becomes_the_default_witness :
  exists ev1 newCat,
    App.currentEvent
      (App.commit Demo.state (App.onAddCategory 1700000000005%N "Best Icing"
                                                Demo.state)) = Some ev1 /\
    EventData.categories ev1 = EventData.categories Demo.party ++ [newCat] /\
    Category.name newCat = "Best Icing"%string.
Proof.
  destruct (new_category_becomes_the_default refs1000 image1000
              twoBoxesState 1700000000005%N "Best Icing"
              (fun _ => 1700000000009%N) Demo.state "event-1" Demo.party
              eq_refl eq_refl eq_refl ltac:(discriminate) eq_refl)
    as (ev1 & newCat & H1 & H2 & H3 & _).
  exists ev1, newCat. split; [exact H1|]. split; [exact H2 | exact H3].
Defined.

(** ** Cookie identifiers *)

Lemma digits_no_dash (d : Decimal.uint) :
  ~ In "-"%char (list_ascii_of_string (NilEmpty.string_of_uint d)).
Proof.
  induction d; cbn; intros H; [exact H|..];
    (destruct H as [E|H]; [discriminate | auto]).
Qed.

Lemma split_at_dash (a1 a2 b1 b2 : string) :
  ~ In "-"%char (list_ascii_of_string a1) ->
  ~ In "-"%char (list_ascii_of_string a2) ->
  (a1 ++ String "-" b1)%string = (a2 ++ String "-" b2)%string ->
  a1 = a2 /\ b1 = b2.
Proof.
  revert a2. induction a1 as [|c a1 IH]; intros a2 H1 H2 E.
  - destruct a2 as [|c2 a2]; cbn in E.
    + now injection E.
    + injection E as <- _. exfalso. apply H2. now left.
  - destruct a2 as [|c2 a2]; cbn in E.
    + injection E as -> _. exfalso. apply H1. now left.
    + injection E as <- E.
      destruct (IH a2) as [-> ->]; auto.
      * intros H. apply H1. now right.
      * intros H. apply H2. now right.
Qed.

Lemma natToString_inj (n m : nat) : natToString n = natToString m -> n = m.
Proof.
  unfold natToString. intros E.
  assert (E' : Some (Nat.to_uint n) = Some (Nat.to_uint m)).
  { rewrite <- !NilEmpty.usu. now rewrite E. }
  injection E' as E'.
  rewrite <- (DecimalNat.Unsigned.of_to n), <- (DecimalNat.Unsigned.of_to m).
  now rewrite E'.
Qed.

Lemma newCookie_id_inj (now : nat -> N) (cat1 cat2 : option string)
    (k1 k2 : nat) (img1 img2 : Crop) :
  Cookie.id (App.newCookie now cat1 k1 img1)
    = Cookie.id (App.newCookie now cat2 k2 img2) ->
  k1 = k2.
Proof.
  unfold App.newCookie. cbn [Cookie.id]. intros E.
  cbn [String.append] in E. injection E as E.
  apply split_at_dash in E; try apply digits_no_dash.
  destruct E as [_ E]. now apply natToString_inj.
Qed.

(** X27. The cookies one extraction adds have pairwise distinct
    identifiers, whatever [Date.now()] returns during the extraction,
    also when it returns the same value for every cookie. *)
Theorem extracted_cookie_ids_distinct (now : nat -> N)
    (croppedImages : list Crop) (defaultCategoryId : option string)
    (s : App.State) (id : string) (ev : EventData.t) :
  App.currentEventId s = Some id -> id <> ""%string ->
  App.currentEvent s = Some ev ->
  exists ev' newCookies,
    App.currentEvent
      (App.commit s (App.handleExtractCookies now croppedImages
                                              defaultCategoryId s))
      = Some ev' /\
    EventData.cookies ev' = EventData.cookies ev ++ newCookies /\
    length newCookies = length croppedImages /\
    forall k1 k2 c1 c2,
      newCookies !! k1 = Some c1 -> newCookies !! k2 = Some c2 ->
      Cookie.id c1 = Cookie.id c2 -> k1 = k2.
Proof.
  intros Hid Hne Hev.
  destruct (currentEvent_after_extract now croppedImages defaultCategoryId
              s id ev Hid Hne Hev) as (Hcur & _ & _).
  cbv zeta in Hcur. eexists _, _. split; [exact Hcur|].
  split; [reflexivity|]. split; [apply length_imap|].
  intros k1 k2 c1 c2 H1 H2 E.
  rewrite list_lookup_imap in H1, H2.
  destruct (croppedImages !! k1) as [img1|]; [|discriminate].
  destruct (croppedImages !! k2) as [img2|]; [|discriminate].
  injection H1 as <-. injection H2 as <-.
  now apply newCookie_id_inj in E.
Qed.

Lemma extracted_cookie_ids_distinct_witness :
  exists ev' newCookies,
    App.currentEvent
      (App.commit Demo.state
         (App.handleExtractCookies (fun _ => 1700000000000%N)
                                   [Demo.crop1; Demo.crop2; Demo.crop1]
                                   None Demo.state))
      = Some ev' /\
    EventData.cookies ev' = EventData.cookies Demo.party ++ newCookies /\
    length newCookies = 3%nat /\
    forall k1 k2 c1 c2,
      newCookies !! k1 = Some c1 -> newCookies !! k2 = Some c2 ->
      Cookie.id c1 = Cookie.id c2 -> k1 = k2.
Proof.
  apply (extracted_cookie_ids_distinct (fun _ => 1700000000000%N)
           [Demo.crop1; Demo.crop2; Demo.crop1] None Demo.state
           "event-1" Demo.party);
    first [reflexivity | discriminate].
Defined.

(** ** What is drawn and what is exported *)





(** ** The vote index *)

Lemma commit_skip_events (s : App.State) :
  App.events (App.commit s (App.handleSkip s)) = App.events s /\
  App.currentEventId (App.commit s (App.handleSkip s))
    = App.currentEventId s.
Proof.
  unfold App.handleSkip. destruct (App.currentEvent s); [|now split].
  destruct (Nat.ltb _ _); now split.
Qed.

(** X29. Voting and skipping walk the categories without ever leaving
    them: from a vote index inside the categories of the current event,
    a vote or a skip moves to the next category and keeps the view, or,
    at the last category, keeps the index and opens the results.  The
    index stays an index of the categories, and a skip records no
    vote. *)
Theorem vote_index_stays_in_range (s : App.State) (id : string)
    (ev : EventData.t) (action : App.State -> list App.Effect) :
  App.currentEventId s = Some id -> id <> ""%string ->
  App.currentEvent s = Some ev ->
  (App.currentVoteCategory s < length (EventData.categories ev))%nat ->
  action = App.handleSkip \/
  (exists cookieId, action = App.handleVote cookieId) ->
  let s' := App.commit s (action s) in
  (App.currentVoteCategory s' < length (EventData.categories ev))%nat /\
  (exists ev', App.currentEvent s' = Some ev' /\
               EventData.categories ev' = EventData.categories ev /\
               (action = App.handleSkip -> ev' = ev)) /\
  if Nat.eqb (S (App.currentVoteCategory s))
             (length (EventData.categories ev))
  then App.currentVoteCategory s' = App.currentVoteCategory s /\
       App.view s' = "results"%string
  else App.currentVoteCategory s' = S (App.currentVoteCategory s) /\
       App.view s' = App.view s.
Proof.
  intros Hid Hne Hev Hlt Haction. cbv zeta.
  assert (Hlast :
    Nat.ltb (App.currentVoteCategory s)
            (length (EventData.categories ev) - 1) =
    negb (Nat.eqb (S (App.currentVoteCategory s))
                  (length (EventData.categories ev)))).
  { destruct (Nat.ltb_spec (App.currentVoteCategory s)
                (length (EventData.categories ev) - 1));
      destruct (Nat.eqb_spec (S (App.currentVoteCategory s))
                  (length (EventData.categories ev))); cbn; lia. }
  destruct Haction as [->|[cookieId ->]].
  - pose proof (commit_skip_events s) as [He Hc].
    assert (Hcur : App.currentEvent (App.commit s (App.handleSkip s))
                   = Some ev).
    { unfold App.currentEvent in *. now rewrite He, Hc. }
    unfold App.handleSkip in *. rewrite Hev in *. rewrite Hlast in *.
    destruct (Nat.eqb_spec (S (App.currentVoteCategory s))
                (length (EventData.categories ev))) as [E|E];
      cbn [negb] in *; AppFacts.app_state.
    + split; [exact Hlt|]. split; [|split; reflexivity].
      exists ev. split; [exact Hcur|]. split; [reflexivity|]. trivial.
    + split; [lia|]. split; [|split; [lia | reflexivity]].
      exists ev. split; [exact Hcur|]. split; [reflexivity|]. trivial.
  - destruct (lookup_lt_is_Some_2 _ _ Hlt) as [cat Hcat].
    destruct (AppFacts.handleVote_step cookieId s id ev cat Hid Hne Hev Hcat)
      as (_ & (ev1 & Hev1 & Hcats1 & _) & Hnext).
    rewrite Hlast in Hnext.
    destruct (Nat.eqb_spec (S (App.currentVoteCategory s))
                (length (EventData.categories ev))) as [E|E];
      cbn [negb] in Hnext; destruct Hnext as [Hn Hv].
    + split; [rewrite Hn; exact Hlt|]. split; [|split; assumption].
      exists ev1. split; [exact Hev1|]. split; [exact Hcats1|].
      intros Habs. exfalso.
      apply (f_equal (fun h => h s)) in Habs.
      unfold App.handleVote, App.handleSkip in Habs.
      rewrite Hev, Hcat in Habs.
      rewrite (AppFacts.updateCurrentEvent_run s id _ Hid Hne) in Habs.
      destruct (Nat.ltb _ _); discriminate.
    + split; [rewrite Hn; lia|]. split; [|split; assumption].
      exists ev1. split; [exact Hev1|]. split; [exact Hcats1|].
      intros Habs. exfalso.
      apply (f_equal (fun h => h s)) in Habs.
      unfold App.handleVote, App.handleSkip in Habs.
      rewrite Hev, Hcat in Habs.
      rewrite (AppFacts.updateCurrentEvent_run s id _ Hid Hne) in Habs.
      destruct (Nat.ltb _ _); discriminate.
Qed.

Lemma vote_index_stays_in_range_witness :
  let s' := App.commit Demo.state (App.handleSkip Demo.state) in
  (App.currentVoteCategory s' < 2)%nat /\
  App.currentVoteCategory s' = 1%nat /\ App.view s' = "vote"%string.
Proof.
  destruct (vote_index_stays_in_range Demo.state "event-1" Demo.party
              App.handleSkip eq_refl ltac:(discriminate) eq_refl
              ltac:(cbn; lia) (or_introl eq_refl))
    as (Hrange & _ & Hnext).
  cbv zeta. split; [exact Hrange | exact Hnext].
Defined.

(** ** Late properties of the editor *)

(** X14. Seeding again replaces the boxes and keeps the selection.  When
    the new list has no box at the selected index, the next pointer-down
    on the canvas throws: the handle test reads the coordinates of a box
    that is not there. *)
Theorem reseed_can_strand_the_selection (r : Refs) (canvas : Canvas)
    (e : PointerEvent) (s : EditorState) (detectedBoxes : list BoundingBox)
    (i : nat) :
  canvasRef r = Some canvas ->
  selectedIndex s = Some i -> (length detectedBoxes <= i)%nat ->
  exists s',
    dispatch (detectedBoxesEffect detectedBoxes) s = Ok s' /\
    boxes s' = detectedBoxes /\ selectedIndex s' = Some i /\
    step r (MouseDown e) s' = Throw.
Proof.
  intros Hc Hs Hlen. eexists. split; [reflexivity|].
  cbn [commit fold_left reduce boxes selectedIndex].
  split; [reflexivity|]. split; [exact Hs|].
  unfold step, dispatch. cbn [handler].
  unfold handleMouseDown. cbv zeta. rewrite Hc.
  cbn [selectedIndex]. rewrite Hs.
  unfold getHandleHit. rewrite Hc. cbn [boxes].
  rewrite (lookup_ge_None_2 detectedBoxes i Hlen). reflexivity.
Qed.

Lemma reseed_can_strand_the_selection_witness :
  exists s',
    dispatch (detectedBoxesEffect [boxA]) 
             (mkState [boxA; boxB] (Some 1%nat) "" mode_none None false
                      (mkPoint 0 0)) = Ok s' /\
    boxes s' = [boxA] /\ selectedIndex s' = Some 1%nat /\
    step refs1000 (MouseDown (mkEvent 10 10)) s' = Throw.
Proof.
  apply (reseed_can_strand_the_selection refs1000 canvas1000
           (mkEvent 10 10)
           (mkState [boxA; boxB] (Some 1%nat) "" mode_none None false
                    (mkPoint 0 0))
           [boxA] 1%nat); first [reflexivity | cbn; lia].
Defined.


